(** * Adaptive video compression: the target-size search of
    [vision_ai_tools/video_adaptive_compress.py]

    A shallow embedding of [adaptive_compress_video] and of the helpers it
    calls ([_pick_codec], [_encode_once], [_run_ffmpeg]), followed by the
    properties of the search: candidate ladders, stage order, codec fallback,
    bitrate derivation and argument validation.

    Conventions of the embedding:
    - a Python [int] is a [Z]; a Python [float] is an IEEE 754 binary64 value,
      carried as the Standard Library's [spec_float] and computed with its
      correctly rounded operations ([SFmul], [SFdiv], [SFltb], ...);
      float literals of the source are written as literals and read with
      [Prim2SF];
    - a Python [str] is a [string] of 8-bit characters (only the ASCII
      behaviour of [lower], [strip], [float(...)] and [int(...)] is modelled;
      the interpreter's optional limit on the length of integer literals
      is not);
    - a raised exception is a value of [exn]; code that may raise returns
      [res];
    - the outside world (ffmpeg/ffprobe processes, the file system, object
      storage) is an abstract state threaded through the calls, and every
      call to it is recorded in a trace. *)

From Stdlib Require Import ZArith QArith Qround Qminmax List String Ascii Bool Lia.
From Stdlib Require Import DecimalString Sorted.
From Stdlib Require Import PrimFloat SpecFloat FloatOps.
Import ListNotations.

Set Warnings "-inexact-float".
Local Open Scope string_scope.
Local Open Scope list_scope.
Local Open Scope Z_scope.

(** ** Exceptions and results *)

Inductive exn : Type :=
| ValueError (msg : string)
| OverflowError (msg : string)
| ZeroDivisionError (msg : string)
| AssertionError
| OSError (msg : string).

Inductive res (A : Type) : Type :=
| Ok (a : A)
| Raise (e : exn).
Arguments Ok {A} a.
Arguments Raise {A} e.

Definition is_ValueError (e : exn) : bool :=
  match e with ValueError _ => true | _ => false end.

(** ** Python numbers *)

Module Py.

(** A Python float. *)
Definition float : Type := spec_float.

Definition lit (x : PrimFloat.float) : float := Prim2SF x.

Definition zero : float := S754_zero false.

(** [float(z)] for an [int]: rounded to nearest even, [OverflowError]
    past the largest double. *)
Definition float_of_int (z : Z) : res float :=
  match binary_normalize prec emax z 0 false with
  | S754_infinity _ => Raise (OverflowError "int too large to convert to float")
  | x => Ok x
  end.

(** [int(x)] for a float: truncation toward zero. *)
Definition int_of_float (x : float) : res Z :=
  match x with
  | S754_zero _ => Ok 0
  | S754_finite s m e =>
      let a := Z.shiftl (Zpos m) e in Ok (if s then - a else a)
  | S754_infinity _ => Raise (OverflowError "cannot convert float infinity to integer")
  | S754_nan => Raise (ValueError "cannot convert float NaN to integer")
  end.

Definition ltb (x y : float) : bool := SFltb x y.
Definition leb (x y : float) : bool := SFleb x y.
Definition eqb (x y : float) : bool := SFeqb x y.

(** Truth value of a float: [x != 0.0] (a NaN is true). *)
Definition truthy (x : float) : bool := negb (eqb x zero).

(** [max(a, b)] on floats: [b] when [b > a], else [a]. *)
Definition max (a b : float) : float := if ltb a b then b else a.

Definition mul (x y : float) : float := SFmul prec emax x y.

(** [x / y] on floats. *)
Definition truediv (x y : float) : res float :=
  if eqb y zero then Raise (ZeroDivisionError "float division by zero")
  else Ok (SFdiv prec emax x y).

(** [a / b] on two [int]s: the correctly rounded quotient. *)
Definition int_truediv (a b : Z) : res float :=
  match b with
  | Z0 => Raise (ZeroDivisionError "division by zero")
  | _ =>
      match a with
      | Z0 => Ok (S754_zero (b <? 0))
      | _ =>
          match SFdiv prec emax
                  (S754_finite (a <? 0) (Z.to_pos (Z.abs a)) 0)
                  (S754_finite (b <? 0) (Z.to_pos (Z.abs b)) 0) with
          | S754_infinity _ =>
              Raise (OverflowError "integer division result too large for a float")
          | q => Ok q
          end
      end
  end.

(** [int * float] and [float * int]: the [int] is converted first. *)
Definition mul_int (x : float) (z : Z) : res float :=
  match float_of_int z with
  | Ok y => Ok (mul x y)
  | Raise e => Raise e
  end.

(** [str(z)] for an [int]. *)
Definition str_of_int (z : Z) : string := NilZero.string_of_int (Z.to_int z).

(** *** Characters *)

Definition code (c : ascii) : Z := Z.of_N (N_of_ascii c).

Definition is_digit (c : ascii) : bool := (48 <=? code c) && (code c <=? 57).

(** Whitespace for [str.strip()]: tab to carriage return, the separators
    0x1c to 0x1f and the space. *)
Definition is_space (c : ascii) : bool :=
  ((9 <=? code c) && (code c <=? 13))
  || ((28 <=? code c) && (code c <=? 32)).

(** Whitespace that [int(s)] and [float(s)] skip around a literal: tab to
    carriage return and the space, without the separators 0x1c to 0x1f. *)
Definition is_literal_space (c : ascii) : bool :=
  ((9 <=? code c) && (code c <=? 13)) || (code c =? 32).

Definition lower_ascii (c : ascii) : ascii :=
  if (65 <=? code c) && (code c <=? 90)
  then ascii_of_N (N_of_ascii c + 32) else c.

Fixpoint lower (s : string) : string :=
  match s with
  | EmptyString => EmptyString
  | String c t => String (lower_ascii c) (lower t)
  end.

Fixpoint lstrip (s : list ascii) : list ascii :=
  match s with
  | c :: t => if is_space c then lstrip t else s
  | [] => []
  end.

Definition strip_chars (s : list ascii) : list ascii :=
  rev (lstrip (rev (lstrip s))).

Definition strip (s : string) : string :=
  string_of_list_ascii (strip_chars (list_ascii_of_string s)).

(** The characters of a numeric literal, without the whitespace around
    it. *)
Fixpoint skip_literal_space (s : list ascii) : list ascii :=
  match s with
  | c :: t => if is_literal_space c then skip_literal_space t else s
  | [] => []
  end.

Definition literal_chars (s : list ascii) : list ascii :=
  rev (skip_literal_space (rev (skip_literal_space s))).

(** [s.endswith(c)] for a one-character suffix, and [s[:-1]]. *)
Fixpoint last_char (s : string) : option ascii :=
  match s with
  | EmptyString => None
  | String c EmptyString => Some c
  | String _ t => last_char t
  end.

Definition endswith_char (s : string) (c : ascii) : bool :=
  match last_char s with
  | Some d => Ascii.eqb d c
  | None => false
  end.

Fixpoint drop_last (s : string) : string :=
  match s with
  | EmptyString => EmptyString
  | String _ EmptyString => EmptyString
  | String c t => String c (drop_last t)
  end.

(** *** Reading numbers: [int(s)] and [float(s)] *)

Fixpoint digits_value (acc : Z) (ds : list ascii) : Z :=
  match ds with
  | [] => acc
  | d :: t => digits_value (10 * acc + (code d - 48)) t
  end.

(** The digits of a [digitpart] (digits separated by single underscores)
    that starts at [s], and what follows it. *)
Fixpoint digitpart_tail (s : list ascii) : list ascii * list ascii :=
  match s with
  | c :: t =>
      if is_digit c then
        let '(ds, r) := digitpart_tail t in (c :: ds, r)
      else if Ascii.eqb c "_" then
        match t with
        | d :: _ => if is_digit d then digitpart_tail t else ([], s)
        | [] => ([], s)
        end
      else ([], s)
  | [] => ([], [])
  end.

Definition digitpart (s : list ascii) : option (list ascii * list ascii) :=
  match s with
  | c :: _ => if is_digit c then Some (digitpart_tail s) else None
  | [] => None
  end.

Definition sign_of (s : list ascii) : bool * list ascii :=
  match s with
  | c :: t =>
      if Ascii.eqb c "-" then (true, t)
      else if Ascii.eqb c "+" then (false, t)
      else (false, s)
  | [] => (false, [])
  end.

(** [int(s)] in base 10. *)
Definition int_of_str (s : string) : res Z :=
  let '(neg, body) := sign_of (literal_chars (list_ascii_of_string s)) in
  match digitpart body with
  | Some (ds, []) =>
      let n := digits_value 0 ds in Ok (if neg then - n else n)
  | _ => Raise (ValueError "invalid literal for int() with base 10")
  end.

(** The double nearest to [(-1)^neg * n * 10^k]. *)
Definition float_of_decimal (neg : bool) (n k : Z) : float :=
  match n with
  | Zpos p =>
      if 0 <=? k then
        binary_normalize prec emax
          ((if neg then Zneg p else Zpos p) * 10 ^ k) 0 false
      else
        SFdiv prec emax (S754_finite neg p 0)
          (S754_finite false (Z.to_pos (10 ^ (- k))) 0)
  | _ => S754_zero neg
  end.

(** The optional exponent of a float literal: its value and the rest. *)
Definition exponent_of (s : list ascii) : option (Z * list ascii) :=
  match s with
  | c :: t =>
      if Ascii.eqb (lower_ascii c) "e" then
        let '(neg, body) := sign_of t in
        match digitpart body with
        | Some (ds, r) =>
            let n := digits_value 0 ds in Some (if neg then - n else n, r)
        | None => None
        end
      else Some (0, s)
  | [] => Some (0, [])
  end.

(** The digits before and after the point of a float literal, and the rest. *)
Definition number_of (s : list ascii)
  : option (list ascii * list ascii * list ascii) :=
  match digitpart s with
  | Some (ip, r) =>
      match r with
      | c :: r' =>
          if Ascii.eqb c "." then
            match digitpart r' with
            | Some (fp, r'') => Some (ip, fp, r'')
            | None => Some (ip, [], r')
            end
          else Some (ip, [], r)
      | [] => Some (ip, [], [])
      end
  | None =>
      match s with
      | c :: r' =>
          if Ascii.eqb c "." then
            match digitpart r' with
            | Some (fp, r'') => Some ([], fp, r'')
            | None => None
            end
          else None
      | [] => None
      end
  end.

(** [float(s)]. *)
Definition float_of_str (s : string) : res float :=
  let bad := Raise (ValueError "could not convert string to float") in
  let '(neg, body) := sign_of (literal_chars (list_ascii_of_string s)) in
  let word := lower (string_of_list_ascii body) in
  if String.eqb word "inf" || String.eqb word "infinity" then
    Ok (S754_infinity neg)
  else if String.eqb word "nan" then Ok S754_nan
  else
    match number_of body with
    | Some (ip, fp, r) =>
        match exponent_of r with
        | Some (ex, []) =>
            Ok (float_of_decimal neg (digits_value 0 (ip ++ fp))
                  (ex - Z.of_nat (List.length fp)))
        | _ => bad
        end
    | None => bad
    end.

(** *** Writing floats: [format(x, ".6f")] *)

Definition round_half_even_div (a b : Z) : Z :=
  let q := a / b in
  match 2 * (a mod b) ?= b with
  | Lt => q
  | Gt => q + 1
  | Eq => if Z.even q then q else q + 1
  end.

Definition format_6f (x : float) : string :=
  match x with
  | S754_nan => "nan"
  | S754_infinity s => if s then "-inf" else "inf"
  | S754_zero s => ((if s then "-" else EmptyString) ++ "0.000000")%string
  | S754_finite s m e =>
      let scaled :=
        if 0 <=? e then Zpos m * 2 ^ e * 1000000
        else round_half_even_div (Zpos m * 1000000) (2 ^ (- e)) in
      ((if s then "-" else EmptyString)
       ++ str_of_int (scaled / 1000000) ++ "."
       ++ substring 1 6 (str_of_int (1000000 + scaled mod 1000000)))%string
  end.

End Py.

(** The [res] monad, for the pure parts of the code that may raise. *)
Definition bindR {A B : Type} (c : res A) (k : A -> res B) : res B :=
  match c with
  | Ok a => k a
  | Raise e => Raise e
  end.

Notation "x <-? c1 ;; c2" := (bindR c1 (fun x => c2))
  (at level 61, c1 at next level, right associativity).

(** ** Data model *)

(** The dataclass [Attempt]. *)
Module Attempt.
Record t : Type := mk {
  fps : option Py.float;
  height : option Z;
  video_codec : string;
  crf : option Z;
  video_bitrate : option string;
  audio_bitrate : string;
  output_bytes : Z
}.
End Attempt.

(** The dataclass [ProbeResult] of [_internal/probe.py]. *)
Module ProbeResult.
Record t : Type := mk {
  duration_s : Py.float;
  format_name : string;
  bit_rate : Z;
  has_video : bool;
  has_audio : bool;
  video_codec : option string;
  video_width : option Z;
  video_height : option Z;
  video_fps : option Py.float;
  audio_codec : option string
}.
End ProbeResult.

(** The arguments of [adaptive_compress_video]. *)
Module Args.
Record t : Type := mk {
  input_path : string;
  output : string;
  target_bytes : option Z;
  target_mb : option Py.float;
  video_codec : string;
  crf : Z;
  preset : string;
  pix_fmt : string;
  audio_codec : string;
  audio_bitrate : string;
  min_fps : Py.float;
  min_height : Z;
  timeout_s : Z
}.
End Args.

(** The keyword arguments of [encode_with_codec_fallback] and, with the
    codec chosen, of [try_encode] and [_encode_once]. *)
Module Params.
Record t : Type := mk {
  fps_value : option Py.float;
  height_value : option Z;
  crf_value : option Z;
  v_bitrate : option string;
  a_bitrate : string
}.
End Params.

(** The dictionary returned by [adaptive_compress_video]. *)
Module Outcome.
Record t : Type := mk {
  input_path : string;
  output : string;
  local_path : option string;
  s3_url : option string;
  target_bytes : Z;
  actual_bytes : Z;
  strategy : string;
  success : bool;
  attempts : list Attempt.t
}.
End Outcome.

(** ** Argument validation (the head of [adaptive_compress_video]) *)

Definition is_None {A : Type} (o : option A) : bool :=
  match o with None => true | Some _ => false end.

(** Returns the byte budget. *)
Definition validate (a : Args.t) : res Z :=
  if Bool.eqb (is_None (Args.target_bytes a)) (is_None (Args.target_mb a)) then
    Raise (ValueError "Provide exactly one of target_bytes or target_mb")
  else
    target_bytes <-?
      match Args.target_mb a with
      | Some target_mb =>
          if Py.leb target_mb Py.zero then
            Raise (ValueError "target_mb must be positive")
          else
            Py.int_of_float
              (Py.mul (Py.mul target_mb (Py.lit 1024)) (Py.lit 1024))
      | None =>
          match Args.target_bytes a with
          | Some b => Ok b
          | None => Raise AssertionError
          end
      end ;;
    if target_bytes <=? 0 then
      Raise (ValueError "target_bytes must be positive")
    else if Py.leb (Args.min_fps a) Py.zero then
      Raise (ValueError "min_fps must be positive")
    else if Args.min_height a <=? 0 then
      Raise (ValueError "min_height must be positive")
    else if Args.timeout_s a <=? 0 then
      Raise (ValueError "timeout_s must be positive")
    else Ok target_bytes.

(** The exceptions the validation raises. *)
Definition configuration_errors : list exn :=
  [ValueError "Provide exactly one of target_bytes or target_mb";
   ValueError "target_mb must be positive";
   OverflowError "cannot convert float infinity to integer";
   ValueError "cannot convert float NaN to integer";
   ValueError "target_bytes must be positive";
   ValueError "min_fps must be positive";
   ValueError "min_height must be positive";
   ValueError "timeout_s must be positive"].

(** ** [_pick_codec] *)

Definition _pick_codec (auto_codec : string) : res (string * option string) :=
  let auto_codec :=
    Py.lower (Py.strip (if String.eqb auto_codec EmptyString then "auto" else auto_codec)) in
  if String.eqb auto_codec "auto" then Ok ("libx265", Some "libx264")
  else if String.eqb auto_codec "libx265" || String.eqb auto_codec "libx264"
  then Ok (auto_codec, None)
  else Raise (ValueError "video_codec must be one of: auto, libx265, libx264").

(** ** The ffmpeg command line of [_encode_once] *)

Definition str_truthy (s : string) : bool := negb (String.eqb s EmptyString).

Definition opt_str_truthy (o : option string) : bool :=
  match o with Some s => str_truthy s | None => false end.

Fixpoint join (sep : string) (l : list string) : string :=
  match l with
  | [] => EmptyString
  | [s] => s
  | s :: t => (s ++ sep ++ join sep t)%string
  end.

Definition filters_of (fps : option Py.float) (height : option Z) : list string :=
  (match fps with
   | Some f => [("fps=fps=" ++ Py.format_6f f)%string]
   | None => []
   end)
  ++
  (match height with
   | Some h => [("scale=-2:" ++ Py.str_of_int h)%string]
   | None => []
   end).

(** The rate-control arguments: bitrate-based when a bitrate is given,
    CRF-based otherwise. *)
Definition rate_control (video_bitrate : option string) (crf : option Z)
  : res (list string) :=
  match video_bitrate with
  | Some vb =>
      if str_truthy vb then Ok ["-b:v"; vb; "-maxrate"; vb; "-bufsize"; vb]
      else
        match crf with
        | None => Raise (ValueError "crf must be provided when video_bitrate is not set")
        | Some c => Ok ["-crf"; Py.str_of_int c]
        end
  | None =>
      match crf with
      | None => Raise (ValueError "crf must be provided when video_bitrate is not set")
      | Some c => Ok ["-crf"; Py.str_of_int c]
      end
  end.

Definition encode_cmd (ffmpeg_path input_path output_path chosen_vcodec : string)
    (fps : option Py.float) (height : option Z) (crf : option Z)
    (video_bitrate : option string)
    (preset pix_fmt audio_codec audio_bitrate : string) : res (list string) :=
  let filters := filters_of fps height in
  let cmd :=
    [ffmpeg_path; "-hide_banner"; "-loglevel"; "error"; "-i"; input_path;
     "-map"; "0:v:0"; "-map"; "0:a:0?"] in
  let cmd :=
    match filters with
    | [] => cmd
    | _ => cmd ++ ["-vf"; join "," filters]
    end in
  let cmd := cmd ++ ["-c:v"; chosen_vcodec] in
  rc <-? rate_control video_bitrate crf ;;
  let cmd := cmd ++ rc in
  let cmd := if str_truthy preset then cmd ++ ["-preset"; preset] else cmd in
  let cmd := if str_truthy pix_fmt then cmd ++ ["-pix_fmt"; pix_fmt] else cmd in
  let cmd := cmd ++ ["-c:a"; audio_codec; "-b:a"; audio_bitrate] in
  let cmd := cmd ++ ["-movflags"; "+faststart"; "-y"; output_path] in
  Ok cmd.

(** ** Candidate ladders *)

(** [f in cands] for a float and a list of optional floats. *)
Definition float_in (f : Py.float) (cands : list (option Py.float)) : bool :=
  existsb (fun c => match c with Some g => Py.eqb g f | None => false end) cands.

Definition int_in (h : Z) (cands : list (option Z)) : bool :=
  existsb (fun c => match c with Some g => g =? h | None => false end) cands.

(** [p.video_fps or 30.0] and [p.video_height or 0]. *)
Definition input_fps_of (p : ProbeResult.t) : Py.float :=
  match ProbeResult.video_fps p with
  | Some f => if Py.truthy f then f else Py.lit 30
  | None => Py.lit 30
  end.

Definition input_h_of (p : ProbeResult.t) : Z :=
  match ProbeResult.video_height p with
  | Some h => h
  | None => 0
  end.

Definition fps_candidates (input_fps min_fps : Py.float) : list (option Py.float) :=
  let fps_candidates :=
    fold_left
      (fun acc f =>
         if Py.ltb f input_fps && negb (float_in f acc)
         then acc ++ [Some f] else acc)
      [Py.lit 24; Py.lit 15; Py.lit 12; min_fps] [None] in
  if Py.ltb min_fps input_fps && negb (float_in min_fps fps_candidates)
  then fps_candidates ++ [Some min_fps] else fps_candidates.

Definition height_candidates (input_h min_height : Z) : list (option Z) :=
  let height_candidates :=
    fold_left
      (fun acc h =>
         if negb (input_h =? 0) && (h <? input_h) && (min_height <=? h)
            && negb (int_in h acc)
         then acc ++ [Some h] else acc)
      [2160; 1440; 1080; 720; min_height] [None] in
  if negb (input_h =? 0) && (min_height <? input_h)
     && negb (int_in min_height height_candidates)
  then height_candidates ++ [Some min_height] else height_candidates.

(** ** Bitrate derivation (stage 3) *)

Definition total_bps_of (target_bytes : Z) (duration : Py.float) : res Z :=
  n <-? Py.float_of_int (target_bytes * 8) ;;
  q <-? Py.truediv n (Py.max (Py.lit 0.1) duration) ;;
  Py.int_of_float q.

(** The audio bitrate in bits per second, parsed from strings like ["128k"]. *)
Definition a_bps_of (audio_bitrate : string) : Z :=
  let parsed :=
    if Py.endswith_char (Py.lower audio_bitrate) "k" then
      x <-? Py.float_of_str (Py.drop_last audio_bitrate) ;;
      y <-? Py.mul_int x 1000 ;;
      Py.int_of_float y
    else if Py.endswith_char (Py.lower audio_bitrate) "m" then
      x <-? Py.float_of_str (Py.drop_last audio_bitrate) ;;
      y <-? Py.mul_int x 1000000 ;;
      Py.int_of_float y
    else Py.int_of_str audio_bitrate in
  match parsed with
  | Ok a_bps => a_bps
  | Raise _ => 128000
  end.

Definition target_video_bps_of (target_bytes : Z) (duration : Py.float)
    (audio_bitrate : string) : res Z :=
  total_bps <-? total_bps_of target_bytes duration ;;
  let a_bps := a_bps_of audio_bitrate in
  t <-? Py.float_of_int total_bps ;;
  headroom <-? Py.int_of_float (Py.mul t (Py.lit 0.95)) ;;
  Ok (Z.max 200000 (headroom - a_bps)).

Definition v_bitrate_of (target_video_bps : Z) : res string :=
  q <-? Py.int_truediv target_video_bps 1000 ;;
  n <-? Py.int_of_float q ;;
  Ok (Py.str_of_int n ++ "k")%string.

(** ** The outside world *)

(** How a [subprocess.run(..., check=True, timeout=...)] ends: the process
    exits with status zero, runs into the timeout, exits with another
    status, or [subprocess.run] raises an exception of its own: an [OSError]
    when the program cannot be started, a [ValueError] for a null byte in an
    argument or for output that does not decode as text. *)
Inductive proc : Type :=
| Completed
| TimeoutExpired
| CalledProcessError (stderr : string)
| ProcRaised (e : exn).

(** The calls made to the outside world, with their results. *)
Inductive event : Type :=
| EvVerifyTools (r : res unit)
| EvPreparedInput (input_path : string) (r : res string)
| EvProbe (path : string) (r : res ProbeResult.t)
| EvEncode (chosen_vcodec : string) (params : Params.t)
    (cmd : list string) (timeout_s : Z) (r : proc)
| EvGetsize (path : string) (r : res Z)
| EvOutput (output : string) (r : res unit).

Definition is_encode (ev : event) : bool :=
  match ev with EvEncode _ _ _ _ _ => true | _ => false end.

Definition is_probe (ev : event) : bool :=
  match ev with EvProbe _ _ => true | _ => false end.

Section Search.

Variable World : Type.

(** [ffmpeg.verify_ffmpeg_tools], entering [inputs.PreparedInput],
    [probe.probe_video], [subprocess.run] on an ffmpeg command line,
    [os.path.getsize], and moving the scratch file to the destination
    ([outputs.PreparedOutput] around [os.replace]). *)
Variable verify_ffmpeg_tools : World -> res unit * World.
Variable prepared_input : string -> World -> res string * World.
Variable probe_video : string -> World -> res ProbeResult.t * World.
Variable subprocess_run : list string -> Z -> World -> proc * World.
Variable getsize : string -> World -> option Z * World.
Variable replace_output : string -> string -> World -> res unit * World.

(** [ffmpeg.find_ffmpeg()], the scratch file in the temporary directory,
    and [inputs.is_s3_url]. *)
Variable ffmpeg_path : string.
Variable temp_out : string.
Variable is_s3_url : string -> bool.

(** The state threaded through the search: the world and the trace. *)
Definition state : Type := World * list event.

Definition M (A : Type) : Type := state -> res A * state.

Definition ret {A : Type} (a : A) : M A := fun st => (Ok a, st).

Definition raise {A : Type} (e : exn) : M A := fun st => (Raise e, st).

Definition bind {A B : Type} (c : M A) (k : A -> M B) : M B :=
  fun st =>
    match c st with
    | (Ok a, st') => k a st'
    | (Raise e, st') => (Raise e, st')
    end.

Definition lift {A : Type} (r : res A) : M A := fun st => (r, st).

(** [try: c except ValueError: h] *)
Definition except_ValueError {A : Type} (c : M A) (h : exn -> M A) : M A :=
  fun st =>
    match c st with
    | (Raise (ValueError msg), st') => h (ValueError msg) st'
    | r => r
    end.

Notation "x <- c1 ;; c2" := (bind c1 (fun x => c2))
  (at level 61, c1 at next level, right associativity).

Definition log (ev : event) : M unit :=
  fun st => (Ok tt, (fst st, snd st ++ [ev])).

(** One call to the world, recorded. *)
Definition call {A : Type} (f : World -> A * World) (ev : A -> event) : M A :=
  fun st =>
    let '(a, w) := f (fst st) in (Ok a, (w, snd st ++ [ev a])).

(** *** [_run_ffmpeg] and [_encode_once]

    [_run_ffmpeg] turns a timeout and a non-zero exit status into a
    [ValueError]; whatever else [subprocess.run] raises passes through. *)

Definition _run_ffmpeg (chosen_vcodec : string) (params : Params.t)
    (cmd : list string) (timeout_s : Z) : M unit :=
  r <- call (subprocess_run cmd timeout_s)
         (EvEncode chosen_vcodec params cmd timeout_s) ;;
  match r with
  | Completed => ret tt
  | TimeoutExpired => raise (ValueError "ffmpeg execution timeout")
  | CalledProcessError stderr =>
      raise (ValueError ("ffmpeg execution failed: " ++ stderr)%string)
  | ProcRaised e => raise e
  end.

Section Run.

Variable a : Args.t.
Variable target_bytes : Z.
Variable preferred_codec : string.
Variable fallback_codec : option string.
Variable local_in : string.

(** The command line [_encode_once] builds from the arguments that
    [try_encode] passes to it. *)
Definition cmd_for (chosen_vcodec : string) (params : Params.t)
  : res (list string) :=
  encode_cmd ffmpeg_path local_in temp_out chosen_vcodec
    (Params.fps_value params) (Params.height_value params)
    (Params.crf_value params) (Params.v_bitrate params)
    (Args.preset a) (Args.pix_fmt a) (Args.audio_codec a)
    (Params.a_bitrate params).

Definition _encode_once (chosen_vcodec : string) (params : Params.t) : M unit :=
  cmd <- lift (cmd_for chosen_vcodec params) ;;
  _run_ffmpeg chosen_vcodec params cmd (Args.timeout_s a).

Definition try_encode (chosen_codec : string) (params : Params.t) : M Z :=
  _ <- _encode_once chosen_codec params ;;
  r <- call (getsize temp_out) (fun r =>
         EvGetsize temp_out
           match r with
           | Some n => Ok n
           | None => Raise (OSError "getsize")
           end) ;;
  match r with
  | Some n => ret n
  | None => raise (OSError "getsize")
  end.

Definition encode_with_codec_fallback (params : Params.t) : M (string * Z) :=
  except_ValueError
    (size <- try_encode preferred_codec params ;;
     ret (preferred_codec, size))
    (fun e =>
       match fallback_codec with
       | Some fb =>
           if str_truthy fb then
             size <- try_encode fb params ;;
             ret (fb, size)
           else raise e
       | None => raise e
       end).

(** Moving the scratch file to the destination. *)
Definition write_final_output : M unit :=
  r <- call (replace_output (Args.output a) temp_out)
         (EvOutput (Args.output a)) ;;
  lift r.

Definition outcome (actual_bytes : Z) (strategy : string) (success : bool)
    (attempts : list Attempt.t) : Outcome.t :=
  let s3_url :=
    if is_s3_url (Args.output a) then Some (Args.output a) else None in
  let local_path :=
    match s3_url with Some _ => None | None => Some (Args.output a) end in
  {| Outcome.input_path := Args.input_path a;
     Outcome.output := Args.output a;
     Outcome.local_path := local_path;
     Outcome.s3_url := s3_url;
     Outcome.target_bytes := target_bytes;
     Outcome.actual_bytes := actual_bytes;
     Outcome.strategy := strategy;
     Outcome.success := success;
     Outcome.attempts := attempts |}.

(** Stage 1: the loop over [fps_candidates]. Either the function
    returns from inside the loop, or the loop ends with the attempts so
    far and [last_fps]. *)
Fixpoint stage1 (cands : list (option Py.float)) (attempts : list Attempt.t)
    (last_fps : option Py.float)
  : M (Outcome.t + list Attempt.t * option Py.float) :=
  match cands with
  | [] => ret (inr (attempts, last_fps))
  | f :: rest =>
      cs <- encode_with_codec_fallback
              (Params.mk f None (Some (Args.crf a)) None (Args.audio_bitrate a)) ;;
      let '(codec_used, size) := cs in
      let attempts :=
        attempts ++
        [Attempt.mk f None codec_used (Some (Args.crf a)) None
           (Args.audio_bitrate a) size] in
      let last_fps := f in
      if size <=? target_bytes then
        _ <- write_final_output ;;
        ret (inl (outcome size "fps" true attempts))
      else stage1 rest attempts last_fps
  end.

(** Stage 2: the loop over [height_candidates[1:]]. *)
Fixpoint stage2 (last_fps : option Py.float) (cands : list (option Z))
    (attempts : list Attempt.t) (last_height : option Z)
  : M (Outcome.t + list Attempt.t * option Z) :=
  match cands with
  | [] => ret (inr (attempts, last_height))
  | h :: rest =>
      cs <- encode_with_codec_fallback
              (Params.mk last_fps h (Some (Args.crf a)) None (Args.audio_bitrate a)) ;;
      let '(codec_used, size) := cs in
      let attempts :=
        attempts ++
        [Attempt.mk last_fps h codec_used (Some (Args.crf a)) None
           (Args.audio_bitrate a) size] in
      let last_height := h in
      if size <=? target_bytes then
        _ <- write_final_output ;;
        ret (inl (outcome size "fps+scale" true attempts))
      else stage2 last_fps rest attempts last_height
  end.

(** Stage 3: one bitrate-controlled attempt, always written out. *)
Definition stage3_fps (last_fps : option Py.float) : option Py.float :=
  match last_fps with
  | Some f => Some f
  | None => Some (Args.min_fps a)
  end.

Definition stage3_height (input_h : Z) (last_height : option Z) : option Z :=
  match last_height with
  | Some h => Some h
  | None =>
      if negb (input_h =? 0) && (Args.min_height a <? input_h)
      then Some (Args.min_height a) else None
  end.

Definition stage3 (p : ProbeResult.t) (attempts : list Attempt.t)
    (last_fps : option Py.float) (last_height : option Z) : M Outcome.t :=
  let duration := ProbeResult.duration_s p in
  target_video_bps <-
    lift (target_video_bps_of target_bytes duration (Args.audio_bitrate a)) ;;
  v_bitrate <- lift (v_bitrate_of target_video_bps) ;;
  cs <- encode_with_codec_fallback
          (Params.mk (stage3_fps last_fps)
             (stage3_height (input_h_of p) last_height)
             None (Some v_bitrate) (Args.audio_bitrate a)) ;;
  let '(codec_used, size) := cs in
  let attempts :=
    attempts ++
    [Attempt.mk (stage3_fps last_fps) last_height codec_used None
       (Some v_bitrate) (Args.audio_bitrate a) size] in
  _ <- write_final_output ;;
  ret (outcome size "fps+scale+bitrate" (size <=? target_bytes) attempts).

(** The three stages, once the input is probed. *)
Definition search (p : ProbeResult.t) : M Outcome.t :=
  let input_fps := input_fps_of p in
  let input_h := input_h_of p in
  let fps_candidates := fps_candidates input_fps (Args.min_fps a) in
  let height_candidates := height_candidates input_h (Args.min_height a) in
  r1 <- stage1 fps_candidates [] None ;;
  match r1 with
  | inl out => ret out
  | inr (attempts, last_fps) =>
      r2 <- stage2 last_fps (tl height_candidates) attempts None ;;
      match r2 with
      | inl out => ret out
      | inr (attempts, last_height) =>
          stage3 p attempts last_fps last_height
      end
  end.

(** *** The calls of a run, as relations on traces

    [try_calls c ps evs r]: one [try_encode] with codec [c] makes the
    calls [evs] and ends in [r]. *)
Definition proc_error (r : proc) : option exn :=
  match r with
  | Completed => None
  | TimeoutExpired => Some (ValueError "ffmpeg execution timeout")
  | CalledProcessError stderr =>
      Some (ValueError ("ffmpeg execution failed: " ++ stderr)%string)
  | ProcRaised e => Some e
  end.

Inductive try_calls (c : string) (ps : Params.t)
  : list event -> res Z -> Prop :=
| try_no_command e :
    cmd_for c ps = Raise e ->
    try_calls c ps [] (Raise e)
| try_failed cmd r e :
    cmd_for c ps = Ok cmd ->
    proc_error r = Some e ->
    try_calls c ps [EvEncode c ps cmd (Args.timeout_s a) r] (Raise e)
| try_no_size cmd :
    cmd_for c ps = Ok cmd ->
    try_calls c ps
      [EvEncode c ps cmd (Args.timeout_s a) Completed;
       EvGetsize temp_out (Raise (OSError "getsize"))]
      (Raise (OSError "getsize"))
| try_sized cmd n :
    cmd_for c ps = Ok cmd ->
    try_calls c ps
      [EvEncode c ps cmd (Args.timeout_s a) Completed;
       EvGetsize temp_out (Ok n)]
      (Ok n).

(** Whether [except ValueError] retries: a fallback codec is there. *)
Definition usable_fallback : option string :=
  match fallback_codec with
  | Some fb => if str_truthy fb then Some fb else None
  | None => None
  end.

(** [attempt_calls ps evs r]: one [encode_with_codec_fallback] on [ps]
    makes the calls [evs] and ends in [r]. *)
Inductive attempt_calls (ps : Params.t)
  : list event -> res (string * Z) -> Prop :=
| attempt_preferred evs n :
    try_calls preferred_codec ps evs (Ok n) ->
    attempt_calls ps evs (Ok (preferred_codec, n))
| attempt_fatal evs e :
    try_calls preferred_codec ps evs (Raise e) ->
    is_ValueError e = false \/ usable_fallback = None ->
    attempt_calls ps evs (Raise e)
| attempt_retry evs1 msg fb evs2 r :
    try_calls preferred_codec ps evs1 (Raise (ValueError msg)) ->
    usable_fallback = Some fb ->
    try_calls fb ps evs2 r ->
    attempt_calls ps (evs1 ++ evs2)
      (match r with Ok n => Ok (fb, n) | Raise e => Raise e end).

(** The [Attempt] appended for parameters [ps]. *)
Definition record (ps : Params.t) (codec : string) (size : Z) : Attempt.t :=
  Attempt.mk (Params.fps_value ps) (Params.height_value ps) codec
    (Params.crf_value ps) (Params.v_bitrate ps) (Params.a_bitrate ps) size.

Definition crf_params (f : option Py.float) (h : option Z) : Params.t :=
  Params.mk f h (Some (Args.crf a)) None (Args.audio_bitrate a).

Definition bitrate_params (f : option Py.float) (h : option Z)
    (v_bitrate : string) : Params.t :=
  Params.mk f h None (Some v_bitrate) (Args.audio_bitrate a).

(** [loop_calls mk strategy cands attempts evs r]: a stage loop over
    [cands], entered with the log [attempts], makes the calls [evs];
    [r] is the outcome returned from inside the loop, or the log when
    the loop runs to its end, or the exception raised. *)
Inductive loop_calls {X : Type} (mk : X -> Params.t) (strategy : string)
  : list X -> list Attempt.t -> list event
    -> res (Outcome.t + list Attempt.t) -> Prop :=
| loop_end attempts :
    loop_calls mk strategy [] attempts [] (Ok (inr attempts))
| loop_next x rest attempts evs c n evs' r :
    attempt_calls (mk x) evs (Ok (c, n)) ->
    (n <=? target_bytes) = false ->
    loop_calls mk strategy rest (attempts ++ [record (mk x) c n]) evs' r ->
    loop_calls mk strategy (x :: rest) attempts (evs ++ evs') r
| loop_return x rest attempts evs c n :
    attempt_calls (mk x) evs (Ok (c, n)) ->
    (n <=? target_bytes) = true ->
    loop_calls mk strategy (x :: rest) attempts
      (evs ++ [EvOutput (Args.output a) (Ok tt)])
      (Ok (inl (outcome n strategy true (attempts ++ [record (mk x) c n]))))
| loop_unwritten x rest attempts evs c n e :
    attempt_calls (mk x) evs (Ok (c, n)) ->
    (n <=? target_bytes) = true ->
    loop_calls mk strategy (x :: rest) attempts
      (evs ++ [EvOutput (Args.output a) (Raise e)]) (Raise e)
| loop_fatal x rest attempts evs e :
    attempt_calls (mk x) evs (Raise e) ->
    loop_calls mk strategy (x :: rest) attempts evs (Raise e).

(** The bitrate string of stage 3. *)
Definition stage3_v_bitrate (p : ProbeResult.t) : res string :=
  target_video_bps <-?
    target_video_bps_of target_bytes (ProbeResult.duration_s p)
      (Args.audio_bitrate a) ;;
  v_bitrate_of target_video_bps.

(** [stage3_calls p attempts last_fps last_height evs r]: stage 3. *)
Inductive stage3_calls (p : ProbeResult.t) (attempts : list Attempt.t)
    (last_fps : option Py.float) (last_height : option Z)
  : list event -> res Outcome.t -> Prop :=
| stage3_no_bitrate e :
    stage3_v_bitrate p = Raise e ->
    stage3_calls p attempts last_fps last_height [] (Raise e)
| stage3_fatal v evs e :
    stage3_v_bitrate p = Ok v ->
    attempt_calls
      (bitrate_params (stage3_fps last_fps)
         (stage3_height (input_h_of p) last_height) v) evs (Raise e) ->
    stage3_calls p attempts last_fps last_height evs (Raise e)
| stage3_unwritten v evs c n e :
    stage3_v_bitrate p = Ok v ->
    attempt_calls
      (bitrate_params (stage3_fps last_fps)
         (stage3_height (input_h_of p) last_height) v) evs (Ok (c, n)) ->
    stage3_calls p attempts last_fps last_height
      (evs ++ [EvOutput (Args.output a) (Raise e)]) (Raise e)
| stage3_return v evs c n :
    stage3_v_bitrate p = Ok v ->
    attempt_calls
      (bitrate_params (stage3_fps last_fps)
         (stage3_height (input_h_of p) last_height) v) evs (Ok (c, n)) ->
    stage3_calls p attempts last_fps last_height
      (evs ++ [EvOutput (Args.output a) (Ok tt)])
      (Ok (outcome n "fps+scale+bitrate" (n <=? target_bytes)
             (attempts ++
              [record (bitrate_params (stage3_fps last_fps) last_height v)
                 c n]))).

(** [search_calls p evs r]: the three stages on a probed input. *)
Definition stage1_params (f : option Py.float) : Params.t := crf_params f None.

Definition stage2_params (last_fps : option Py.float) (h : option Z)
  : Params.t := crf_params last_fps h.

Inductive search_calls (p : ProbeResult.t) : list event -> res Outcome.t -> Prop :=
| search_stage1 evs out :
    loop_calls stage1_params "fps"
      (fps_candidates (input_fps_of p) (Args.min_fps a)) [] evs
      (Ok (inl out)) ->
    search_calls p evs (Ok out)
| search_stage1_raise evs e :
    loop_calls stage1_params "fps"
      (fps_candidates (input_fps_of p) (Args.min_fps a)) [] evs
      (Raise e) ->
    search_calls p evs (Raise e)
| search_stage2 evs1 attempts evs2 out last_fps :
    loop_calls stage1_params "fps"
      (fps_candidates (input_fps_of p) (Args.min_fps a)) [] evs1
      (Ok (inr attempts)) ->
    last_fps = last (fps_candidates (input_fps_of p) (Args.min_fps a)) None ->
    loop_calls (stage2_params last_fps) "fps+scale"
      (tl (height_candidates (input_h_of p) (Args.min_height a)))
      attempts evs2 (Ok (inl out)) ->
    search_calls p (evs1 ++ evs2) (Ok out)
| search_stage2_raise evs1 attempts evs2 e last_fps :
    loop_calls stage1_params "fps"
      (fps_candidates (input_fps_of p) (Args.min_fps a)) [] evs1
      (Ok (inr attempts)) ->
    last_fps = last (fps_candidates (input_fps_of p) (Args.min_fps a)) None ->
    loop_calls (stage2_params last_fps) "fps+scale"
      (tl (height_candidates (input_h_of p) (Args.min_height a)))
      attempts evs2 (Raise e) ->
    search_calls p (evs1 ++ evs2) (Raise e)
| search_stage3 evs1 attempts1 evs2 attempts2 evs3 r last_fps last_height :
    loop_calls stage1_params "fps"
      (fps_candidates (input_fps_of p) (Args.min_fps a)) [] evs1
      (Ok (inr attempts1)) ->
    last_fps = last (fps_candidates (input_fps_of p) (Args.min_fps a)) None ->
    loop_calls (stage2_params last_fps) "fps+scale"
      (tl (height_candidates (input_h_of p) (Args.min_height a)))
      attempts1 evs2 (Ok (inr attempts2)) ->
    last_height =
      last (tl (height_candidates (input_h_of p) (Args.min_height a))) None ->
    stage3_calls p attempts2 last_fps last_height evs3 r ->
    search_calls p (evs1 ++ evs2 ++ evs3) r.

End Run.

(** *** [adaptive_compress_video] *)

Definition adaptive_compress_video (a : Args.t) : M Outcome.t :=
  target_bytes <- lift (validate a) ;;
  v <- call verify_ffmpeg_tools EvVerifyTools ;;
  _ <- lift v ;;
  codecs <- lift (_pick_codec (Args.video_codec a)) ;;
  let '(preferred_codec, fallback_codec) := codecs in
  li <- call (prepared_input (Args.input_path a))
          (EvPreparedInput (Args.input_path a)) ;;
  local_in <- lift li ;;
  pr <- call (probe_video local_in) (EvProbe local_in) ;;
  p <- lift pr ;;
  if negb (ProbeResult.has_video p) then
    raise (ValueError "Input has no video stream")
  else if negb (Py.truthy (ProbeResult.duration_s p))
          || Py.leb (ProbeResult.duration_s p) Py.zero then
    raise (ValueError "Failed to determine input duration")
  else
    search a target_bytes preferred_codec fallback_codec local_in p.

(** A run from a world with an empty trace. *)
Definition run (a : Args.t) (w : World) : res Outcome.t * state :=
  adaptive_compress_video a (w, []).

(** [run_calls a evs r]: a whole run makes the calls [evs] and ends in [r]. *)
Inductive run_calls (a : Args.t) : list event -> res Outcome.t -> Prop :=
| run_invalid e :
  validate a = Raise e ->
  run_calls a [] (Raise e)
| run_no_tools target_bytes e :
  validate a = Ok target_bytes ->
  run_calls a [EvVerifyTools (Raise e)] (Raise e)
| run_bad_codec target_bytes e :
  validate a = Ok target_bytes ->
  _pick_codec (Args.video_codec a) = Raise e ->
  run_calls a [EvVerifyTools (Ok tt)] (Raise e)
| run_no_input target_bytes codecs e :
  validate a = Ok target_bytes ->
  _pick_codec (Args.video_codec a) = Ok codecs ->
  run_calls a
    [EvVerifyTools (Ok tt); EvPreparedInput (Args.input_path a) (Raise e)]
    (Raise e)
| run_no_probe target_bytes codecs local_in e :
  validate a = Ok target_bytes ->
  _pick_codec (Args.video_codec a) = Ok codecs ->
  run_calls a
    [EvVerifyTools (Ok tt); EvPreparedInput (Args.input_path a) (Ok local_in);
     EvProbe local_in (Raise e)]
    (Raise e)
| run_no_video target_bytes codecs local_in p :
  validate a = Ok target_bytes ->
  _pick_codec (Args.video_codec a) = Ok codecs ->
  ProbeResult.has_video p = false ->
  run_calls a
    [EvVerifyTools (Ok tt); EvPreparedInput (Args.input_path a) (Ok local_in);
     EvProbe local_in (Ok p)]
    (Raise (ValueError "Input has no video stream"))
| run_no_duration target_bytes codecs local_in p :
  validate a = Ok target_bytes ->
  _pick_codec (Args.video_codec a) = Ok codecs ->
  ProbeResult.has_video p = true ->
  negb (Py.truthy (ProbeResult.duration_s p))
  || Py.leb (ProbeResult.duration_s p) Py.zero = true ->
  run_calls a
    [EvVerifyTools (Ok tt); EvPreparedInput (Args.input_path a) (Ok local_in);
     EvProbe local_in (Ok p)]
    (Raise (ValueError "Failed to determine input duration"))
| run_search target_bytes preferred_codec fallback_codec local_in p evs r :
  validate a = Ok target_bytes ->
  _pick_codec (Args.video_codec a) = Ok (preferred_codec, fallback_codec) ->
  ProbeResult.has_video p = true ->
  negb (Py.truthy (ProbeResult.duration_s p))
  || Py.leb (ProbeResult.duration_s p) Py.zero = false ->
  search_calls a target_bytes preferred_codec fallback_codec local_in p evs r ->
  run_calls a
    ([EvVerifyTools (Ok tt); EvPreparedInput (Args.input_path a) (Ok local_in);
      EvProbe local_in (Ok p)] ++ evs)
    r.

End Search.

(** ** What the log says about the calls

    The parameters an [Attempt] records, and the calls that stand for one
    logged attempt: a completed encode with the preferred codec, or a failed
    encode with the preferred codec followed by a completed one with the
    fallback codec, then the size read from the scratch file. [cmd_of] gives
    the command line of a request. *)
Definition params_of (att : Attempt.t) : Params.t :=
  Params.mk (Attempt.fps att) (Attempt.height att) (Attempt.crf att)
    (Attempt.video_bitrate att) (Attempt.audio_bitrate att).

Inductive attempt_group (cmd_of : string -> Params.t -> res (list string))
    (temp_out : string) (timeout_s : Z)
    (preferred_codec : string) (fallback_codec : option string)
    (att : Attempt.t) : list event -> Prop :=
| group_preferred cmd :
    Attempt.video_codec att = preferred_codec ->
    cmd_of preferred_codec (params_of att) = Ok cmd ->
    attempt_group cmd_of temp_out timeout_s preferred_codec fallback_codec att
      [EvEncode preferred_codec (params_of att) cmd timeout_s Completed;
       EvGetsize temp_out (Ok (Attempt.output_bytes att))]
| group_fallback cmd1 r1 msg cmd2 :
    usable_fallback fallback_codec = Some (Attempt.video_codec att) ->
    proc_error r1 = Some (ValueError msg) ->
    cmd_of preferred_codec (params_of att) = Ok cmd1 ->
    cmd_of (Attempt.video_codec att) (params_of att) = Ok cmd2 ->
    attempt_group cmd_of temp_out timeout_s preferred_codec fallback_codec att
      [EvEncode preferred_codec (params_of att) cmd1 timeout_s r1;
       EvEncode (Attempt.video_codec att) (params_of att) cmd2 timeout_s Completed;
       EvGetsize temp_out (Ok (Attempt.output_bytes att))].

(** [logged ... attempts evs]: [evs] is, in the order of the log, one
    group of calls for each logged attempt. *)
Inductive logged (cmd_of : string -> Params.t -> res (list string))
    (temp_out : string) (timeout_s : Z)
    (preferred_codec : string) (fallback_codec : option string)
  : list Attempt.t -> list event -> Prop :=
| logged_nil :
    logged cmd_of temp_out timeout_s preferred_codec fallback_codec [] []
| logged_cons att g attempts evs :
    attempt_group cmd_of temp_out timeout_s preferred_codec fallback_codec att g ->
    logged cmd_of temp_out timeout_s preferred_codec fallback_codec attempts evs ->
    logged cmd_of temp_out timeout_s preferred_codec fallback_codec
      (att :: attempts) (g ++ evs).

(** The result of a stage loop without the variable it tracks. *)
Definition forget_last {X : Type} (r : res (Outcome.t + list Attempt.t * X))
  : res (Outcome.t + list Attempt.t) :=
  match r with
  | Ok (inl out) => Ok (inl out)
  | Ok (inr (attempts, _)) => Ok (inr attempts)
  | Raise e => Raise e
  end.

(** An attempt whose output exceeds the budget. *)
Definition over_budget (target_bytes : Z) (att : Attempt.t) : Prop :=
  (Attempt.output_bytes att <=? target_bytes) = false.

(** What becomes of the encode calls that fail, along a trace: when the
    error is a [ValueError], the call used the preferred codec and there is a
    fallback codec, the next call is the same request with the fallback
    codec; otherwise the failed call is the last call of the run, which
    raises its error. [raised] is the exception the run ends with, if any. *)
Definition retry_codec (preferred_codec : string)
    (fallback_codec : option string) (c : string) (e : exn) : option string :=
  if is_ValueError e && String.eqb c preferred_codec
  then usable_fallback fallback_codec else None.

Fixpoint failures_handled (preferred_codec : string)
    (fallback_codec : option string) (raised : option exn) (tr : list event)
  : Prop :=
  match tr with
  | [] => True
  | EvEncode c ps cmd t pr :: post =>
      match proc_error pr with
      | None => True
      | Some e =>
          match retry_codec preferred_codec fallback_codec c e with
          | Some fb =>
              exists cmd' pr' post', post = EvEncode fb ps cmd' t pr' :: post'
          | None => post = [] /\ raised = Some e
          end
      end
      /\ failures_handled preferred_codec fallback_codec raised post
  | _ :: post => failures_handled preferred_codec fallback_codec raised post
  end.

Definition raised_of {A : Type} (r : res A) : option exn :=
  match r with
  | Ok _ => None
  | Raise e => Some e
  end.

(** The three ways the search returns, by the log it returns: from stage 1,
    from stage 2, or after stage 3. *)
Inductive returned (is_s3_url : string -> bool) (a : Args.t) (target_bytes : Z)
    (p : ProbeResult.t) : Outcome.t -> Prop :=
| returned_fps done x rest new att :
    fps_candidates (input_fps_of p) (Args.min_fps a) = done ++ x :: rest ->
    Forall2 (fun y att' => params_of att' = stage1_params a y) done new ->
    Forall (over_budget target_bytes) new ->
    params_of att = stage1_params a x ->
    (Attempt.output_bytes att <=? target_bytes) = true ->
    returned is_s3_url a target_bytes p
      (outcome is_s3_url a target_bytes (Attempt.output_bytes att) "fps" true
         (new ++ [att]))
| returned_scale attempts1 last_fps done h rest new att :
    Forall2 (fun y att' => params_of att' = stage1_params a y)
      (fps_candidates (input_fps_of p) (Args.min_fps a)) attempts1 ->
    Forall (over_budget target_bytes) attempts1 ->
    last_fps = last (fps_candidates (input_fps_of p) (Args.min_fps a)) None ->
    tl (height_candidates (input_h_of p) (Args.min_height a))
    = done ++ h :: rest ->
    Forall2 (fun y att' => params_of att' = stage2_params a last_fps y) done new ->
    Forall (over_budget target_bytes) new ->
    params_of att = stage2_params a last_fps h ->
    (Attempt.output_bytes att <=? target_bytes) = true ->
    returned is_s3_url a target_bytes p
      (outcome is_s3_url a target_bytes (Attempt.output_bytes att) "fps+scale"
         true (attempts1 ++ new ++ [att]))
| returned_bitrate attempts1 last_fps attempts2 last_height v att :
    Forall2 (fun y att' => params_of att' = stage1_params a y)
      (fps_candidates (input_fps_of p) (Args.min_fps a)) attempts1 ->
    Forall (over_budget target_bytes) attempts1 ->
    last_fps = last (fps_candidates (input_fps_of p) (Args.min_fps a)) None ->
    Forall2 (fun y att' => params_of att' = stage2_params a last_fps y)
      (tl (height_candidates (input_h_of p) (Args.min_height a))) attempts2 ->
    Forall (over_budget target_bytes) attempts2 ->
    last_height
    = last (tl (height_candidates (input_h_of p) (Args.min_height a))) None ->
    stage3_v_bitrate a target_bytes p = Ok v ->
    params_of att = bitrate_params a (stage3_fps a last_fps) last_height v ->
    returned is_s3_url a target_bytes p
      (outcome is_s3_url a target_bytes (Attempt.output_bytes att)
         "fps+scale+bitrate" (Attempt.output_bytes att <=? target_bytes)
         (attempts1 ++ attempts2 ++ [att])).

(** ** The ladders and the bitrate as the specification words them *)

(** One step of a ladder loop: [x] is appended when it is to be kept and is
    not yet among the candidates. *)
Definition present {A : Type} (eqb : A -> A -> bool) (x : A)
    (cands : list (option A)) : bool :=
  existsb (fun c => match c with Some g => eqb g x | None => false end) cands.

Definition ladder_step {A : Type} (keep : A -> bool) (eqb : A -> A -> bool)
    (acc : list (option A)) (x : A) : list (option A) :=
  if keep x && negb (present eqb x acc) then acc ++ [Some x] else acc.

(** The elements of [l] in order, each kept at its first occurrence. *)
Fixpoint first_occurrences {A : Type} (eqb : A -> A -> bool) (seen l : list A)
  : list A :=
  match l with
  | [] => []
  | x :: t =>
      if existsb (fun y => eqb y x) seen then first_occurrences eqb seen t
      else x :: first_occurrences eqb (seen ++ [x]) t
  end.

(** Keep, then each of 24, 15, 12, Fmin that is below F and not yet there. *)
Definition spec_fps_candidates (F Fmin : Py.float) : list (option Py.float) :=
  None ::
  map Some
    (first_occurrences Py.eqb []
       (filter (fun f => Py.ltb f F) [Py.lit 24; Py.lit 15; Py.lit 12; Fmin])).

(** Keep, then each of 2160, 1440, 1080, 720, Hmin that is below H, at least
    Hmin and not yet there; keep alone when H is unknown. *)
Definition spec_height_candidates (H : option Z) (Hmin : Z) : list (option Z) :=
  match H with
  | None => [None]
  | Some H =>
      if H =? 0 then [None]
      else
        None ::
        map Some
          (first_occurrences Z.eqb []
             (filter (fun h => (h <? H) && (Hmin <=? h))
                [2160; 1440; 1080; 720; Hmin]))
  end.

(** The exact value of a finite float. *)
Definition Q_of_float (x : Py.float) : Q :=
  match x with
  | S754_finite s m e =>
      (inject_Z (if s then Zneg m else Zpos m) * Qpower 2 e)%Q
  | _ => 0%Q
  end.

(** [max(200000, floor(B*8/max(0.1,D)*0.95) - a)], in exact arithmetic. *)
Definition claimed_video_bps (B : Z) (D : Py.float) (a_bps : Z) : Z :=
  Z.max 200000
    (Qfloor (inject_Z (B * 8) / Qmax (1 # 10) (Q_of_float D) * (95 # 100))%Q
     - a_bps).

(** The same formula in double arithmetic, rounded down once. *)
Definition claimed_video_bps_double (B : Z) (D : Py.float) (a_bps : Z) : res Z :=
  n <-? Py.float_of_int (B * 8) ;;
  q <-? Py.truediv n (Py.max (Py.lit 0.1) D) ;;
  headroom <-? Py.int_of_float (Py.mul q (Py.lit 0.95)) ;;
  Ok (Z.max 200000 (headroom - a_bps)).

(** [floor(v_bps/1000)] with a [k] suffix. *)
Definition claimed_v_bitrate (target_video_bps : Z) : string :=
  (Py.str_of_int (target_video_bps / 1000) ++ "k")%string.

(** The last step of [binary_round_aux]: the float of a mantissa that has
    been shifted into place. *)
Definition round_finish (sx : bool) (p : shr_record * Z) : spec_float :=
  let '(mrs, e) := p in
  match shr_m mrs with
  | Z0 => S754_zero sx
  | Zpos m => if e <=? emax - prec then S754_finite sx m e else S754_infinity sx
  | Zneg _ => S754_nan
  end.

(** ** What a run asks of the world

    Once the input is probed, the search makes three kinds of calls: encodes
    of the prepared input into the scratch file, sizes of the scratch file,
    and the move of the scratch file to the destination. [codecs] and
    [params] say which codecs and parameter sets the encodes may use. *)
Definition search_event (cmd_of : string -> Params.t -> res (list string))
    (temp_out output : string) (timeout_s : Z) (codecs : string -> Prop)
    (params : Params.t -> Prop) (ev : event) : Prop :=
  match ev with
  | EvEncode c ps cmd t _ =>
      codecs c /\ params ps /\ cmd_of c ps = Ok cmd /\ t = timeout_s
  | EvGetsize path _ => path = temp_out
  | EvOutput o _ => o = output
  | _ => False
  end.

(** A write of the destination, and one that succeeded. *)
Definition is_output (ev : event) : bool :=
  match ev with EvOutput _ _ => true | _ => false end.

Definition is_written (ev : event) : bool :=
  match ev with EvOutput _ (Ok _) => true | _ => false end.

(** ** A scripted world, for running the search on concrete inputs

    The world is the size of the scratch file (if it exists); ffmpeg's
    behaviour is a function of its command line. *)
Module Scripted.

Definition World : Type := option Z.

Definition verify_ffmpeg_tools (w : World) : res unit * World := (Ok tt, w).

Definition prepared_input (path : string) (w : World) : res string * World :=
  (Ok path, w).

Definition probe_video (p : ProbeResult.t) (path : string) (w : World)
  : res ProbeResult.t * World := (Ok p, w).

Definition subprocess_run (ffmpeg : list string -> proc * Z)
    (cmd : list string) (timeout_s : Z) (w : World) : proc * World :=
  match ffmpeg cmd with
  | (Completed, n) => (Completed, Some n)
  | (r, _) => (r, w)
  end.

Definition getsize (path : string) (w : World) : option Z * World := (w, w).

Definition replace_output (output temp : string) (w : World)
  : res unit * World := (Ok tt, None).

Definition is_s3_url (s : string) : bool := String.prefix "s3://" s.

Definition has (tok : string) (cmd : list string) : bool :=
  existsb (String.eqb tok) cmd.

Definition run (ffmpeg : list string -> proc * Z) (p : ProbeResult.t)
    (a : Args.t) : res Outcome.t * (World * list event) :=
  run World verify_ffmpeg_tools prepared_input (probe_video p)
    (subprocess_run ffmpeg) getsize replace_output
    "ffmpeg" "/tmp/td/attempt.mp4" is_s3_url a None.

Definition probe (duration_s : Py.float) (video_height : option Z)
    (video_fps : option Py.float) : ProbeResult.t :=
  ProbeResult.mk duration_s "mov,mp4,m4a,3gp,3g2,mj2" 1000000 true true
    (Some "h264") (Some 1920) video_height video_fps (Some "aac").

Definition args (target_bytes : option Z) (target_mb : option Py.float)
    (video_codec : string) (min_fps : Py.float) (min_height : Z) : Args.t :=
  Args.mk "in.mp4" "out.mp4" target_bytes target_mb video_codec 28
    "medium" "yuv420p" "aac" "128k" min_fps min_height 30.

(** Sizes by frame-rate filter: 1200 bytes without one, 800 at 24 fps,
    500 below. *)
Definition by_fps (cmd : list string) : proc * Z :=
  if negb (has "-vf" cmd) then (Completed, 1200)
  else if has "fps=fps=24.000000" cmd then (Completed, 800)
  else (Completed, 500).

(** Every encode yields 5000 bytes. *)
Definition always_large (cmd : list string) : proc * Z := (Completed, 5000).

(** libx265 times out; libx264 yields 500 bytes. *)
Definition x265_times_out (cmd : list string) : proc * Z :=
  if has "libx265" cmd then (TimeoutExpired, 0) else (Completed, 500).

(** libx265 is not built in; libx264 yields 500 bytes. *)
Definition x265_unavailable (cmd : list string) : proc * Z :=
  if has "libx265" cmd then (CalledProcessError "Unknown encoder 'libx265'", 0)
  else (Completed, 500).

(** What libx265 prints does not decode as text, so that [subprocess.run]
    raises a [ValueError] of its own; libx264 yields 500 bytes. *)
Definition x265_undecodable (cmd : list string) : proc * Z :=
  if has "libx265" cmd
  then (ProcRaised (ValueError "'utf-8' codec can't decode byte 0xff"), 0)
  else (Completed, 500).

(** ffmpeg cannot be started. *)
Definition not_started (cmd : list string) : proc * Z :=
  (ProcRaised (OSError "[Errno 13] Permission denied: 'ffmpeg'"), 0).

End Scripted.

(** * Properties *)

(** ** Candidate ladders *)

Section Ladder.

Context {A : Type}.
Variable keep : A -> bool.
Variable eqb : A -> A -> bool.

Local Abbreviation present := (present eqb).
Local Abbreviation ladder_step := (ladder_step keep eqb).

Lemma present_keep_first (x : A) (acc : list A) :
  present x (None :: map Some acc) = existsb (fun y => eqb y x) acc.
Proof.
  unfold present; simpl.
  induction acc as [|y acc IH]; simpl; [reflexivity|].
  now rewrite IH.
Qed.

Lemma ladder_fold (l acc : list A) :
  fold_left ladder_step l (None :: map Some acc)
  = None :: map Some (acc ++ first_occurrences eqb acc (filter keep l)).
Proof.
  revert acc; induction l as [|x l IH]; intros acc; simpl.
  - now rewrite app_nil_r.
  - unfold ladder_step at 2. rewrite present_keep_first.
    destruct (keep x) eqn:Hk; simpl.
    + destruct (existsb (fun y => eqb y x) acc) eqn:Hin; simpl.
      * apply IH.
      * change (None :: map Some acc ++ [Some x])
          with (None :: (map Some acc ++ map Some [x])).
        rewrite <- map_app, IH, <- app_assoc. reflexivity.
    + apply IH.
Qed.

Lemma present_app (x : A) (l1 l2 : list (option A)) :
  present x (l1 ++ l2) = present x l1 || present x l2.
Proof. unfold present. apply existsb_app. Qed.

Lemma ladder_step_present (acc : list (option A)) (x : A) :
  keep x = true -> eqb x x = true -> present x (ladder_step acc x) = true.
Proof.
  intros Hk Hx. unfold ladder_step. rewrite Hk. simpl.
  destruct (present x acc) eqn:Hin; simpl; [exact Hin|].
  rewrite present_app, Hin. simpl. now rewrite Hx.
Qed.

Lemma ladder_step_last (acc : list (option A)) (x : A) :
  keep x = true -> present x acc = false ->
  last (ladder_step acc x) None = Some x.
Proof.
  intros Hk Hin. unfold ladder_step. rewrite Hk, Hin. simpl.
  apply last_last.
Qed.

Lemma ladder_fold_present_mono (l : list A) (acc : list (option A)) (x : A) :
  present x acc = true -> present x (fold_left ladder_step l acc) = true.
Proof.
  revert acc; induction l as [|y l IH]; intros acc H; simpl; [exact H|].
  apply IH. unfold ladder_step.
  destruct (keep y && negb (present y acc)); [|exact H].
  rewrite present_app, H. reflexivity.
Qed.

End Ladder.

Lemma last_cons {A : Type} (x : A) (l : list A) (d : A) :
  last (x :: l) d = last l x.
Proof.
  revert x d; induction l as [|y l IH]; intros x d; [reflexivity|].
  change (last (x :: y :: l) d) with (last (y :: l) d).
  now rewrite !IH.
Qed.

Lemma float_lt_not_nan (x y : Py.float) :
  Py.ltb x y = true -> Py.eqb x x = true.
Proof.
  unfold Py.ltb, Py.eqb, SFltb, SFeqb.
  destruct x as [s|s| |s m e]; destruct y as [s'|s'| |s' m' e'];
    simpl; try discriminate; try reflexivity;
    try (destruct s; reflexivity);
    intros _; destruct s; rewrite Z.compare_refl, Pos.compare_cont_refl;
    reflexivity.
Qed.

Lemma fps_candidates_fold (F Fmin : Py.float) :
  fold_left
    (fun acc f =>
       if Py.ltb f F && negb (float_in f acc) then acc ++ [Some f] else acc)
    [Py.lit 24; Py.lit 15; Py.lit 12; Fmin] [None]
  = spec_fps_candidates F Fmin.
Proof. exact (ladder_fold (fun f => Py.ltb f F) Py.eqb _ []). Qed.

Lemma fps_candidates_min_present (F Fmin : Py.float) :
  Py.ltb Fmin F = true -> float_in Fmin (spec_fps_candidates F Fmin) = true.
Proof.
  intros H. rewrite <- fps_candidates_fold.
  change (present Py.eqb Fmin
            (ladder_step (fun f => Py.ltb f F) Py.eqb
               (fold_left (ladder_step (fun f => Py.ltb f F) Py.eqb)
                  [Py.lit 24; Py.lit 15; Py.lit 12] [None]) Fmin) = true).
  apply ladder_step_present; [exact H|]. eapply float_lt_not_nan; exact H.
Qed.

Lemma fps_candidates_spec (F Fmin : Py.float) :
  fps_candidates F Fmin = spec_fps_candidates F Fmin.
Proof.
  unfold fps_candidates. rewrite fps_candidates_fold.
  destruct (Py.ltb Fmin F) eqn:H; [|reflexivity].
  rewrite (fps_candidates_min_present _ _ H). reflexivity.
Qed.

(** C6. The input frame rate is the one the probe reports, and 30 when it
    reports none (or zero). For every input frame rate F and every floor
    Fmin, the frame-rate candidates are keep, followed by those of 24, 15,
    12 and Fmin, in that order, that are strictly below F, each kept once;
    Fmin is among the candidates whenever it is below F, and is the last
    candidate when it is none of 24, 15, 12. *)
Theorem C6_fps_candidates (p : ProbeResult.t) (F Fmin : Py.float) :
  (forall f, ProbeResult.video_fps p = Some f -> Py.eqb f Py.zero = false ->
             input_fps_of p = f)
  /\ (forall f, ProbeResult.video_fps p = Some f -> Py.eqb f Py.zero = true ->
                input_fps_of p = Py.lit 30)
  /\ (ProbeResult.video_fps p = None -> input_fps_of p = Py.lit 30)
  /\ fps_candidates F Fmin = spec_fps_candidates F Fmin
  /\ hd_error (fps_candidates F Fmin) = Some None
  /\ (Py.ltb Fmin F = true -> float_in Fmin (fps_candidates F Fmin) = true)
  /\ (Py.ltb Fmin F = true ->
      float_in Fmin [Some (Py.lit 24); Some (Py.lit 15); Some (Py.lit 12)] = false ->
      last (fps_candidates F Fmin) None = Some Fmin).
Proof.
  repeat split.
  - intros f Hf Hz. unfold input_fps_of, Py.truthy. now rewrite Hf, Hz.
  - intros f Hf Hz. unfold input_fps_of, Py.truthy. now rewrite Hf, Hz.
  - unfold input_fps_of. now intros ->.
  - apply fps_candidates_spec.
  - rewrite fps_candidates_spec. reflexivity.
  - intros H. rewrite fps_candidates_spec. now apply fps_candidates_min_present.
  - intros H Hnew. rewrite fps_candidates_spec, <- fps_candidates_fold.
    change (last
              (ladder_step (fun f => Py.ltb f F) Py.eqb
                 (fold_left (ladder_step (fun f => Py.ltb f F) Py.eqb)
                    [Py.lit 24; Py.lit 15; Py.lit 12] [None]) Fmin) None
            = Some Fmin).
    apply ladder_step_last; [exact H|].
    change (float_in Fmin
              (fold_left (ladder_step (fun f => Py.ltb f F) Py.eqb)
                 [Py.lit 24; Py.lit 15; Py.lit 12] [None]) = false).
    simpl in Hnew. apply orb_false_elim in Hnew as [H24 Hnew].
    apply orb_false_elim in Hnew as [H15 Hnew].
    apply orb_false_elim in Hnew as [H12 _].
    unfold float_in in *. simpl. unfold ladder_step, present. simpl.
    repeat
      match goal with
      | |- context [if ?b then _ else _] => destruct b eqn:?; simpl
      | |- context [existsb _ (_ ++ _)] => rewrite existsb_app; simpl
      end;
      rewrite ?H24, ?H15, ?H12; reflexivity.
Qed.

Lemma height_candidates_fold (H Hmin : Z) :
  fold_left
    (fun acc h =>
       if negb (H =? 0) && (h <? H) && (Hmin <=? h) && negb (int_in h acc)
       then acc ++ [Some h] else acc)
    [2160; 1440; 1080; 720; Hmin] [None]
  = None ::
    map Some
      (first_occurrences Z.eqb []
         (filter (fun h => negb (H =? 0) && (h <? H) && (Hmin <=? h))
            [2160; 1440; 1080; 720; Hmin])).
Proof.
  exact (ladder_fold (fun h => negb (H =? 0) && (h <? H) && (Hmin <=? h))
           Z.eqb _ []).
Qed.

Lemma height_candidates_spec (p : ProbeResult.t) (Hmin : Z) :
  height_candidates (input_h_of p) Hmin
  = spec_height_candidates (ProbeResult.video_height p) Hmin.
Proof.
  unfold height_candidates. rewrite height_candidates_fold.
  set (H := input_h_of p).
  assert (Hforce :
    negb (H =? 0) && (Hmin <? H)
    && negb (int_in Hmin
               (None :: map Some
                  (first_occurrences Z.eqb []
                     (filter (fun h => negb (H =? 0) && (h <? H) && (Hmin <=? h))
                        [2160; 1440; 1080; 720; Hmin])))) = false).
  { destruct (negb (H =? 0) && (Hmin <? H)) eqn:Hc; [|reflexivity].
    rewrite andb_true_l. apply negb_false_iff.
    rewrite <- height_candidates_fold.
    change (present Z.eqb Hmin
              (ladder_step (fun h => negb (H =? 0) && (h <? H) && (Hmin <=? h))
                 Z.eqb
                 (fold_left
                    (ladder_step
                       (fun h => negb (H =? 0) && (h <? H) && (Hmin <=? h)) Z.eqb)
                    [2160; 1440; 1080; 720] [None]) Hmin) = true).
    apply ladder_step_present; [|apply Z.eqb_refl].
    rewrite Hc. apply Z.leb_refl. }
  rewrite Hforce. clear Hforce.
  unfold spec_height_candidates, H, input_h_of.
  destruct (ProbeResult.video_height p) as [h|]; [|reflexivity].
  destruct (h =? 0); reflexivity.
Qed.

Lemma height_candidates_tail_empty (H Hmin : Z) :
  tl (height_candidates H Hmin) = [] ->
  negb (H =? 0) && (Hmin <? H) = false.
Proof.
  intros Htl.
  destruct (negb (H =? 0) && (Hmin <? H)) eqn:Hc; [|reflexivity].
  exfalso.
  assert (Hp : present Z.eqb Hmin (height_candidates H Hmin) = true).
  { unfold height_candidates.
    set (l := fold_left _ _ _).
    assert (Hl : present Z.eqb Hmin l = true).
    { change (present Z.eqb Hmin
                (ladder_step
                   (fun h => negb (H =? 0) && (h <? H) && (Hmin <=? h)) Z.eqb
                   (fold_left
                      (ladder_step
                         (fun h => negb (H =? 0) && (h <? H) && (Hmin <=? h))
                         Z.eqb)
                      [2160; 1440; 1080; 720] [None]) Hmin) = true).
      apply ladder_step_present; [|apply Z.eqb_refl].
      rewrite Hc. apply Z.leb_refl. }
    destruct (negb (H =? 0) && (Hmin <? H) && negb (int_in Hmin l));
      [|exact Hl].
    rewrite present_app, Hl. reflexivity. }
  assert (Hhd : exists t, height_candidates H Hmin = None :: t).
  { pose (p := ProbeResult.mk Py.zero EmptyString 0 true true None None (Some H) None None).
    change H with (input_h_of p). rewrite height_candidates_spec.
    unfold spec_height_candidates. simpl.
    destruct (H =? 0); eexists; reflexivity. }
  destruct Hhd as [t Ht]. rewrite Ht in Htl, Hp. simpl in Htl. subst t.
  discriminate Hp.
Qed.

Lemma height_candidates_tail_some (H Hmin : Z) :
  Forall (fun c => c <> None) (tl (height_candidates H Hmin)).
Proof.
  pose (q := ProbeResult.mk Py.zero EmptyString 0 true true None None (Some H) None None).
  change H with (input_h_of q). rewrite height_candidates_spec.
  unfold spec_height_candidates. simpl.
  destruct (H =? 0); simpl; [constructor|].
  apply Forall_forall. intros c Hin. apply in_map_iff in Hin.
  destruct Hin as (x & <- & _). discriminate.
Qed.

Lemma last_not_None {X : Type} (l : list (option X)) (d : option X) :
  Forall (fun c => c <> None) l -> l <> [] -> last l d <> None.
Proof.
  revert d; induction l as [|x l IHl]; intros d Hall Hne; [congruence|].
  inversion Hall; subst. destruct l as [|y l]; [assumption|].
  change (last (x :: y :: l) d) with (last (y :: l) d).
  apply IHl; [assumption|discriminate].
Qed.

(** ** The trace relations *)

Section Relations.

Variable ffmpeg_path : string.
Variable temp_out : string.
Variable is_s3_url : string -> bool.
Variable a : Args.t.
Variable target_bytes : Z.
Variable preferred_codec : string.
Variable fallback_codec : option string.
Variable local_in : string.

Local Abbreviation cmd_for' := (cmd_for ffmpeg_path temp_out a local_in).
Local Abbreviation try_calls' := (try_calls ffmpeg_path temp_out a local_in).
Local Abbreviation attempt_calls' :=
  (attempt_calls ffmpeg_path temp_out a preferred_codec fallback_codec local_in).
Local Abbreviation loop_calls' :=
  (loop_calls ffmpeg_path temp_out is_s3_url a target_bytes preferred_codec
     fallback_codec local_in).
Local Abbreviation stage3_calls' :=
  (stage3_calls ffmpeg_path temp_out is_s3_url a target_bytes preferred_codec
     fallback_codec local_in).
Local Abbreviation search_calls' :=
  (search_calls ffmpeg_path temp_out is_s3_url a target_bytes preferred_codec
     fallback_codec local_in).
Local Abbreviation outcome' := (outcome is_s3_url a target_bytes).
Local Abbreviation group' :=
  (attempt_group cmd_for' temp_out (Args.timeout_s a) preferred_codec
     fallback_codec).
Local Abbreviation logged' :=
  (logged cmd_for' temp_out (Args.timeout_s a) preferred_codec fallback_codec).

(** The height stage 3 encodes with is the height it records: the
    [min_height] branch is only taken when stage 2 had no candidate, and then
    the input is not above [min_height]. *)
Lemma stage3_height_recorded (p : ProbeResult.t) :
  stage3_height a (input_h_of p)
    (last (tl (height_candidates (input_h_of p) (Args.min_height a))) None)
  = last (tl (height_candidates (input_h_of p) (Args.min_height a))) None.
Proof.
  unfold stage3_height.
  destruct (tl (height_candidates (input_h_of p) (Args.min_height a)))
    as [|h t] eqn:Htl.
  - simpl. now rewrite (height_candidates_tail_empty _ _ Htl).
  - destruct (last (h :: t) None) eqn:Hl; [reflexivity|].
    exfalso. apply (last_not_None (h :: t) None); [|discriminate|exact Hl].
    rewrite <- Htl. apply height_candidates_tail_some.
Qed.

Lemma cmd_for_any_codec (c c' : string) (ps : Params.t) (e : exn) :
  cmd_for' c ps = Raise e -> cmd_for' c' ps = Raise e.
Proof.
  unfold cmd_for, encode_cmd.
  destruct (rate_control (Params.v_bitrate ps) (Params.crf_value ps));
    simpl; [discriminate|auto].
Qed.

Lemma params_of_record (ps : Params.t) (c : string) (n : Z) :
  params_of (record ps c n) = ps.
Proof. now destruct ps. Qed.

Lemma attempt_calls_group (ps : Params.t) (evs : list event) (c : string) (n : Z) :
  attempt_calls' ps evs (Ok (c, n)) -> group' (record ps c n) evs.
Proof.
  intros H. remember (Ok (c, n)) as r eqn:Hr.
  destruct H as [evs n0 Ht|evs e Ht Hor|evs1 msg fb evs2 r2 Ht1 Hfb Ht2].
  - injection Hr as <- <-.
    inversion Ht as [| | |cmd n1 Hcmd Hevs Hn]; subst evs n1.
    destruct ps as [f h crf vb ab].
    exact (group_preferred cmd_for' temp_out (Args.timeout_s a)
             preferred_codec fallback_codec
             (record (Params.mk f h crf vb ab) preferred_codec n0) cmd
             eq_refl Hcmd).
  - discriminate.
  - destruct r2 as [n'|e]; [|discriminate].
    injection Hr as <- <-.
    inversion Ht2 as [| | |cmd2 n1 Hcmd2 Hevs2 Hn]; subst evs2 n1.
    inversion Ht1 as [e He Hevs1 Hr1|cmd1 r1 e Hc1 Hp1 Hevs1 Hr1| |]; subst evs1.
    + rewrite (cmd_for_any_codec _ fb _ _ He) in Hcmd2. discriminate.
    + subst e. destruct ps as [f h crf vb ab].
      exact (group_fallback cmd_for' temp_out (Args.timeout_s a)
               preferred_codec fallback_codec
               (record (Params.mk f h crf vb ab) fb n')
               cmd1 r1 msg cmd2 Hfb Hp1 Hc1 Hcmd2).
Qed.

Lemma logged_app (attempts : list Attempt.t) (evs : list event)
    (att : Attempt.t) (g : list event) :
  logged' attempts evs -> group' att g -> logged' (attempts ++ [att]) (evs ++ g).
Proof.
  induction 1 as [|att0 g0 attempts evs Hg0 Hl IH]; intros Hg; simpl.
  - rewrite <- (app_nil_r g). now repeat constructor.
  - rewrite <- app_assoc. constructor; auto.
Qed.

(** What a stage loop that runs to its end has done. *)
Lemma loop_calls_end {X : Type} (mk : X -> Params.t) (strategy : string)
    (cands : list X) (attempts : list Attempt.t) (evs : list event)
    (r : res (Outcome.t + list Attempt.t)) :
  loop_calls' mk strategy cands attempts evs r ->
  forall attempts', r = Ok (inr attempts') ->
  exists new,
    attempts' = attempts ++ new
    /\ Forall2 (fun x att => params_of att = mk x) cands new
    /\ Forall (over_budget target_bytes) new
    /\ (forall pre, logged' attempts pre -> logged' attempts' (pre ++ evs)).
Proof.
  induction 1 as [attempts|x rest attempts evs c n evs' r Hc Hn Hl IH| | |];
    intros attempts' Hr; try discriminate.
  - injection Hr as <-. exists []. rewrite app_nil_r.
    repeat split; auto. intros pre Hpre. now rewrite app_nil_r.
  - destruct (IH _ Hr) as (new & -> & Hps & Hov & Hlog).
    exists (record (mk x) c n :: new).
    assert (Happ : (attempts ++ [record (mk x) c n]) ++ new
                   = attempts ++ record (mk x) c n :: new)
      by now rewrite <- app_assoc.
    rewrite Happ in *.
    repeat split.
    + constructor; [apply params_of_record|exact Hps].
    + constructor; [exact Hn|exact Hov].
    + intros pre Hpre. rewrite (app_assoc pre evs evs'). apply Hlog.
      apply logged_app; [exact Hpre|]. now apply attempt_calls_group.
Qed.

(** What a stage loop that returns from inside has done. *)
Lemma loop_calls_return {X : Type} (mk : X -> Params.t) (strategy : string)
    (cands : list X) (attempts : list Attempt.t) (evs : list event)
    (r : res (Outcome.t + list Attempt.t)) :
  loop_calls' mk strategy cands attempts evs r ->
  forall out, r = Ok (inl out) ->
  exists done x rest new att evs',
    cands = done ++ x :: rest
    /\ Forall2 (fun y att' => params_of att' = mk y) done new
    /\ Forall (over_budget target_bytes) new
    /\ params_of att = mk x
    /\ (Attempt.output_bytes att <=? target_bytes) = true
    /\ out = outcome' (Attempt.output_bytes att) strategy true
               (attempts ++ new ++ [att])
    /\ evs = evs' ++ [EvOutput (Args.output a) (Ok tt)]
    /\ (forall pre, logged' attempts pre ->
                    logged' (attempts ++ new ++ [att]) (pre ++ evs')).
Proof.
  induction 1 as [|x rest attempts evs c n evs' r Hc Hn Hl IH
                  |x rest attempts evs c n Hc Hn| |];
    intros out Hr; try discriminate.
  - destruct (IH _ Hr)
      as (done & y & rest' & new & att & evs0 & Hcands & Hps & Hov & Hp & Hle
          & Hout & Hevs & Hlog).
    exists (x :: done), y, rest', (record (mk x) c n :: new), att, (evs ++ evs0).
    assert (Happ : (attempts ++ [record (mk x) c n]) ++ new ++ [att]
                   = attempts ++ (record (mk x) c n :: new) ++ [att])
      by now rewrite <- app_assoc.
    rewrite Happ in Hout, Hlog.
    split; [now rewrite Hcands|].
    split; [constructor; [apply params_of_record|exact Hps]|].
    split; [constructor; [exact Hn|exact Hov]|].
    split; [exact Hp|]. split; [exact Hle|]. split; [exact Hout|].
    split; [now rewrite Hevs, app_assoc|].
    intros pre Hpre. rewrite (app_assoc pre evs evs0).
    apply Hlog. apply logged_app; [exact Hpre|].
    now apply attempt_calls_group.
  - injection Hr as <-.
    exists [], x, rest, [], (record (mk x) c n), evs.
    split; [reflexivity|]. split; [constructor|]. split; [constructor|].
    split; [apply params_of_record|]. split; [exact Hn|].
    split; [reflexivity|]. split; [reflexivity|].
    intros pre Hpre. apply logged_app; [exact Hpre|].
    now apply attempt_calls_group.
Qed.

Lemma search_returned (p : ProbeResult.t) (evs : list event) (out : Outcome.t) :
  search_calls' p evs (Ok out) ->
  returned is_s3_url a target_bytes p out
  /\ exists evs',
       evs = evs' ++ [EvOutput (Args.output a) (Ok tt)]
       /\ logged' (Outcome.attempts out) evs'.
Proof.
  intros H. remember (Ok out) as r eqn:Hr.
  destruct H as [evs out0 H1|evs e H1|evs1 attempts evs2 out0 last_fps H1 Hl H2
                 |evs1 attempts evs2 e last_fps H1 Hl H2
                 |evs1 attempts1 evs2 attempts2 evs3 r last_fps last_height
                    H1 Hlf H2 Hlh H3];
    try discriminate.
  - injection Hr as ->.
    destruct (loop_calls_return _ _ _ _ _ _ H1 out eq_refl)
      as (done & x & rest & new & att & evs' & Hc & Hps & Hov & Hp & Hle
          & -> & -> & Hlog).
    split.
    + eapply returned_fps; eauto.
    + exists evs'. split; [reflexivity|]. apply (Hlog []). constructor.
  - injection Hr as ->.
    destruct (loop_calls_end _ _ _ _ _ _ H1 attempts eq_refl)
      as (new1 & -> & Hps1 & Hov1 & Hlog1).
    destruct (loop_calls_return _ _ _ _ _ _ H2 out eq_refl)
      as (done & h & rest & new & att & evs' & Hc & Hps & Hov & Hp & Hle
          & -> & -> & Hlog).
    split.
    + eapply returned_scale; eauto.
    + exists (evs1 ++ evs'). split; [now rewrite app_assoc|].
      apply Hlog. apply (Hlog1 []). constructor.
  - subst r.
    destruct (loop_calls_end _ _ _ _ _ _ H1 attempts1 eq_refl)
      as (new1 & -> & Hps1 & Hov1 & Hlog1).
    destruct (loop_calls_end _ _ _ _ _ _ H2 attempts2 eq_refl)
      as (new2 & -> & Hps2 & Hov2 & Hlog2).
    simpl app in *.
    inversion H3 as [| | |v evs0 c n Hv Hc Hevs Hout]; subst evs3.
    subst last_height. rewrite stage3_height_recorded in Hc.
    split.
    + rewrite <- (app_assoc new1 new2).
      change n with
        (Attempt.output_bytes
           (record
              (bitrate_params a
                 (stage3_fps a last_fps)
                 (last (tl (height_candidates (input_h_of p) (Args.min_height a)))
                    None) v) c n)).
      eapply returned_bitrate; eauto.
    + exists (evs1 ++ evs2 ++ evs0). split; [now rewrite !app_assoc|].
      rewrite (app_assoc evs1). apply logged_app.
      * apply Hlog2. apply (Hlog1 []). constructor.
      * now apply attempt_calls_group.
Qed.

(** *** Failed encode calls *)

Hypothesis fallback_differs :
  usable_fallback fallback_codec <> Some preferred_codec.

Local Abbreviation handled' :=
  (failures_handled preferred_codec fallback_codec).

Lemma retry_codec_fallback (fb : string) (e : exn) :
  usable_fallback fallback_codec = Some fb ->
  retry_codec preferred_codec fallback_codec fb e = None.
Proof.
  intros Hfb. unfold retry_codec.
  destruct (String.eqb_spec fb preferred_codec) as [->|_];
    [now destruct fallback_differs|].
  now rewrite andb_false_r.
Qed.

Lemma retry_codec_preferred (msg : string) :
  retry_codec preferred_codec fallback_codec preferred_codec (ValueError msg)
  = usable_fallback fallback_codec.
Proof. unfold retry_codec. now rewrite String.eqb_refl. Qed.

Lemma group_closed (att : Attempt.t) (g : list event) :
  group' att g ->
  forall raised tr, handled' raised tr -> handled' raised (g ++ tr).
Proof.
  intros [cmd Hc Hcmd|cmd1 r1 msg cmd2 Hfb Hp Hc1 Hc2] raised tr Htr; simpl.
  - split; [exact I|exact Htr].
  - rewrite Hp, retry_codec_preferred, Hfb.
    split; [|split; [exact I|exact Htr]].
    now eexists _, _, _.
Qed.

Lemma attempt_ok_closed (ps : Params.t) (evs : list event) (c : string) (n : Z) :
  attempt_calls' ps evs (Ok (c, n)) ->
  forall raised tr, handled' raised tr -> handled' raised (evs ++ tr).
Proof. intros H. eapply group_closed. apply attempt_calls_group. exact H. Qed.

(** A try that raises, when no retry follows it. *)
Lemma try_fail_handled (c : string) (ps : Params.t) (evs : list event) (e : exn) :
  try_calls' c ps evs (Raise e) ->
  retry_codec preferred_codec fallback_codec c e = None ->
  handled' (Some e) evs.
Proof.
  intros H Hno. inversion H as [e0 He|cmd r e0 Hc Hp|cmd Hc|]; subst; simpl.
  - exact I.
  - rewrite Hp, Hno. split; [split; reflexivity|exact I].
  - split; exact I.
Qed.

Lemma attempt_fail_handled (ps : Params.t) (evs : list event) (e : exn) :
  attempt_calls' ps evs (Raise e) -> handled' (Some e) evs.
Proof.
  intros H. remember (Raise e) as r eqn:Hr.
  destruct H as [evs n Ht|evs e0 Ht Hor|evs1 msg fb evs2 r2 Ht1 Hfb Ht2].
  - discriminate.
  - injection Hr as ->. apply (try_fail_handled _ _ _ _ Ht).
    unfold retry_codec. destruct Hor as [-> | ->]; [reflexivity|].
    now destruct (is_ValueError e && (preferred_codec =? preferred_codec)%string).
  - destruct r2 as [n|e2]; [discriminate|]. injection Hr as ->.
    pose proof (try_fail_handled _ _ _ _ Ht2 (retry_codec_fallback _ _ Hfb))
      as H2.
    inversion Ht1 as [e0 He Hevs1 Hr1|cmd1 r1 e0 Hc1 Hp1 Hevs1 Hr1| |];
      subst evs1.
    + exact H2.
    + subst e0. simpl. rewrite Hp1, retry_codec_preferred, Hfb.
      split; [|exact H2].
      inversion Ht2 as [e0 He|cmd2 r e0 Hc2 Hp2|cmd2 Hc2|]; subst evs2.
      * rewrite (cmd_for_any_codec _ preferred_codec _ _ He) in Hc1.
        discriminate.
      * now eexists _, _, _.
      * now eexists _, _, _.
Qed.

Lemma loop_handled {X : Type} (mk : X -> Params.t) (strategy : string)
    (cands : list X) (attempts : list Attempt.t) (evs : list event)
    (r : res (Outcome.t + list Attempt.t)) :
  loop_calls' mk strategy cands attempts evs r ->
  handled' (raised_of r) evs
  /\ (forall attempts', r = Ok (inr attempts') ->
      forall raised tr, handled' raised tr -> handled' raised (evs ++ tr)).
Proof.
  induction 1 as [attempts|x rest attempts evs c n evs' r Hc Hn Hl [IH1 IH2]
                  |x rest attempts evs c n Hc Hn
                  |x rest attempts evs c n e Hc Hn
                  |x rest attempts evs e Hc].
  - split; [exact I|]. intros _ _ raised tr Htr. exact Htr.
  - split.
    + eapply attempt_ok_closed; eauto.
    + intros attempts' Hr raised tr Htr. rewrite <- app_assoc.
      eapply attempt_ok_closed; eauto.
  - split; [|discriminate].
    eapply attempt_ok_closed; eauto. exact I.
  - split; [|discriminate].
    eapply attempt_ok_closed; eauto. exact I.
  - split; [|discriminate]. exact (attempt_fail_handled _ _ _ Hc).
Qed.

Lemma stage3_handled (p : ProbeResult.t) (attempts : list Attempt.t)
    (last_fps : option Py.float) (last_height : option Z)
    (evs : list event) (r : res Outcome.t) :
  stage3_calls' p attempts last_fps last_height evs r ->
  handled' (raised_of r) evs.
Proof.
  intros [e He|v evs0 e Hv Hc|v evs0 c n e Hv Hc|v evs0 c n Hv Hc].
  - exact I.
  - exact (attempt_fail_handled _ _ _ Hc).
  - eapply attempt_ok_closed; eauto. exact I.
  - eapply attempt_ok_closed; eauto. exact I.
Qed.

Lemma search_handled (p : ProbeResult.t) (evs : list event) (r : res Outcome.t) :
  search_calls' p evs r -> handled' (raised_of r) evs.
Proof.
  intros [evs0 out H1|evs0 e H1|evs1 attempts evs2 out last_fps H1 Hl H2
          |evs1 attempts evs2 e last_fps H1 Hl H2
          |evs1 attempts1 evs2 attempts2 evs3 r0 last_fps last_height
             H1 Hlf H2 Hlh H3].
  - exact (proj1 (loop_handled _ _ _ _ _ _ H1)).
  - exact (proj1 (loop_handled _ _ _ _ _ _ H1)).
  - apply (proj2 (loop_handled _ _ _ _ _ _ H1) _ eq_refl).
    exact (proj1 (loop_handled _ _ _ _ _ _ H2)).
  - apply (proj2 (loop_handled _ _ _ _ _ _ H1) _ eq_refl).
    exact (proj1 (loop_handled _ _ _ _ _ _ H2)).
  - apply (proj2 (loop_handled _ _ _ _ _ _ H1) _ eq_refl).
    apply (proj2 (loop_handled _ _ _ _ _ _ H2) _ eq_refl).
    eapply stage3_handled; eauto.
Qed.

Lemma handled_at (raised : option exn) (pre post : list event)
    (c : string) (ps : Params.t) (cmd : list string) (t : Z) (pr : proc)
    (e : exn) :
  handled' raised (pre ++ EvEncode c ps cmd t pr :: post) ->
  proc_error pr = Some e ->
  match retry_codec preferred_codec fallback_codec c e with
  | Some fb => exists cmd' pr' post', post = EvEncode fb ps cmd' t pr' :: post'
  | None => post = [] /\ raised = Some e
  end.
Proof.
  induction pre as [|ev pre IH]; simpl; intros H Hp.
  - rewrite Hp in H. exact (proj1 H).
  - destruct ev; try (apply IH; [exact H|exact Hp]).
    apply IH; [exact (proj2 H)|exact Hp].
Qed.

End Relations.

(** ** The log and the trace *)

Lemma logged_no_probe (cmd_of : string -> Params.t -> res (list string))
    (temp_out : string) (timeout_s : Z)
    (preferred_codec : string) (fallback_codec : option string)
    (attempts : list Attempt.t) (evs : list event) :
  logged cmd_of temp_out timeout_s preferred_codec fallback_codec attempts evs ->
  Forall (fun ev => is_probe ev = false) evs.
Proof.
  induction 1 as [|att g attempts evs Hg Hl IH]; [constructor|].
  apply Forall_app. split; [|exact IH].
  destruct Hg; repeat constructor.
Qed.

Lemma logged_last (cmd_of : string -> Params.t -> res (list string))
    (temp_out : string) (timeout_s : Z)
    (preferred_codec : string) (fallback_codec : option string)
    (attempts : list Attempt.t) (att : Attempt.t) (evs : list event) :
  logged cmd_of temp_out timeout_s preferred_codec fallback_codec
    (attempts ++ [att]) evs ->
  exists pre cmd,
    evs = pre ++ [EvEncode (Attempt.video_codec att) (params_of att) cmd
                    timeout_s Completed;
                  EvGetsize temp_out (Ok (Attempt.output_bytes att))]
    /\ cmd_of (Attempt.video_codec att) (params_of att) = Ok cmd.
Proof.
  revert evs; induction attempts as [|att0 attempts IH]; intros evs H;
    inversion H as [|att1 g attempts1 evs1 Hg Hl]; subst.
  - inversion Hl; subst. rewrite app_nil_r.
    destruct Hg as [cmd Hc Hcmd|cmd1 r1 msg cmd2 Hfb Hp Hc1 Hc2].
    + exists [], cmd. rewrite Hc. now split.
    + exists [EvEncode preferred_codec (params_of att) cmd1 timeout_s r1], cmd2.
      now split.
  - destruct (IH _ Hl) as (pre & cmd & -> & Hcmd).
    exists (g ++ pre), cmd. now rewrite app_assoc.
Qed.

Lemma over_budget_nth (target_bytes : Z) (l : list Attempt.t) (i : nat)
    (att : Attempt.t) :
  Forall (over_budget target_bytes) l -> nth_error l i = Some att ->
  target_bytes < Attempt.output_bytes att.
Proof.
  intros Hall Hn. apply nth_error_In in Hn.
  rewrite Forall_forall in Hall. specialize (Hall _ Hn).
  unfold over_budget in Hall. now apply Z.leb_gt in Hall.
Qed.

Lemma params_nth {X : Type} (mk : X -> Params.t) (cands : list X)
    (l : list Attempt.t) (i : nat) (att : Attempt.t) (d : X) :
  Forall2 (fun y att' => params_of att' = mk y) cands l ->
  nth_error l i = Some att -> params_of att = mk (nth i cands d).
Proof.
  intros H; revert i; induction H as [|y att' cands l Hy Hl IH]; intros i Hn.
  - destruct i; discriminate.
  - destruct i as [|i]; simpl in *; [now injection Hn as <-|auto].
Qed.

Lemma pick_codec_cases (s : string) (preferred_codec : string)
    (fallback_codec : option string) :
  _pick_codec s = Ok (preferred_codec, fallback_codec) ->
  (preferred_codec = "libx265" /\ fallback_codec = Some "libx264")
  \/ fallback_codec = None.
Proof.
  unfold _pick_codec.
  destruct (String.eqb _ "auto"); [intros [= <- <-]; now left|].
  destruct (_ || _); [intros [= _ <-]; now right|discriminate].
Qed.

Lemma pick_codec_differs (s : string) (preferred_codec : string)
    (fallback_codec : option string) :
  _pick_codec s = Ok (preferred_codec, fallback_codec) ->
  usable_fallback fallback_codec <> Some preferred_codec.
Proof.
  intros H. destruct (pick_codec_cases _ _ _ H) as [[-> ->]| ->];
    discriminate.
Qed.

Lemma logged_encodes (cmd_of : string -> Params.t -> res (list string))
    (temp_out : string) (timeout_s : Z)
    (preferred_codec : string) (fallback_codec : option string)
    (attempts : list Attempt.t) (evs : list event) :
  usable_fallback fallback_codec <> Some preferred_codec ->
  logged cmd_of temp_out timeout_s preferred_codec fallback_codec attempts evs ->
  List.length (filter is_encode evs)
  = (List.length attempts
     + List.length
         (filter (fun att =>
                    negb (String.eqb (Attempt.video_codec att) preferred_codec))
            attempts))%nat.
Proof.
  intros Hd. induction 1 as [|att g attempts evs Hg Hl IH]; [reflexivity|].
  rewrite filter_app, length_app, IH. simpl.
  destruct Hg as [cmd Hc Hcmd|cmd1 r1 msg cmd2 Hfb Hp Hc1 Hc2]; simpl.
  - rewrite Hc, String.eqb_refl. simpl. lia.
  - destruct (String.eqb_spec (Attempt.video_codec att) preferred_codec)
      as [Heq|_]; [now rewrite Heq in Hfb|].
    simpl. lia.
Qed.

Lemma Forall2_Forall_r {X Y : Type} (R : X -> Y -> Prop) (P : Y -> Prop)
    (l : list X) (l' : list Y) :
  (forall x y, R x y -> P y) -> Forall2 R l l' -> Forall P l'.
Proof. intros HR; induction 1; constructor; eauto. Qed.

Lemma encode_cmd_shape (ffmpeg_path input_path output_path c : string)
    (fps : option Py.float) (height : option Z) (crf : option Z)
    (vb : option string) (preset pix_fmt audio_codec ab : string)
    (cmd : list string) :
  encode_cmd ffmpeg_path input_path output_path c fps height crf vb
    preset pix_fmt audio_codec ab = Ok cmd ->
  exists rc before after,
    rate_control vb crf = Ok rc
    /\ cmd = before ++ "-c:v" :: c :: rc ++ after.
Proof.
  unfold encode_cmd.
  destruct (rate_control vb crf) as [rc|e]; simpl; [|discriminate].
  intros [= <-]. exists rc.
  destruct (filters_of fps height), (str_truthy preset), (str_truthy pix_fmt);
    repeat (rewrite <- ?app_assoc; simpl);
    match goal with
    | |- exists before after,
          Ok rc = Ok rc /\ ?l ++ "-c:v" :: c :: rc ++ ?t = _ =>
        exists l, t; split; reflexivity
    | |- exists before after,
          Ok rc = Ok rc /\ ?x0 :: ?x1 :: ?x2 :: ?x3 :: ?x4 :: ?x5 :: ?x6
                           :: ?x7 :: ?x8 :: ?x9 :: "-c:v" :: c :: rc ++ ?t = _ =>
        exists [x0; x1; x2; x3; x4; x5; x6; x7; x8; x9], t; split; reflexivity
    | |- exists before after,
          Ok rc = Ok rc /\ ?x0 :: ?x1 :: ?x2 :: ?x3 :: ?x4 :: ?x5 :: ?x6
                           :: ?x7 :: ?x8 :: ?x9 :: ?x10 :: ?x11
                           :: "-c:v" :: c :: rc ++ ?t = _ =>
        exists [x0; x1; x2; x3; x4; x5; x6; x7; x8; x9; x10; x11], t;
        split; reflexivity
    end.
Qed.

Lemma rate_control_bitrate (v : string) (rc : list string) :
  rate_control (Some v) None = Ok rc ->
  rc = ["-b:v"; v; "-maxrate"; v; "-bufsize"; v].
Proof.
  unfold rate_control. destruct (str_truthy v); [|discriminate].
  now intros [= <-].
Qed.

Lemma int_of_float_raises (x : Py.float) (e : exn) :
  Py.int_of_float x = Raise e ->
  e = OverflowError "cannot convert float infinity to integer"
  \/ e = ValueError "cannot convert float NaN to integer".
Proof. destruct x; simpl; intros [= <-]; auto. Qed.

Lemma validate_rejects (a : Args.t) :
  is_None (Args.target_bytes a) = is_None (Args.target_mb a)
  \/ Py.leb (Args.min_fps a) Py.zero = true
  \/ Args.min_height a <= 0
  \/ Args.timeout_s a <= 0 ->
  exists e, validate a = Raise e /\ In e configuration_errors.
Proof.
  intros H. unfold validate.
  destruct (Bool.eqb (is_None (Args.target_bytes a)) (is_None (Args.target_mb a)))
    eqn:Hboth.
  { eexists. split; [reflexivity|]. simpl. auto. }
  assert (Hrest :
    forall B,
      exists e,
        (if B <=? 0 then Raise (ValueError "target_bytes must be positive")
         else if Py.leb (Args.min_fps a) Py.zero
              then Raise (ValueError "min_fps must be positive")
              else if Args.min_height a <=? 0
                   then Raise (ValueError "min_height must be positive")
                   else if Args.timeout_s a <=? 0
                        then Raise (ValueError "timeout_s must be positive")
                        else Ok B) = Raise e
        /\ In e configuration_errors).
  { intros B.
    destruct (B <=? 0); [eexists; split; [reflexivity|simpl; tauto]|].
    destruct (Py.leb (Args.min_fps a) Py.zero) eqn:Hfps;
      [eexists; split; [reflexivity|simpl; tauto]|].
    destruct (Args.min_height a <=? 0) eqn:Hh;
      [eexists; split; [reflexivity|simpl; tauto]|].
    destruct (Args.timeout_s a <=? 0) eqn:Ht;
      [eexists; split; [reflexivity|simpl; tauto]|].
    exfalso. apply Z.leb_gt in Hh, Ht.
    destruct H as [H|[H|[H|H]]]; try lia; try discriminate.
    rewrite H in Hboth. now destruct (is_None (Args.target_mb a)). }
  destruct (Args.target_mb a) as [mb|].
  - destruct (Py.leb mb Py.zero).
    + eexists. split; [reflexivity|]. simpl. tauto.
    + destruct (Py.int_of_float _) as [B|e] eqn:Hint; simpl.
      * apply Hrest.
      * exists e. split; [reflexivity|].
        destruct (int_of_float_raises _ _ Hint) as [-> | ->]; simpl; tauto.
  - destruct (Args.target_bytes a) as [B|]; [|discriminate]. simpl.
    apply Hrest.
Qed.

(** ** The calls of a run *)

Section Facts.

Variable World : Type.
Variable verify_ffmpeg_tools : World -> res unit * World.
Variable prepared_input : string -> World -> res string * World.
Variable probe_video : string -> World -> res ProbeResult.t * World.
Variable subprocess_run : list string -> Z -> World -> proc * World.
Variable getsize : string -> World -> option Z * World.
Variable replace_output : string -> string -> World -> res unit * World.
Variable ffmpeg_path : string.
Variable temp_out : string.
Variable is_s3_url : string -> bool.

Section RunFacts.

Variable a : Args.t.
Variable target_bytes : Z.
Variable preferred_codec : string.
Variable fallback_codec : option string.
Variable local_in : string.

Local Abbreviation try_encode' :=
  (try_encode World subprocess_run getsize ffmpeg_path temp_out a local_in).
Local Abbreviation fallback' :=
  (encode_with_codec_fallback World subprocess_run getsize ffmpeg_path temp_out
     a preferred_codec fallback_codec local_in).
Local Abbreviation write' :=
  (write_final_output World replace_output temp_out a).
Local Abbreviation stage1' :=
  (stage1 World subprocess_run getsize replace_output ffmpeg_path temp_out
     is_s3_url a target_bytes preferred_codec fallback_codec local_in).
Local Abbreviation stage2' :=
  (stage2 World subprocess_run getsize replace_output ffmpeg_path temp_out
     is_s3_url a target_bytes preferred_codec fallback_codec local_in).
Local Abbreviation stage3' :=
  (stage3 World subprocess_run getsize replace_output ffmpeg_path temp_out
     is_s3_url a target_bytes preferred_codec fallback_codec local_in).
Local Abbreviation search' :=
  (search World subprocess_run getsize replace_output ffmpeg_path temp_out
     is_s3_url a target_bytes preferred_codec fallback_codec local_in).
Local Abbreviation cmd_for' := (cmd_for ffmpeg_path temp_out a local_in).
Local Abbreviation try_calls' := (try_calls ffmpeg_path temp_out a local_in).
Local Abbreviation attempt_calls' :=
  (attempt_calls ffmpeg_path temp_out a preferred_codec fallback_codec local_in).
Local Abbreviation loop_calls' :=
  (loop_calls ffmpeg_path temp_out is_s3_url a target_bytes preferred_codec
     fallback_codec local_in).
Local Abbreviation stage3_calls' :=
  (stage3_calls ffmpeg_path temp_out is_s3_url a target_bytes preferred_codec
     fallback_codec local_in).
Local Abbreviation search_calls' :=
  (search_calls ffmpeg_path temp_out is_s3_url a target_bytes preferred_codec
     fallback_codec local_in).
Local Abbreviation outcome' := (outcome is_s3_url a target_bytes).

Lemma try_encode_calls (c : string) (ps : Params.t) (w : World) (tr : list event) :
  exists evs r w',
    try_encode' c ps (w, tr) = (r, (w', tr ++ evs)) /\ try_calls' c ps evs r.
Proof.
  unfold try_encode, _encode_once, _run_ffmpeg, bind, lift, call, ret, raise.
  simpl.
  destruct (cmd_for' c ps) as [cmd|e] eqn:Hc.
  - destruct (subprocess_run cmd (Args.timeout_s a) w) as [r w1] eqn:Hr.
    destruct r as [| |stderr|msg]; simpl.
    + destruct (getsize temp_out w1) as [[n|] w2] eqn:Hg.
      * exists [EvEncode c ps cmd (Args.timeout_s a) Completed;
                EvGetsize temp_out (Ok n)], (Ok n), w2.
        rewrite <- app_assoc. split; [reflexivity|now constructor].
      * exists [EvEncode c ps cmd (Args.timeout_s a) Completed;
                EvGetsize temp_out (Raise (OSError "getsize"))],
          (Raise (OSError "getsize")), w2.
        rewrite <- app_assoc. split; [reflexivity|now constructor].
    + eexists _, _, _. split; [reflexivity|]. now apply try_failed.
    + eexists _, _, _. split; [reflexivity|]. now apply try_failed.
    + eexists _, _, _. split; [reflexivity|]. now apply try_failed.
  - exists [], (Raise e), w. rewrite app_nil_r.
    split; [reflexivity|now constructor].
Qed.

Lemma fallback_calls (ps : Params.t) (w : World) (tr : list event) :
  exists evs r w',
    fallback' ps (w, tr) = (r, (w', tr ++ evs)) /\ attempt_calls' ps evs r.
Proof.
  unfold encode_with_codec_fallback, except_ValueError, bind, ret, raise.
  destruct (try_encode_calls preferred_codec ps w tr)
    as (evs1 & r1 & w1 & E1 & C1).
  rewrite E1.
  destruct r1 as [n|e].
  - exists evs1, (Ok (preferred_codec, n)), w1.
    split; [reflexivity|now constructor].
  - destruct e as [msg|msg|msg| |msg];
      try (eexists evs1, _, w1; split;
           [reflexivity|apply attempt_fatal; [exact C1|now left]]).
    destruct fallback_codec as [fb|] eqn:Hfb.
    + destruct (str_truthy fb) eqn:Ht.
      * destruct (try_encode_calls fb ps w1 (tr ++ evs1))
          as (evs2 & r2 & w2 & E2 & C2).
        rewrite E2. rewrite <- app_assoc.
        exists (evs1 ++ evs2),
          (match r2 with Ok n => Ok (fb, n) | Raise e => Raise e end), w2.
        split; [destruct r2; reflexivity|].
        eapply attempt_retry; eauto.
        unfold usable_fallback. now rewrite Ht.
      * exists evs1, (Raise (ValueError msg)), w1.
        split; [reflexivity|]. apply attempt_fatal; [exact C1|].
        right. unfold usable_fallback. now rewrite Ht.
    + exists evs1, (Raise (ValueError msg)), w1.
      split; [reflexivity|]. apply attempt_fatal; [exact C1|].
      now right.
Qed.

Lemma write_calls (w : World) (tr : list event) :
  exists r w',
    write' (w, tr) = (r, (w', tr ++ [EvOutput (Args.output a) r])).
Proof.
  unfold write_final_output, bind, call, lift. simpl.
  destruct (replace_output (Args.output a) temp_out w) as [r w1].
  exists r, w1. destruct r; reflexivity.
Qed.

Lemma stage1_calls (cands : list (option Py.float)) :
  forall (attempts : list Attempt.t) (last_fps : option Py.float)
         (w : World) (tr : list event),
  exists evs r w',
    stage1' cands attempts last_fps (w, tr) = (r, (w', tr ++ evs))
    /\ loop_calls' (stage1_params a) "fps" cands attempts evs (forget_last r)
    /\ (forall attempts' l, r = Ok (inr (attempts', l)) -> l = last cands last_fps).
Proof.
  induction cands as [|f rest IH]; intros attempts last_fps w tr.
  - exists [], (Ok (inr (attempts, last_fps))), w. rewrite app_nil_r.
    split; [reflexivity|]. split; [constructor|].
    intros ? ? [= _ <-]. reflexivity.
  - simpl stage1. unfold bind at 1.
    destruct (fallback_calls (Params.mk f None (Some (Args.crf a)) None
                                (Args.audio_bitrate a)) w tr)
      as (evs1 & r1 & w1 & E1 & C1).
    rewrite E1. destruct r1 as [[c n]|e].
    + destruct (n <=? target_bytes) eqn:Hn.
      * unfold bind, ret.
        destruct (write_calls w1 (tr ++ evs1)) as (rw & w2 & E2).
        rewrite E2. rewrite <- app_assoc.
        destruct rw as [[]|e].
        -- eexists _, _, w2. split; [reflexivity|]. split.
           ++ exact (@loop_return ffmpeg_path temp_out is_s3_url a target_bytes
                       preferred_codec fallback_codec local_in _
                       (stage1_params a) "fps" f rest attempts evs1 c n C1 Hn).
           ++ discriminate.
        -- eexists _, _, w2. split; [reflexivity|]. split.
           ++ exact (@loop_unwritten ffmpeg_path temp_out is_s3_url a
                       target_bytes preferred_codec fallback_codec local_in _
                       (stage1_params a) "fps" f rest attempts evs1 c n e C1 Hn).
           ++ discriminate.
      * destruct (IH (attempts ++
                      [Attempt.mk f None c (Some (Args.crf a)) None
                         (Args.audio_bitrate a) n]) f w1 (tr ++ evs1))
          as (evs2 & r2 & w2 & E2 & C2 & L2).
        rewrite E2. rewrite <- app_assoc.
        exists (evs1 ++ evs2), r2, w2. split; [reflexivity|]. split.
        -- exact (@loop_next ffmpeg_path temp_out is_s3_url a target_bytes
                    preferred_codec fallback_codec local_in _
                    (stage1_params a) "fps" f rest attempts evs1 c n evs2
                    (forget_last r2) C1 Hn C2).
        -- intros attempts' l Hr. rewrite (L2 _ _ Hr).
           symmetry. apply last_cons.
    + exists evs1, (Raise e), w1. split; [reflexivity|]. split.
      * exact (@loop_fatal ffmpeg_path temp_out is_s3_url a target_bytes
                 preferred_codec fallback_codec local_in _
                 (stage1_params a) "fps" f rest attempts evs1 e C1).
      * discriminate.
Qed.

Lemma stage2_calls (last_fps : option Py.float) (cands : list (option Z)) :
  forall (attempts : list Attempt.t) (last_height : option Z)
         (w : World) (tr : list event),
  exists evs r w',
    stage2' last_fps cands attempts last_height (w, tr) = (r, (w', tr ++ evs))
    /\ loop_calls' (stage2_params a last_fps) "fps+scale" cands attempts evs
         (forget_last r)
    /\ (forall attempts' l,
          r = Ok (inr (attempts', l)) -> l = last cands last_height).
Proof.
  induction cands as [|h rest IH]; intros attempts last_height w tr.
  - exists [], (Ok (inr (attempts, last_height))), w. rewrite app_nil_r.
    split; [reflexivity|]. split; [constructor|].
    intros ? ? [= _ <-]. reflexivity.
  - simpl stage2. unfold bind at 1.
    destruct (fallback_calls (Params.mk last_fps h (Some (Args.crf a)) None
                                (Args.audio_bitrate a)) w tr)
      as (evs1 & r1 & w1 & E1 & C1).
    rewrite E1. destruct r1 as [[c n]|e].
    + destruct (n <=? target_bytes) eqn:Hn.
      * unfold bind, ret.
        destruct (write_calls w1 (tr ++ evs1)) as (rw & w2 & E2).
        rewrite E2. rewrite <- app_assoc.
        destruct rw as [[]|e].
        -- eexists _, _, w2. split; [reflexivity|]. split.
           ++ exact (@loop_return ffmpeg_path temp_out is_s3_url a target_bytes
                       preferred_codec fallback_codec local_in _
                       (stage2_params a last_fps) "fps+scale" h rest attempts
                       evs1 c n C1 Hn).
           ++ discriminate.
        -- eexists _, _, w2. split; [reflexivity|]. split.
           ++ exact (@loop_unwritten ffmpeg_path temp_out is_s3_url a
                       target_bytes preferred_codec fallback_codec local_in _
                       (stage2_params a last_fps) "fps+scale" h rest attempts
                       evs1 c n e C1 Hn).
           ++ discriminate.
      * destruct (IH (attempts ++
                      [Attempt.mk last_fps h c (Some (Args.crf a)) None
                         (Args.audio_bitrate a) n]) h w1 (tr ++ evs1))
          as (evs2 & r2 & w2 & E2 & C2 & L2).
        rewrite E2. rewrite <- app_assoc.
        exists (evs1 ++ evs2), r2, w2. split; [reflexivity|]. split.
        -- exact (@loop_next ffmpeg_path temp_out is_s3_url a target_bytes
                    preferred_codec fallback_codec local_in _
                    (stage2_params a last_fps) "fps+scale" h rest attempts
                    evs1 c n evs2 (forget_last r2) C1 Hn C2).
        -- intros attempts' l Hr. rewrite (L2 _ _ Hr).
           symmetry. apply last_cons.
    + exists evs1, (Raise e), w1. split; [reflexivity|]. split.
      * exact (@loop_fatal ffmpeg_path temp_out is_s3_url a target_bytes
                 preferred_codec fallback_codec local_in _
                 (stage2_params a last_fps) "fps+scale" h rest attempts evs1 e
                 C1).
      * discriminate.
Qed.

Lemma stage3_calls_run (p : ProbeResult.t) (attempts : list Attempt.t)
    (last_fps : option Py.float) (last_height : option Z)
    (w : World) (tr : list event) :
  exists evs r w',
    stage3' p attempts last_fps last_height (w, tr) = (r, (w', tr ++ evs))
    /\ stage3_calls' p attempts last_fps last_height evs r.
Proof.
  unfold stage3. unfold bind at 1. unfold lift at 1.
  destruct (target_video_bps_of target_bytes (ProbeResult.duration_s p)
              (Args.audio_bitrate a)) as [tv|e] eqn:Htv.
  2:{ exists [], (Raise e), w. rewrite app_nil_r. split; [reflexivity|].
      apply stage3_no_bitrate. unfold stage3_v_bitrate. now rewrite Htv. }
  unfold bind at 1. unfold lift at 1.
  destruct (v_bitrate_of tv) as [v|e] eqn:Hv.
  2:{ exists [], (Raise e), w. rewrite app_nil_r. split; [reflexivity|].
      apply stage3_no_bitrate. unfold stage3_v_bitrate. rewrite Htv.
      exact Hv. }
  assert (Hvb : stage3_v_bitrate a target_bytes p = Ok v).
  { unfold stage3_v_bitrate. rewrite Htv. exact Hv. }
  unfold bind at 1.
  destruct (fallback_calls
              (Params.mk (stage3_fps a last_fps)
                 (stage3_height a (input_h_of p) last_height) None (Some v)
                 (Args.audio_bitrate a)) w tr)
    as (evs1 & r1 & w1 & E1 & C1).
  rewrite E1. destruct r1 as [[c n]|e].
  - unfold bind, ret.
    destruct (write_calls w1 (tr ++ evs1)) as (rw & w2 & E2).
    rewrite E2. rewrite <- app_assoc.
    destruct rw as [[]|e].
    + eexists _, _, w2. split; [reflexivity|].
      exact (stage3_return ffmpeg_path temp_out is_s3_url a target_bytes
               preferred_codec fallback_codec local_in p attempts last_fps
               last_height v evs1 c n Hvb C1).
    + eexists _, _, w2. split; [reflexivity|].
      exact (stage3_unwritten ffmpeg_path temp_out is_s3_url a target_bytes
               preferred_codec fallback_codec local_in p attempts last_fps
               last_height v evs1 c n e Hvb C1).
  - exists evs1, (Raise e), w1. split; [reflexivity|].
    exact (stage3_fatal ffmpeg_path temp_out is_s3_url a target_bytes
             preferred_codec fallback_codec local_in p attempts last_fps
             last_height v evs1 e Hvb C1).
Qed.

Lemma search_calls_run (p : ProbeResult.t) (w : World) (tr : list event) :
  exists evs r w',
    search' p (w, tr) = (r, (w', tr ++ evs)) /\ search_calls' p evs r.
Proof.
  unfold search. unfold bind at 1.
  destruct (stage1_calls (fps_candidates (input_fps_of p) (Args.min_fps a))
              [] None w tr) as (evs1 & r1 & w1 & E1 & C1 & L1).
  rewrite E1. destruct r1 as [[out|[attempts1 last_fps]]|e].
  - exists evs1, (Ok out), w1. split; [reflexivity|].
    now apply search_stage1.
  - specialize (L1 _ _ eq_refl). simpl in C1.
    unfold bind at 1.
    destruct (stage2_calls last_fps
                (tl (height_candidates (input_h_of p) (Args.min_height a)))
                attempts1 None w1 (tr ++ evs1))
      as (evs2 & r2 & w2 & E2 & C2 & L2).
    rewrite E2. destruct r2 as [[out|[attempts2 last_height]]|e].
    + exists (evs1 ++ evs2), (Ok out), w2. rewrite app_assoc.
      split; [reflexivity|]. eapply search_stage2; eauto.
    + specialize (L2 _ _ eq_refl). simpl in C2.
      destruct (stage3_calls_run p attempts2 last_fps last_height w2
                  ((tr ++ evs1) ++ evs2)) as (evs3 & r3 & w3 & E3 & C3).
      rewrite E3.
      exists (evs1 ++ evs2 ++ evs3), r3, w3. rewrite !app_assoc.
      split; [reflexivity|]. rewrite <- app_assoc.
      eapply search_stage3; eauto.
    + exists (evs1 ++ evs2), (Raise e), w2. rewrite app_assoc.
      split; [reflexivity|]. eapply search_stage2_raise; eauto.
  - exists evs1, (Raise e), w1. split; [reflexivity|].
    now apply search_stage1_raise.
Qed.

End RunFacts.

Local Abbreviation run' :=
  (run World verify_ffmpeg_tools prepared_input probe_video subprocess_run
     getsize replace_output ffmpeg_path temp_out is_s3_url).
Local Abbreviation run_calls' := (run_calls ffmpeg_path temp_out is_s3_url).

Lemma run_calls_run (a : Args.t) (w : World) :
  exists evs r w', run' a w = (r, (w', evs)) /\ run_calls' a evs r.
Proof.
  unfold run, adaptive_compress_video.
  unfold bind at 1. unfold lift at 1.
  destruct (validate a) as [target_bytes|e] eqn:Hval.
  2:{ exists [], (Raise e), w. split; [reflexivity|now constructor]. }
  unfold bind at 1. unfold call at 1. simpl fst. simpl snd.
  destruct (verify_ffmpeg_tools w) as [v w1].
  unfold bind at 1. unfold lift at 1.
  destruct v as [[]|e].
  2:{ eexists _, _, w1. split; [reflexivity|]. eapply run_no_tools; eauto. }
  unfold bind at 1. unfold lift at 1.
  destruct (_pick_codec (Args.video_codec a)) as [[pref fb]|e] eqn:Hpick.
  2:{ eexists _, _, w1. split; [reflexivity|]. eapply run_bad_codec; eauto. }
  unfold bind at 1. unfold call at 1. simpl fst. simpl snd.
  destruct (prepared_input (Args.input_path a) w1) as [li w2].
  unfold bind at 1. unfold lift at 1.
  destruct li as [local_in|e].
  2:{ eexists _, _, w2. split; [reflexivity|]. eapply run_no_input; eauto. }
  unfold bind at 1. unfold call at 1. simpl fst. simpl snd.
  destruct (probe_video local_in w2) as [pr w3].
  unfold bind at 1. unfold lift at 1.
  destruct pr as [p|e].
  2:{ eexists _, _, w3. split; [reflexivity|]. eapply run_no_probe; eauto. }
  destruct (ProbeResult.has_video p) eqn:Hvid; cbn [negb].
  2:{ eexists _, _, w3. split; [reflexivity|]. eapply run_no_video; eauto. }
  destruct (negb (Py.truthy (ProbeResult.duration_s p))
            || Py.leb (ProbeResult.duration_s p) Py.zero) eqn:Hdur.
  { eexists _, _, w3. split; [reflexivity|]. eapply run_no_duration; eauto. }
  destruct (search_calls_run a target_bytes pref fb local_in p w3
              ([] ++ [EvVerifyTools (Ok tt)]
               ++ [EvPreparedInput (Args.input_path a) (Ok local_in)]
               ++ [EvProbe local_in (Ok p)]))
    as (evs & r & w4 & E & C).
  simpl app in E. simpl app. rewrite E.
  eexists _, r, w4. split; [reflexivity|].
  eapply run_search; eauto.
Qed.

Lemma run_returned (a : Args.t) (w w' : World) (tr : list event)
    (out : Outcome.t) :
  run' a w = (Ok out, (w', tr)) ->
  exists target_bytes preferred_codec fallback_codec local_in p evs,
    validate a = Ok target_bytes
    /\ _pick_codec (Args.video_codec a) = Ok (preferred_codec, fallback_codec)
    /\ tr = [EvVerifyTools (Ok tt);
             EvPreparedInput (Args.input_path a) (Ok local_in);
             EvProbe local_in (Ok p)]
            ++ evs ++ [EvOutput (Args.output a) (Ok tt)]
    /\ logged (cmd_for ffmpeg_path temp_out a local_in) temp_out
         (Args.timeout_s a) preferred_codec fallback_codec
         (Outcome.attempts out) evs
    /\ returned is_s3_url a target_bytes p out.
Proof.
  intros Hrun.
  destruct (run_calls_run a w) as (evs & r & w1 & E & C).
  rewrite E in Hrun. injection Hrun as -> -> ->.
  inversion C as [| | | | | | |B pref fb li p evs0 r0 Hv Hp Hvid Hdur Hs];
    subst.
  destruct (search_returned _ _ _ _ _ _ _ _ _ _ _ Hs) as (Hret & evs' & -> & Hlog).
  exists B, pref, fb, li, p, evs'. repeat split; auto.
Qed.

Lemma run_handled (a : Args.t) (w w' : World) (tr : list event)
    (r : res Outcome.t) (preferred_codec : string)
    (fallback_codec : option string) :
  run' a w = (r, (w', tr)) ->
  _pick_codec (Args.video_codec a) = Ok (preferred_codec, fallback_codec) ->
  failures_handled preferred_codec fallback_codec (raised_of r) tr.
Proof.
  intros Hrun Hpick.
  destruct (run_calls_run a w) as (evs & r1 & w1 & E & C).
  rewrite E in Hrun. injection Hrun as -> -> ->.
  inversion C as [| | | | | | |B pref fb li p evs0 r0 Hv Hp Hvid Hdur Hs];
    subst; try exact I.
  rewrite Hpick in Hp. injection Hp as <- <-.
  simpl. eapply search_handled; eauto.
  eapply pick_codec_differs; eauto.
Qed.

Lemma probe_of_run (a : Args.t) (tr evs : list event) (local_in li : string)
    (p q : ProbeResult.t) (preferred_codec : string)
    (fallback_codec : option string) (attempts : list Attempt.t)
    (cmd_of : string -> Params.t -> res (list string)) :
  tr = [EvVerifyTools (Ok tt);
        EvPreparedInput (Args.input_path a) (Ok local_in);
        EvProbe local_in (Ok p)]
       ++ evs ++ [EvOutput (Args.output a) (Ok tt)] ->
  logged cmd_of temp_out (Args.timeout_s a) preferred_codec fallback_codec
    attempts evs ->
  In (EvProbe li (Ok q)) tr -> li = local_in /\ q = p.
Proof.
  intros -> Hlog Hin. simpl in Hin.
  destruct Hin as [Hin|[Hin|[Hin|Hin]]]; try discriminate.
  - now injection Hin as <- <-.
  - apply in_app_or in Hin as [Hin|[Hin|[]]]; [|discriminate].
    apply logged_no_probe in Hlog. rewrite Forall_forall in Hlog.
    specialize (Hlog _ Hin). discriminate.
Qed.

(** C4. When the attempt logged at position i+1, for i+1 at most the number
    of frame-rate candidates, is within the budget, the run returned from
    stage 1 there: the strategy is "fps", success is true, the final size is
    that attempt's, the log has exactly i+1 entries, all earlier ones above
    the budget, the attempt is the (i+1)-th frame-rate candidate at the
    source height, and the calls end with its encode, the size read, and
    the write of the output. *)
Theorem C4_first_fps_success (a : Args.t) (w w' : World) (tr : list event)
    (out : Outcome.t) (li : string) (p : ProbeResult.t) (i : nat)
    (att : Attempt.t) :
  run' a w = (Ok out, (w', tr)) ->
  In (EvProbe li (Ok p)) tr ->
  (i < List.length (fps_candidates (input_fps_of p) (Args.min_fps a)))%nat ->
  nth_error (Outcome.attempts out) i = Some att ->
  Attempt.output_bytes att <= Outcome.target_bytes out ->
  Outcome.strategy out = "fps"
  /\ Outcome.success out = true
  /\ Outcome.actual_bytes out = Attempt.output_bytes att
  /\ List.length (Outcome.attempts out) = S i
  /\ (forall j att', (j < i)%nat ->
        nth_error (Outcome.attempts out) j = Some att' ->
        Outcome.target_bytes out < Attempt.output_bytes att')
  /\ params_of att
     = stage1_params a
         (nth i (fps_candidates (input_fps_of p) (Args.min_fps a)) None)
  /\ exists pre cmd,
       tr = pre ++ [EvEncode (Attempt.video_codec att) (params_of att) cmd
                      (Args.timeout_s a) Completed;
                    EvGetsize temp_out (Ok (Attempt.output_bytes att));
                    EvOutput (Args.output a) (Ok tt)].
Proof.
  intros Hrun Hprobe Hi Hnth Hle.
  destruct (run_returned _ _ _ _ _ Hrun)
    as (B & pref & fb & li0 & p0 & evs & Hv & Hp & Htr & Hlog & Hret).
  destruct (probe_of_run _ _ _ _ _ _ _ _ _ _ _ Htr Hlog Hprobe) as [-> ->].
  clear Hprobe.
  destruct Hret as [done x rest new att0 Hc Hps Hov Hp0 Hle0
                   |attempts1 last_fps done h rest new att0 Hps1 Hov1 Hlf Hc
                      Hps Hov Hp0 Hle0
                   |attempts1 last_fps attempts2 last_height v att0 Hps1 Hov1
                      Hlf Hps2 Hov2 Hlh Hv3 Hp0];
    simpl in Hnth, Hle, Hlog |- *.
  - assert (Hlen : List.length new = List.length done)
      by (symmetry; eapply Forall2_length; eauto).
    assert (Hi' : i = List.length new).
    { destruct (Nat.lt_trichotomy i (List.length new)) as [Hlt|[Heq|Hgt]]; auto.
      - rewrite nth_error_app1 in Hnth by exact Hlt.
        pose proof (over_budget_nth _ _ _ _ Hov Hnth). lia.
      - assert (Hnone : nth_error (new ++ [att0]) i = None).
        { apply nth_error_None. rewrite length_app. simpl. lia. }
        rewrite Hnone in Hnth. discriminate. }
    subst i. rewrite nth_error_app2, Nat.sub_diag in Hnth by lia.
    injection Hnth as ->.
    repeat split; auto.
    + rewrite length_app. simpl. lia.
    + intros j att' Hj Hn. rewrite nth_error_app1 in Hn by exact Hj.
      eapply over_budget_nth; eauto.
    + rewrite Hp0, Hc, Hlen, nth_middle. reflexivity.
    + destruct (logged_last _ _ _ _ _ _ _ _ Hlog) as (pre & cmd & -> & _).
      exists ([EvVerifyTools (Ok tt);
               EvPreparedInput (Args.input_path a) (Ok li0);
               EvProbe li0 (Ok p0)] ++ pre), cmd.
      subst tr. rewrite <- !app_assoc. reflexivity.
  - exfalso.
    assert (Hlen : List.length attempts1
                   = List.length (fps_candidates (input_fps_of p0) (Args.min_fps a)))
      by (symmetry; eapply Forall2_length; eauto).
    rewrite nth_error_app1 in Hnth by lia.
    pose proof (over_budget_nth _ _ _ _ Hov1 Hnth). lia.
  - exfalso.
    assert (Hlen : List.length attempts1
                   = List.length (fps_candidates (input_fps_of p0) (Args.min_fps a)))
      by (symmetry; eapply Forall2_length; eauto).
    rewrite nth_error_app1 in Hnth by lia.
    pose proof (over_budget_nth _ _ _ _ Hov1 Hnth). lia.
Qed.

(** C1 (amended). A failed encode call is followed by exactly one further
    call - the same request with the fallback codec - when its error is a
    [ValueError], it used the preferred codec and the preference is auto. A
    [ValueError] is what [_run_ffmpeg] raises for a timeout and for a failed
    process alike, and what [subprocess.run] raises itself for an argument
    with a null byte or for output that does not decode as text
    ([proc_error] gives the error of a call). In every other case (an error
    that is no [ValueError], such as the [OSError] of a program that cannot
    be started; a failure of the fallback codec; an explicit codec) the
    failed call is the last call of the run, and the run raises its
    error. *)
Theorem C1_failed_encode_retried_or_fatal (a : Args.t) (w w' : World)
    (tr : list event) (r : res Outcome.t) (pre post : list event)
    (c : string) (ps : Params.t) (cmd : list string) (t : Z) (pr : proc)
    (e : exn) :
  run' a w = (r, (w', tr)) ->
  tr = pre ++ EvEncode c ps cmd t pr :: post ->
  proc_error pr = Some e ->
  exists preferred_codec fallback_codec,
    _pick_codec (Args.video_codec a) = Ok (preferred_codec, fallback_codec)
    /\ match retry_codec preferred_codec fallback_codec c e with
       | Some fb =>
           c = "libx265" /\ fb = "libx264"
           /\ exists cmd' pr' post', post = EvEncode fb ps cmd' t pr' :: post'
       | None => post = [] /\ r = Raise e
       end.
Proof.
  intros Hrun Htr Hp.
  assert (Hpick : exists pref fb,
             _pick_codec (Args.video_codec a) = Ok (pref, fb)).
  { destruct (run_calls_run a w) as (evs & r1 & w1 & E & C).
    rewrite E in Hrun. injection Hrun as Er Ew Et.
    assert (Hin : In (EvEncode c ps cmd t pr) evs)
      by (rewrite Et, Htr; apply in_elt).
    clear - C Hin.
    inversion C as [| | | | | | |B pref fb li p evs0 r0 Hv Hpk Hvid Hdur Hs];
      subst evs; try (simpl in Hin; intuition discriminate).
    now exists pref, fb. }
  destruct Hpick as (pref & fb & Hpick). exists pref, fb. split; [exact Hpick|].
  pose proof (run_handled _ _ _ _ _ _ _ Hrun Hpick) as Hh. rewrite Htr in Hh.
  pose proof (handled_at _ _ _ _ _ _ _ _ _ _ _ Hh Hp) as Hat.
  destruct (retry_codec pref fb c e) as [fbc|] eqn:Hrc.
  - unfold retry_codec in Hrc.
    destruct (is_ValueError e && (c =? pref)%string) eqn:Hc; [|discriminate].
    apply andb_true_iff in Hc as [_ Hc]. apply String.eqb_eq in Hc. subst c.
    destruct (pick_codec_cases _ _ _ Hpick) as [[-> ->]| ->];
      [|discriminate].
    injection Hrc as <-. auto.
  - destruct Hat as [-> Hr]. split; [reflexivity|].
    destruct r; [discriminate|]. now injection Hr as ->.
Qed.

(** C5. The calls of a run that returns are the tool check, the input, the
    probe, then one group of calls per logged attempt in the order of the
    log, then the write of the output: nothing is logged that was not
    encoded, and nothing encoded is left out. The group of an attempt is one
    completed encode with the preferred codec, or a failed encode with the
    preferred codec followed by a completed one with the fallback codec that
    the entry records; so an entry with the fallback codec stands for
    exactly two encode calls, any other for one. *)
Theorem C5_log_matches_calls (a : Args.t) (w w' : World) (tr : list event)
    (out : Outcome.t) :
  run' a w = (Ok out, (w', tr)) ->
  exists preferred_codec fallback_codec local_in p evs,
    _pick_codec (Args.video_codec a) = Ok (preferred_codec, fallback_codec)
    /\ tr = [EvVerifyTools (Ok tt);
             EvPreparedInput (Args.input_path a) (Ok local_in);
             EvProbe local_in (Ok p)]
            ++ evs ++ [EvOutput (Args.output a) (Ok tt)]
    /\ logged (cmd_for ffmpeg_path temp_out a local_in) temp_out
         (Args.timeout_s a) preferred_codec fallback_codec
         (Outcome.attempts out) evs
    /\ List.length (filter is_encode tr)
       = (List.length (Outcome.attempts out)
          + List.length
              (filter
                 (fun att =>
                    negb (String.eqb (Attempt.video_codec att) preferred_codec))
                 (Outcome.attempts out)))%nat.
Proof.
  intros Hrun.
  destruct (run_returned _ _ _ _ _ Hrun)
    as (B & pref & fb & li & p & evs & Hv & Hp & Htr & Hlog & Hret).
  exists pref, fb, li, p, evs. repeat split; auto.
  rewrite Htr. simpl. rewrite filter_app, length_app. simpl.
  rewrite (logged_encodes _ _ _ _ _ _ _ (pick_codec_differs _ _ _ Hp) Hlog).
  lia.
Qed.


(** X8. When the run returns from the bitrate stage, its last encode has
    a bitrate and no CRF, and its command line carries the bitrate string as
    [-b:v], [-maxrate] and [-bufsize] after the codec; its height is the
    last resolution candidate, which is keep when stage 2 had none; its
    frame rate is the last frame-rate candidate when that is a frame rate,
    and [min_fps] when it is keep, whether or not [min_fps] is below the
    input's frame rate (stage 1 always runs; its last candidate is keep when
    no candidate is below the input frame rate). Every logged attempt has
    either a CRF and no bitrate, or a bitrate and no CRF. *)
Theorem bitrate_stage_parameters (a : Args.t) (w w' : World)
    (tr : list event) (out : Outcome.t) (li : string) (p : ProbeResult.t) :
  run' a w = (Ok out, (w', tr)) ->
  In (EvProbe li (Ok p)) tr ->
  Outcome.strategy out = "fps+scale+bitrate" ->
  exists pre c cmd n v before after,
    tr = pre ++ [EvEncode c
                   (Params.mk
                      (Some
                         match
                           last (fps_candidates (input_fps_of p) (Args.min_fps a))
                             None
                         with
                         | Some f => f
                         | None => Args.min_fps a
                         end)
                      (last (height_candidates (input_h_of p) (Args.min_height a))
                         None)
                      None (Some v) (Args.audio_bitrate a))
                   cmd (Args.timeout_s a) Completed;
                 EvGetsize temp_out (Ok n);
                 EvOutput (Args.output a) (Ok tt)]
    /\ stage3_v_bitrate a (Outcome.target_bytes out) p = Ok v
    /\ cmd = before
             ++ ["-c:v"; c; "-b:v"; v; "-maxrate"; v; "-bufsize"; v] ++ after
    /\ Forall
         (fun att =>
            (Attempt.crf att = Some (Args.crf a)
             /\ Attempt.video_bitrate att = None)
            \/ (Attempt.crf att = None /\ Attempt.video_bitrate att = Some v))
         (Outcome.attempts out).
Proof.
  intros Hrun Hprobe Hstrategy.
  destruct (run_returned _ _ _ _ _ Hrun)
    as (B & pref & fb & li0 & p0 & evs & Hv & Hp & Htr & Hlog & Hret).
  destruct (probe_of_run _ _ _ _ _ _ _ _ _ _ _ Htr Hlog Hprobe) as [-> ->].
  clear Hprobe.
  destruct Hret as [done x rest new att0 Hc Hps Hov Hp0 Hle0
                   |attempts1 last_fps done h rest new att0 Hps1 Hov1 Hlf Hc
                      Hps Hov Hp0 Hle0
                   |attempts1 last_fps attempts2 last_height v att0 Hps1 Hov1
                      Hlf Hps2 Hov2 Hlh Hv3 Hp0];
    simpl in Hstrategy, Hlog |- *; try discriminate.
  rewrite app_assoc in Hlog.
  destruct (logged_last _ _ _ _ _ _ _ _ Hlog) as (pre & cmd & -> & Hcmd).
  rewrite Hp0 in Hcmd.
  destruct (encode_cmd_shape _ _ _ _ _ _ _ _ _ _ _ _ _ Hcmd)
    as (rc & before & after & Hrc & ->).
  simpl in Hrc. apply rate_control_bitrate in Hrc. subst rc.
  exists ([EvVerifyTools (Ok tt);
           EvPreparedInput (Args.input_path a) (Ok li0);
           EvProbe li0 (Ok p0)] ++ pre),
    (Attempt.video_codec att0),
    (before ++ "-c:v" :: Attempt.video_codec att0
            :: ["-b:v"; v; "-maxrate"; v; "-bufsize"; v] ++ after),
    (Attempt.output_bytes att0), v, before, after.
  split.
  { subst tr. rewrite <- !app_assoc. rewrite Hp0. unfold bitrate_params.
    replace (stage3_fps a last_fps)
      with (Some match last_fps with Some f => f | None => Args.min_fps a end)
      by (unfold stage3_fps; now destruct last_fps).
    subst last_fps last_height.
    replace (last (height_candidates (input_h_of p0) (Args.min_height a)) None)
      with (last (tl (height_candidates (input_h_of p0) (Args.min_height a)))
              None); [reflexivity|].
    destruct (height_candidates (input_h_of p0) (Args.min_height a))
      as [|c0 t0] eqn:Hh; [reflexivity|].
    simpl tl. rewrite last_cons.
    pose (q := ProbeResult.mk Py.zero EmptyString 0 true true None None
                 (Some (input_h_of p0)) None None).
    assert (Hq : height_candidates (input_h_of q) (Args.min_height a)
                 = c0 :: t0) by exact Hh.
    rewrite height_candidates_spec in Hq. unfold spec_height_candidates in Hq.
    simpl in Hq. destruct (input_h_of p0 =? 0); now injection Hq as <- _. }
  split; [exact Hv3|]. split; [reflexivity|].
  apply Forall_app. split; [|apply Forall_app; split].
  - eapply Forall2_Forall_r; [|exact Hps1]. intros y att' Hy. simpl in Hy.
    left. split; [exact (f_equal Params.crf_value Hy)
                 |exact (f_equal Params.v_bitrate Hy)].
  - eapply Forall2_Forall_r; [|exact Hps2]. intros y att' Hy. simpl in Hy.
    left. split; [exact (f_equal Params.crf_value Hy)
                 |exact (f_equal Params.v_bitrate Hy)].
  - constructor; [|constructor]. right.
    split; [exact (f_equal Params.crf_value Hp0)
           |exact (f_equal Params.v_bitrate Hp0)].
Qed.

(** C7. The resolution candidates are keep, followed by those of 2160,
    1440, 1080, 720 and Hmin, in that order, that are strictly below the
    input height H and at least Hmin, each kept once; Hmin is among them
    whenever it is below H; when the probe reports no height the list is
    keep alone, and the stage-2 loop over its tail makes no call and leaves
    the log as it is. *)
Theorem C7_height_candidates (a : Args.t) (target_bytes : Z)
    (preferred_codec : string) (fallback_codec : option string)
    (local_in : string) (p : ProbeResult.t) (last_fps : option Py.float)
    (attempts : list Attempt.t) (st : state World) :
  let H := input_h_of p in
  let Hmin := Args.min_height a in
  height_candidates H Hmin
  = spec_height_candidates (ProbeResult.video_height p) Hmin
  /\ hd_error (height_candidates H Hmin) = Some None
  /\ (H <> 0 -> Hmin < H -> In (Some Hmin) (height_candidates H Hmin))
  /\ (ProbeResult.video_height p = None ->
      height_candidates H Hmin = [None]
      /\ stage2 World subprocess_run getsize replace_output ffmpeg_path
           temp_out is_s3_url a target_bytes preferred_codec fallback_codec
           local_in last_fps (tl (height_candidates H Hmin)) attempts None st
         = (Ok (inr (attempts, None)), st)).
Proof.
  intros H Hmin. split; [apply height_candidates_spec|].
  split.
  { unfold H. rewrite height_candidates_spec. unfold spec_height_candidates.
    destruct (ProbeResult.video_height p) as [h|]; [|reflexivity].
    destruct (h =? 0); reflexivity. }
  split.
  { intros H0 Hlt.
    assert (Hp : present Z.eqb Hmin (height_candidates H Hmin) = true).
    { unfold height_candidates.
      set (l := fold_left _ _ _).
      assert (Hl : present Z.eqb Hmin l = true).
      { change (present Z.eqb Hmin
                  (ladder_step
                     (fun h => negb (H =? 0) && (h <? H) && (Hmin <=? h)) Z.eqb
                     (fold_left
                        (ladder_step
                           (fun h => negb (H =? 0) && (h <? H) && (Hmin <=? h))
                           Z.eqb)
                        [2160; 1440; 1080; 720] [None]) Hmin) = true).
        apply ladder_step_present; [|apply Z.eqb_refl].
        apply Z.eqb_neq in H0. apply Z.ltb_lt in Hlt.
        rewrite H0, Hlt. apply Z.leb_refl. }
      destruct (negb (H =? 0) && (Hmin <? H) && negb (int_in Hmin l));
        [|exact Hl].
      rewrite present_app, Hl. reflexivity. }
    unfold present in Hp. apply existsb_exists in Hp.
    destruct Hp as ([g|] & Hin & Hg); [|discriminate].
    apply Z.eqb_eq in Hg. now subst g. }
  intros Hnone.
  assert (Hl : height_candidates H Hmin = [None]).
  { unfold H. rewrite height_candidates_spec, Hnone. reflexivity. }
  split; [exact Hl|]. rewrite Hl. destruct st. reflexivity.
Qed.

(** C9. When both or neither of [target_bytes] and [target_mb] are given,
    or [min_fps <= 0], or [min_height <= 0], or [timeout_s <= 0], the run
    raises one of the validation's errors, and it does so before any call to
    the outside world: the trace is empty and the world is unchanged. *)
Theorem C9_invalid_arguments_rejected_first (a : Args.t) (w : World) :
  is_None (Args.target_bytes a) = is_None (Args.target_mb a)
  \/ Py.leb (Args.min_fps a) Py.zero = true
  \/ Args.min_height a <= 0
  \/ Args.timeout_s a <= 0 ->
  exists e,
    run' a w = (Raise e, (w, [])) /\ In e configuration_errors.
Proof.
  intros H. destruct (validate_rejects a H) as (e & Hv & Hin).
  exists e. split; [|exact Hin].
  unfold run, adaptive_compress_video, bind, lift. now rewrite Hv.
Qed.

End Facts.

(** ** Bitrate derivation *)

Lemma bindR_Ok {A B : Type} (c : res A) (k : A -> res B) (b : B) :
  bindR c k = Ok b <-> exists x, c = Ok x /\ k x = Ok b.
Proof.
  destruct c as [x|e]; simpl; split.
  - intros H. now exists x.
  - now intros (y & [= <-] & H).
  - discriminate.
  - now intros (y & H & _).
Qed.

Lemma mul_int_1000 (x : Py.float) :
  Py.mul_int x 1000 = Ok (Py.mul x (Py.lit 1000)).
Proof. reflexivity. Qed.

Lemma mul_int_1000000 (x : Py.float) :
  Py.mul_int x 1000000 = Ok (Py.mul x (Py.lit 1000000)).
Proof. reflexivity. Qed.

(** C2 (amended). The video bitrate of the bitrate stage is
    [max(200000, int(int(B*8 / max(0.1, D)) * 0.95) - a_bps)] in double
    arithmetic: the total bits per second are truncated to an integer before
    the 0.95 headroom is applied, and the product is truncated again. For a
    string that ends in [k] or [K], the audio bits per second are the float
    read from the rest of the string, times 1000, truncated; for one that
    ends in [m] or [M], the same with 1000000; for any other string, the
    integer it reads as. They are 128000 whenever that fails: the rest of
    the string is no float literal, the scaled value is infinite or not a
    number, or the string is no integer literal. The result is at least
    200000, and is a function of B, D and the audio string alone. *)
Theorem C2_video_bitrate_truncates_twice (B : Z) (D : Py.float) (A : string) :
  (forall v,
     target_video_bps_of B D A = Ok v <->
     exists n q total_bps t headroom,
       Py.float_of_int (B * 8) = Ok n
       /\ Py.truediv n (Py.max (Py.lit 0.1) D) = Ok q
       /\ Py.int_of_float q = Ok total_bps
       /\ Py.float_of_int total_bps = Ok t
       /\ Py.int_of_float (Py.mul t (Py.lit 0.95)) = Ok headroom
       /\ v = Z.max 200000 (headroom - a_bps_of A))
  /\ (forall v, target_video_bps_of B D A = Ok v -> 200000 <= v)
  /\ (Py.endswith_char (Py.lower A) "k" = true ->
      a_bps_of A
      = match Py.float_of_str (Py.drop_last A) with
        | Ok x =>
            match Py.int_of_float (Py.mul x (Py.lit 1000)) with
            | Ok z => z
            | Raise _ => 128000
            end
        | Raise _ => 128000
        end)
  /\ (Py.endswith_char (Py.lower A) "k" = false ->
      Py.endswith_char (Py.lower A) "m" = true ->
      a_bps_of A
      = match Py.float_of_str (Py.drop_last A) with
        | Ok x =>
            match Py.int_of_float (Py.mul x (Py.lit 1000000)) with
            | Ok z => z
            | Raise _ => 128000
            end
        | Raise _ => 128000
        end)
  /\ (Py.endswith_char (Py.lower A) "k" = false ->
      Py.endswith_char (Py.lower A) "m" = false ->
      a_bps_of A
      = match Py.int_of_str A with Ok z => z | Raise _ => 128000 end).
Proof.
  split; [|split; [|split; [|split]]].
  - intros v. unfold target_video_bps_of, total_bps_of. split.
    + intros H.
      apply bindR_Ok in H as (total & H & H').
      apply bindR_Ok in H as (n & Hn & H).
      apply bindR_Ok in H as (q & Hq & Ht).
      apply bindR_Ok in H' as (t & Hf & H').
      apply bindR_Ok in H' as (headroom & Hh & [= <-]).
      now exists n, q, total, t, headroom.
    + intros (n & q & total & t & headroom & Hn & Hq & Ht & Hf & Hh & ->).
      rewrite Hn. cbn [bindR]. rewrite Hq. cbn [bindR]. rewrite Ht.
      cbn [bindR]. rewrite Hf. cbn [bindR]. rewrite Hh. reflexivity.
  - intros v H. unfold target_video_bps_of in H.
    apply bindR_Ok in H as (total & _ & H).
    apply bindR_Ok in H as (t & _ & H).
    apply bindR_Ok in H as (headroom & _ & [= <-]). lia.
  - intros Hk. unfold a_bps_of. rewrite Hk.
    destruct (Py.float_of_str (Py.drop_last A)) as [x|e]; [|reflexivity].
    cbn [bindR]. rewrite mul_int_1000. reflexivity.
  - intros Hk Hm. unfold a_bps_of. rewrite Hk, Hm.
    destruct (Py.float_of_str (Py.drop_last A)) as [x|e]; [|reflexivity].
    cbn [bindR]. rewrite mul_int_1000000. reflexivity.
  - intros Hk Hm. unfold a_bps_of. now rewrite Hk, Hm.
Qed.

(** Audio bitrates that do not parse, or whose value is infinite or not a
    number, count as 128000; so does a number with a separator character
    (0x1c to 0x1f) next to it, which [strip()] would remove and [float()]
    and [int()] do not accept. *)
Lemma a_bps_of_unparsable :
  a_bps_of "k" = 128000
  /\ a_bps_of "fastk" = 128000
  /\ a_bps_of "infk" = 128000
  /\ a_bps_of "nanM" = 128000
  /\ a_bps_of "1e306k" = 128000
  /\ a_bps_of "64 000" = 128000
  /\ a_bps_of (String (ascii_of_nat 28) ("7" ++ String (ascii_of_nat 31) "k"))
     = 128000
  /\ a_bps_of (String (ascii_of_nat 28) "64000") = 128000.
Proof. repeat split; vm_compute; reflexivity. Qed.

Lemma a_bps_of_parsable :
  a_bps_of "128k" = 128000
  /\ a_bps_of "96K" = 96000
  /\ a_bps_of "1.5m" = 1500000
  /\ a_bps_of " 7 k" = 7000
  /\ a_bps_of " 64_000 " = 64000
  /\ a_bps_of "-5k" = -5000.
Proof. repeat split; vm_compute; reflexivity. Qed.

(** C2, as claimed: with a budget of 500002 bytes, 10 seconds and ["128k"],
    the formula with a single rounding down gives 252001 (in exact and in
    double arithmetic), the code computes 252000. *)
Lemma C2_counterexample :
  claimed_video_bps 500002 (Py.lit 10) (a_bps_of "128k") = 252001
  /\ claimed_video_bps_double 500002 (Py.lit 10) (a_bps_of "128k") = Ok 252001
  /\ target_video_bps_of 500002 (Py.lit 10) "128k" = Ok 252000.
Proof. repeat split; vm_compute; reflexivity. Qed.

(** ** The division by 1000 of the bitrate string, in double arithmetic *)

Lemma pow2_step (d : Z) : 0 < d -> 2 ^ d = 2 * 2 ^ (d - 1).
Proof.
  intros Hd. replace d with (Z.succ (d - 1)) at 1 by lia.
  apply Z.pow_succ_r. lia.
Qed.

Lemma digits2_pos_bounds (p : positive) :
  2 ^ (Zpos (digits2_pos p) - 1) <= Zpos p < 2 ^ Zpos (digits2_pos p).
Proof.
  induction p as [p IH|p IH|]; simpl digits2_pos;
    [rewrite Pos2Z.inj_succ; change (Zpos p~1) with (2 * Zpos p + 1)
    |rewrite Pos2Z.inj_succ; change (Zpos p~0) with (2 * Zpos p)
    |simpl; lia];
    pose proof (Pos2Z.is_pos (digits2_pos p)) as Hd;
    revert IH Hd; generalize (Zpos (digits2_pos p)); intros d IH Hd;
    pose proof (pow2_step d Hd) as H1;
    pose proof (pow2_step (Z.succ d) ltac:(lia)) as H2;
    replace (Z.succ d - 1) with d in * by lia;
    revert IH H1 H2; generalize (2 ^ Z.succ d) (2 ^ d) (2 ^ (d - 1)); intros; lia.
Qed.

Lemma digits2_pos_unique (p : positive) (d : Z) :
  2 ^ (d - 1) <= Zpos p < 2 ^ d -> Zpos (digits2_pos p) = d.
Proof.
  intros H. pose proof (digits2_pos_bounds p) as B.
  assert (Hd : 0 < d).
  { destruct (Z_lt_le_dec 0 d) as [|Hn]; [assumption|].
    exfalso. destruct (Z.eq_dec d 0) as [->|]; [simpl in H; lia|].
    rewrite (Z.pow_neg_r 2 d) in H by lia. lia. }
  pose proof (Pos2Z.is_pos (digits2_pos p)) as Hp.
  revert B Hp. generalize (Zpos (digits2_pos p)). intros n B Hp.
  destruct (Z_lt_le_dec n d) as [L|L].
  - assert (2 ^ n <= 2 ^ (d - 1)) by (apply Z.pow_le_mono_r; lia). lia.
  - destruct (Z_lt_le_dec d n) as [L'|L']; [|lia].
    assert (2 ^ d <= 2 ^ (n - 1)) by (apply Z.pow_le_mono_r; lia). lia.
Qed.

Lemma shr_1_m (m : Z) (r s : bool) :
  0 <= m -> shr_m (shr_1 (Build_shr_record m r s)) = m / 2.
Proof.
  intros Hm. destruct m as [|p|p]; [reflexivity| |lia].
  destruct p as [p|p|]; cbn [shr_1 shr_m].
  - change (Zpos p~1) with (2 * Zpos p + 1).
    apply Z.div_unique with 1; lia.
  - change (Zpos p~0) with (2 * Zpos p).
    apply Z.div_unique with 0; lia.
  - reflexivity.
Qed.

Lemma round_nearest_even_cases (m : Z) (l : location) :
  round_nearest_even m l = m \/ round_nearest_even m l = m + 1.
Proof.
  destruct l as [|[]]; simpl; auto. destruct (Z.even m); auto.
Qed.

Lemma shr_m_of_loc (m : Z) (l : location) : shr_m (shr_record_of_loc m l) = m.
Proof. destruct l as [|[]]; reflexivity. Qed.

Lemma shr_fexp_53 (q e : Z) (l : location) :
  2 ^ 52 <= q < 2 ^ 53 -> -1000 <= e ->
  shr_fexp prec emax q e l = (shr_record_of_loc q l, e).
Proof.
  intros Hq He. destruct q as [|p|p]; try lia.
  unfold shr_fexp, Zdigits2. rewrite (digits2_pos_unique p 53) by exact Hq.
  unfold fexp, emin, prec, emax.
  replace (Z.max (53 + e - 53) (3 - 1024 - 53) - e) with 0 by lia.
  reflexivity.
Qed.

Lemma shr_fexp_54 (q e : Z) (l : location) :
  2 ^ 53 <= q < 2 ^ 54 -> -1000 <= e ->
  shr_fexp prec emax q e l = (shr_1 (shr_record_of_loc q l), e + 1).
Proof.
  intros Hq He. destruct q as [|p|p]; try lia.
  unfold shr_fexp, Zdigits2. rewrite (digits2_pos_unique p 54) by exact Hq.
  unfold fexp, emin, prec, emax.
  replace (Z.max (54 + e - 53) (3 - 1024 - 53) - e) with 1 by lia.
  reflexivity.
Qed.

Lemma binary_round_aux_finish (sx : bool) (mx ex : Z) (lx : location) :
  binary_round_aux prec emax sx mx ex lx =
  round_finish sx (shr_fexp prec emax
               (round_nearest_even
                  (shr_m (fst (shr_fexp prec emax mx ex lx)))
                  (loc_of_shr_record (fst (shr_fexp prec emax mx ex lx))))
               (snd (shr_fexp prec emax mx ex lx)) loc_Exact).
Proof.
  unfold binary_round_aux, round_finish.
  destruct (shr_fexp prec emax mx ex lx) as [mrs' e']. simpl fst. simpl snd.
  destruct (shr_fexp prec emax _ e' loc_Exact) as [mrs'' e'']. reflexivity.
Qed.

Lemma round_finish_renormalise (sx : bool) (m e : Z) :
  2 ^ 52 <= m <= 2 ^ 53 -> -1000 <= e <= -1 ->
  exists m3 e3,
    round_finish sx (shr_fexp prec emax m e loc_Exact) = S754_finite sx m3 e3
    /\ Zpos m3 * 2 ^ (e3 - e) = m /\ e <= e3 <= e + 1.
Proof.
  intros Hm He. destruct (Z_lt_le_dec m (2 ^ 53)) as [L|L].
  - rewrite shr_fexp_53 by lia. unfold round_finish. simpl shr_m.
    destruct m as [|p|p]; try lia.
    replace (e <=? emax - prec) with true
      by (symmetry; apply Z.leb_le; unfold emax, prec; lia).
    exists p, e. replace (e - e) with 0 by lia.
    split; [reflexivity|]. change (2 ^ 0) with 1. lia.
  - assert (m = 2 ^ 53) as -> by lia.
    rewrite shr_fexp_54 by lia. unfold round_finish.
    replace (e + 1 <=? emax - prec) with true
      by (symmetry; apply Z.leb_le; unfold emax, prec; lia).
    simpl shr_m. eexists _, (e + 1). split; [reflexivity|].
    replace (e + 1 - e) with 1 by lia. split; [reflexivity|lia].
Qed.

Lemma binary_round_aux_near (sx : bool) (q e : Z) (l : location) :
  2 ^ 52 <= q < 2 ^ 54 -> -1000 <= e <= -2 ->
  exists m3 e3 n m2,
    binary_round_aux prec emax sx q e l = S754_finite sx m3 e3
    /\ (n = 0 \/ n = 1) /\ (q < 2 ^ 53 -> n = 0)
    /\ q / 2 ^ n <= m2 <= q / 2 ^ n + 1
    /\ Zpos m3 * 2 ^ (e3 - e - n) = m2 /\ e + n <= e3 <= e + n + 1.
Proof.
  intros Hq He. rewrite binary_round_aux_finish.
  destruct (Z_lt_le_dec q (2 ^ 53)) as [L|L].
  - rewrite (shr_fexp_53 q e l) by lia. simpl fst. simpl snd.
    rewrite shr_m_of_loc.
    set (m2 := round_nearest_even q _).
    assert (Hm2 : m2 = q \/ m2 = q + 1) by apply round_nearest_even_cases.
    clearbody m2.
    destruct (round_finish_renormalise sx m2 e) as (m3 & e3 & Hf & Hv & Hb); [lia|lia|].
    exists m3, e3, 0, m2. rewrite Hf. change (2 ^ 0) with 1.
    rewrite Z.div_1_r. replace (e3 - e - 0) with (e3 - e) by lia.
    repeat split; auto; lia.
  - rewrite (shr_fexp_54 q e l) by lia. simpl fst. simpl snd.
    set (mrs := shr_1 _).
    assert (Hm1 : shr_m mrs = q / 2).
    { unfold mrs. destruct l as [|[]]; simpl shr_record_of_loc;
        apply shr_1_m; lia. }
    rewrite Hm1. clearbody mrs.
    set (m2 := round_nearest_even (q / 2) _).
    assert (Hm2 : m2 = q / 2 \/ m2 = q / 2 + 1) by apply round_nearest_even_cases.
    clearbody m2.
    pose proof (Z.div_mod q 2 ltac:(lia)) as Hd.
    pose proof (Z.mod_pos_bound q 2 ltac:(lia)) as Hr.
    destruct (round_finish_renormalise sx m2 (e + 1)) as (m3 & e3 & Hf & Hv & Hb);
      [lia|lia|].
    exists m3, e3, 1, m2. rewrite Hf. change (2 ^ 1) with 2.
    replace (e3 - e - 1) with (e3 - (e + 1)) by lia.
    repeat split; auto; lia.
Qed.

Lemma SFdiv_core_1000 (pv : positive) :
  Zpos (digits2_pos pv) <= 53 ->
  SFdiv_core_binary prec emax (Zpos pv) 0 1000 0 =
  ((Zpos pv * 2 ^ (63 - Zpos (digits2_pos pv))) / 1000,
   Zpos (digits2_pos pv) - 63,
   new_location 1000 ((Zpos pv * 2 ^ (63 - Zpos (digits2_pos pv))) mod 1000)).
Proof.
  intros Hd. unfold SFdiv_core_binary.
  change (Zdigits2 (Zpos pv)) with (Zpos (digits2_pos pv)).
  change (Zdigits2 1000) with 10.
  revert Hd. generalize (Pos2Z.is_pos (digits2_pos pv)).
  generalize (Zpos (digits2_pos pv)). intros d Hp Hd. cbv zeta.
  replace (Z.min (fexp prec emax (d + 0 - (10 + 0))) (0 - 0)) with (d - 63)
    by (unfold fexp, emin, prec, emax; lia).
  replace (0 - 0 - (d - 63)) with (63 - d) by lia.
  destruct (63 - d) as [|s|s] eqn:Es; try lia.
  rewrite Z.shiftl_mul_pow2 by lia.
  unfold Z.div, Z.modulo. destruct (Z.div_eucl _ 1000) as [q r]. reflexivity.
Qed.

Lemma kilo_floor (v A m2 : Z) :
  0 <= v -> 1024 <= A -> v * A / 1000 <= m2 <= v * A / 1000 + 1 ->
  m2 / A = v / 1000.
Proof.
  intros Hv HA Hm.
  pose proof (Z.div_mod v 1000 ltac:(lia)) as Hd.
  pose proof (Z.mod_pos_bound v 1000 ltac:(lia)) as Hr.
  revert Hd Hr. generalize (v / 1000) (v mod 1000). intros k r Hd Hr.
  assert (Hk : 0 <= k) by lia.
  assert (E : v * A = k * A * 1000 + r * A) by (rewrite Hd; ring).
  rewrite E in Hm. rewrite Z.div_add_l in Hm by lia.
  assert (HrA : 0 <= r * A <= 999 * A)
    by (split; [apply Z.mul_nonneg_nonneg; lia
               |apply Z.mul_le_mono_nonneg_r; lia]).
  pose proof (Z.div_mod (r * A) 1000 ltac:(lia)) as Hd'.
  pose proof (Z.mod_pos_bound (r * A) 1000 ltac:(lia)) as Hr'.
  revert Hm HrA Hd' Hr'.
  generalize (r * A / 1000) ((r * A) mod 1000) (r * A). intros t u rA Hm HrA Hd' Hr'.
  symmetry. apply Z.div_unique with (m2 - k * A); lia.
Qed.

Lemma pow2_split (a b : Z) : 0 <= a -> 0 <= b -> 2 ^ (a + b) = 2 ^ a * 2 ^ b.
Proof. intros. apply Z.pow_add_r; assumption. Qed.

Lemma SFdiv_1000 (pv : positive) :
  Zpos pv < 1000 * 2 ^ 43 ->
  exists m e,
    SFdiv prec emax (S754_finite false pv 0) (S754_finite false 1000 0)
    = S754_finite false m e
    /\ Z.shiftl (Zpos m) e = Zpos pv / 1000.
Proof.
  intros Hv. pose proof (digits2_pos_bounds pv) as B.
  assert (Hd : Zpos (digits2_pos pv) <= 53).
  { destruct (Z_lt_le_dec 53 (Zpos (digits2_pos pv))) as [L|L]; [|lia].
    assert (2 ^ 53 <= 2 ^ (Zpos (digits2_pos pv) - 1))
      by (apply Z.pow_le_mono_r; lia).
    change (2 ^ 53) with 9007199254740992 in *.
    change (2 ^ 43) with 8796093022208 in *. lia. }
  unfold SFdiv. rewrite SFdiv_core_1000 by exact Hd. cbn [xorb].
  revert B Hd. generalize (Pos2Z.is_pos (digits2_pos pv)).
  generalize (Zpos (digits2_pos pv)). intros d Hp B Hd.
  set (v := Zpos pv) in *. assert (Hv0 : 0 < v) by reflexivity. clearbody v.
  assert (P1 : 2 ^ (d - 1) * 2 ^ (63 - d) = 2 ^ 62)
    by (rewrite <- pow2_split by lia; f_equal; lia).
  assert (P2 : 2 ^ d * 2 ^ (63 - d) = 2 ^ 63)
    by (rewrite <- pow2_split by lia; f_equal; lia).
  assert (Ps : 0 < 2 ^ (63 - d)) by (apply Z.pow_pos_nonneg; lia).
  assert (Hlo : 2 ^ 62 <= v * 2 ^ (63 - d))
    by (rewrite <- P1; apply Z.mul_le_mono_nonneg_r; lia).
  assert (Hhi : v * 2 ^ (63 - d) < 2 ^ 63)
    by (rewrite <- P2; apply Z.mul_lt_mono_pos_r; lia).
  pose proof (Z.div_mod (v * 2 ^ (63 - d)) 1000 ltac:(lia)) as Hq.
  pose proof (Z.mod_pos_bound (v * 2 ^ (63 - d)) 1000 ltac:(lia)) as Hr.
  assert (Hqb : 2 ^ 52 <= v * 2 ^ (63 - d) / 1000 < 2 ^ 54).
  { change (2 ^ 52) with 4503599627370496.
    change (2 ^ 54) with 18014398509481984.
    change (2 ^ 62) with 4611686018427387904 in Hlo.
    change (2 ^ 63) with 9223372036854775808 in Hhi.
    revert Hq Hr Hlo Hhi.
    generalize (v * 2 ^ (63 - d) / 1000) ((v * 2 ^ (63 - d)) mod 1000)
      (v * 2 ^ (63 - d)). intros; lia. }
  destruct (binary_round_aux_near false (v * 2 ^ (63 - d) / 1000) (d - 63)
              (new_location 1000 ((v * 2 ^ (63 - d)) mod 1000)) Hqb
              ltac:(lia))
    as (m3 & e3 & n & m2 & Hf & Hn & Hn0 & Hm2 & Hm3 & He3).
  exists m3, e3. split; [exact Hf|].
  rewrite Z.shiftl_div_pow2 by lia.
  assert (HE : 10 <= 63 - d - n).
  { destruct (Z_lt_le_dec d 53) as [L|L]; [lia|].
    assert (d = 53) by lia. subst d. rewrite Hn0; [lia|].
    change (63 - 53) with 10 in *. change (2 ^ 10) with 1024 in *.
    change (2 ^ 53) with 9007199254740992.
    change (2 ^ 43) with 8796093022208 in Hv.
    revert Hq Hr. generalize (v * 1024 / 1000) ((v * 1024) mod 1000).
    intros; lia. }
  assert (HA : 1024 <= 2 ^ (63 - d - n))
    by (change 1024 with (2 ^ 10); apply Z.pow_le_mono_r; lia).
  assert (Hsplit : 2 ^ (63 - d) = 2 ^ (63 - d - n) * 2 ^ n)
    by (rewrite <- pow2_split by lia; f_equal; lia).
  assert (Hq1 : v * 2 ^ (63 - d) / 1000 / 2 ^ n = v * 2 ^ (63 - d - n) / 1000).
  { rewrite Hsplit. assert (Hn2 : 0 < 2 ^ n) by (apply Z.pow_pos_nonneg; lia).
    rewrite Z.div_div by lia. rewrite Z.mul_assoc.
    apply Z.div_mul_cancel_r; lia. }
  rewrite Hq1 in Hm2.
  assert (Hcd : 2 ^ (63 - d - n) = 2 ^ (- e3) * 2 ^ (e3 - (d - 63) - n))
    by (rewrite <- pow2_split by lia; f_equal; lia).
  assert (Hc : 0 < 2 ^ (e3 - (d - 63) - n)) by (apply Z.pow_pos_nonneg; lia).
  assert (Hd2 : 0 < 2 ^ (- e3)) by (apply Z.pow_pos_nonneg; lia).
  rewrite <- (Z.div_mul_cancel_r (Zpos m3) (2 ^ (- e3)) (2 ^ (e3 - (d - 63) - n)))
    by lia.
  rewrite Hm3, <- Hcd.
  apply kilo_floor; [lia|exact HA|exact Hm2].
Qed.

Lemma v_bitrate_of_floor (v : Z) :
  0 < v < 1000 * 2 ^ 43 -> v_bitrate_of v = Ok (claimed_v_bitrate v).
Proof.
  intros [Hv0 Hv]. destruct v as [|pv|pv]; try lia.
  destruct (SFdiv_1000 pv Hv) as (m & e & Hf & Hs).
  unfold v_bitrate_of, Py.int_truediv, claimed_v_bitrate.
  change (Z.to_pos (Z.abs (Zpos pv))) with pv.
  change (Z.to_pos (Z.abs 1000)) with 1000%positive.
  change (Zpos pv <? 0) with false. change (1000 <? 0) with false.
  rewrite Hf. cbn [bindR Py.int_of_float]. now rewrite Hs.
Qed.

(** C10 (amended). The bitrate string of the bitrate stage is
    [int(v / 1000)] followed by [k], where [v / 1000] is a division of
    doubles. The computed target [v] is at least 200000, and as long as it
    is below [1000 * 2^43] bits per second the string is [floor(v / 1000)]
    followed by [k]: at least [200k] and at most 999 bits per second below
    the target. *)
Theorem C10_v_bitrate_kilobits (a : Args.t) (target_bytes : Z)
    (p : ProbeResult.t) (v : Z) :
  target_video_bps_of target_bytes (ProbeResult.duration_s p)
    (Args.audio_bitrate a) = Ok v ->
  v < 1000 * 2 ^ 43 ->
  200000 <= v
  /\ stage3_v_bitrate a target_bytes p = Ok (claimed_v_bitrate v)
  /\ 200 <= v / 1000
  /\ 1000 * (v / 1000) <= v <= 1000 * (v / 1000) + 999.
Proof.
  intros Ht Hv.
  assert (Hlo : 200000 <= v).
  { unfold target_video_bps_of in Ht.
    apply bindR_Ok in Ht as (total & _ & Ht).
    apply bindR_Ok in Ht as (t & _ & Ht).
    apply bindR_Ok in Ht as (headroom & _ & [= <-]). lia. }
  split; [exact Hlo|]. split.
  - unfold stage3_v_bitrate. rewrite Ht. cbn [bindR].
    apply v_bitrate_of_floor. lia.
  - pose proof (Z.div_mod v 1000 ltac:(lia)) as Hd.
    pose proof (Z.mod_pos_bound v 1000 ltac:(lia)) as Hr.
    revert Hd Hr. generalize (v / 1000) (v mod 1000). intros k r Hd Hr. lia.
Qed.

(** A budget of 500002 bytes for 10 seconds with ["128k"] audio: the target
    is 252000 bits per second and the string is ["252k"]. *)
Lemma C10_v_bitrate_kilobits_witness :
  200000 <= 252000
  /\ stage3_v_bitrate
       (Scripted.args (Some 500002) None "auto" (Py.lit 8) 480) 500002
       (Scripted.probe (Py.lit 10) (Some 1080) (Some (Py.lit 30)))
     = Ok (claimed_v_bitrate 252000)
  /\ 200 <= 252000 / 1000
  /\ 1000 * (252000 / 1000) <= 252000 <= 1000 * (252000 / 1000) + 999.
Proof.
  apply (C10_v_bitrate_kilobits
           (Scripted.args (Some 500002) None "auto" (Py.lit 8) 480) 500002
           (Scripted.probe (Py.lit 10) (Some 1080) (Some (Py.lit 30)))
           252000).
  - vm_compute. reflexivity.
  - reflexivity.
Defined.

(** C10, as claimed: with a budget of 36028797018964341 bytes for one second
    and ["128k"] audio the target is 273818857344000992 bits per second; the
    quotient by 1000 rounds up to the next double and the string is
    ["273818857344001k"], not ["273818857344000k"]. *)
Lemma C10_counterexample :
  target_video_bps_of 36028797018964341 (Py.lit 1) "128k"
  = Ok 273818857344000992
  /\ v_bitrate_of 273818857344000992 = Ok "273818857344001k"
  /\ claimed_v_bitrate 273818857344000992 = "273818857344000k"
  /\ 273818857344000992 / 1000 = 273818857344000.
Proof. repeat split; vm_compute; reflexivity. Qed.

(** ** Scenarios *)

(** Sizes 1200 and 800 for a budget of 1000 bytes: the second frame-rate
    candidate (24 fps) is the first to fit. *)
Lemma C4_first_fps_success_witness :
  exists out w' tr,
    Scripted.run Scripted.by_fps
      (Scripted.probe (Py.lit 10) (Some 1080) (Some (Py.lit 30)))
      (Scripted.args (Some 1000) None "auto" (Py.lit 8) 480)
    = (Ok out, (w', tr))
    /\ Outcome.strategy out = "fps"
    /\ Outcome.success out = true
    /\ Outcome.actual_bytes out = 800
    /\ List.length (Outcome.attempts out) = 2%nat.
Proof.
  destruct (Scripted.run Scripted.by_fps
              (Scripted.probe (Py.lit 10) (Some 1080) (Some (Py.lit 30)))
              (Scripted.args (Some 1000) None "auto" (Py.lit 8) 480))
    as [[out|e] [w' tr]] eqn:E.
  - exists out, w', tr. split; [reflexivity|].
    pose proof E as E'. vm_compute in E'. injection E' as Eo Ew Et.
    destruct (C4_first_fps_success _ _ _ _ _ _ _ _ _ _ _ _ _ _ _ "in.mp4"
                (Scripted.probe (Py.lit 10) (Some 1080) (Some (Py.lit 30)))
                1%nat
                (Attempt.mk (Some (Py.lit 24)) None "libx265" (Some 28) None
                   "128k" 800) E)
      as (Hs & Hok & Hb & Hl & _).
    + rewrite <- Et. vm_compute. auto.
    + vm_compute. lia.
    + rewrite <- Eo. vm_compute. reflexivity.
    + rewrite <- Eo. vm_compute. discriminate.
    + now rewrite Hs, Hok, Hb, Hl.
  - vm_compute in E. discriminate.
Defined.

(** libx265 is not built into ffmpeg: the first request fails and is
    repeated with libx264. *)
Lemma C1_failed_encode_retried_or_fatal_witness :
  exists r w' pre ps cmd cmd' pr' post',
    Scripted.run Scripted.x265_unavailable
      (Scripted.probe (Py.lit 10) (Some 1080) (Some (Py.lit 30)))
      (Scripted.args (Some 600) None "auto" (Py.lit 8) 480)
    = (r, (w', pre ++ EvEncode "libx265" ps cmd 30
                        (CalledProcessError "Unknown encoder 'libx265'")
                 :: EvEncode "libx264" ps cmd' 30 pr' :: post')).
Proof.
  destruct (Scripted.run Scripted.x265_unavailable
              (Scripted.probe (Py.lit 10) (Some 1080) (Some (Py.lit 30)))
              (Scripted.args (Some 600) None "auto" (Py.lit 8) 480))
    as [r [w' tr]] eqn:E.
  pose proof E as E'. vm_compute in E'. injection E' as Er Ew Et.
  match type of Et with
  | ?e1 :: ?e2 :: ?e3 :: EvEncode ?c ?ps ?cmd ?t ?pr :: ?post = _ =>
      destruct (C1_failed_encode_retried_or_fatal _ _ _ _ _ _ _ _ _ _ _ _ _ _ _
                  [e1; e2; e3] post c ps cmd t pr
                  (ValueError "ffmpeg execution failed: Unknown encoder 'libx265'")
                  E (eq_sym Et) eq_refl)
        as (preferred_codec & fallback_codec & Hp & Hm);
      exists r, w', [e1; e2; e3], ps, cmd
  end.
  vm_compute in Hp. injection Hp as <- <-.
  destruct Hm as (_ & _ & cmd' & pr' & post' & Hpost).
  exists cmd', pr', post'. rewrite <- Et, <- Hpost. reflexivity.
Defined.

(** C1, as claimed: libx265 runs into the timeout, which is no
    encoder-unavailable condition; the request is repeated with libx264 all
    the same, and the run returns a success encoded with libx264. *)
Lemma C1_counterexample :
  exists out w' e1 e2 e3 ps cmd cmd' post,
    Scripted.run Scripted.x265_times_out
      (Scripted.probe (Py.lit 10) (Some 1080) (Some (Py.lit 30)))
      (Scripted.args (Some 600) None "auto" (Py.lit 8) 480)
    = (Ok out,
       (w', [e1; e2; e3]
            ++ EvEncode "libx265" ps cmd 30 TimeoutExpired
            :: EvEncode "libx264" ps cmd' 30 Completed :: post))
    /\ proc_error TimeoutExpired = Some (ValueError "ffmpeg execution timeout")
    /\ Outcome.success out = true
    /\ map Attempt.video_codec (Outcome.attempts out) = ["libx264"].
Proof.
  do 9 eexists. split; [vm_compute; reflexivity|].
  repeat split.
Qed.

(** A [ValueError] that [subprocess.run] raises itself is retried like the
    errors of [_run_ffmpeg]: the run returns a success encoded with
    libx264. *)
Lemma undecodable_output_is_retried :
  exists out w' e1 e2 e3 ps cmd cmd' post,
    Scripted.run Scripted.x265_undecodable
      (Scripted.probe (Py.lit 10) (Some 1080) (Some (Py.lit 30)))
      (Scripted.args (Some 600) None "auto" (Py.lit 8) 480)
    = (Ok out,
       (w', [e1; e2; e3]
            ++ EvEncode "libx265" ps cmd 30
                 (ProcRaised (ValueError "'utf-8' codec can't decode byte 0xff"))
            :: EvEncode "libx264" ps cmd' 30 Completed :: post))
    /\ Outcome.success out = true
    /\ map Attempt.video_codec (Outcome.attempts out) = ["libx264"].
Proof.
  do 9 eexists. split; [vm_compute; reflexivity|].
  repeat split.
Qed.

(** An [OSError] is not: when ffmpeg cannot be started, the first encode
    call is the last call of the run, which raises the error. *)
Lemma unstartable_encoder_is_fatal :
  exists w' e1 e2 e3 ps cmd,
    Scripted.run Scripted.not_started
      (Scripted.probe (Py.lit 10) (Some 1080) (Some (Py.lit 30)))
      (Scripted.args (Some 600) None "auto" (Py.lit 8) 480)
    = (Raise (OSError "[Errno 13] Permission denied: 'ffmpeg'"),
       (w', [e1; e2; e3;
             EvEncode "libx265" ps cmd 30
               (ProcRaised (OSError "[Errno 13] Permission denied: 'ffmpeg'"))])).
Proof. do 6 eexists. vm_compute. reflexivity. Qed.

(** With libx265 missing, one attempt is logged, with libx264, and two
    encode calls were made. *)
Lemma C5_log_matches_calls_witness :
  exists out w' tr,
    Scripted.run Scripted.x265_unavailable
      (Scripted.probe (Py.lit 10) (Some 1080) (Some (Py.lit 30)))
      (Scripted.args (Some 600) None "auto" (Py.lit 8) 480)
    = (Ok out, (w', tr))
    /\ map Attempt.video_codec (Outcome.attempts out) = ["libx264"]
    /\ List.length (filter is_encode tr) = 2%nat.
Proof.
  destruct (Scripted.run Scripted.x265_unavailable
              (Scripted.probe (Py.lit 10) (Some 1080) (Some (Py.lit 30)))
              (Scripted.args (Some 600) None "auto" (Py.lit 8) 480))
    as [[out|e] [w' tr]] eqn:E.
  - exists out, w', tr. split; [reflexivity|].
    pose proof E as E'. vm_compute in E'. injection E' as Eo Ew Et.
    destruct (C5_log_matches_calls _ _ _ _ _ _ _ _ _ _ _ _ _ _ _ E)
      as (preferred_codec & fallback_codec & local_in & p & evs
          & Hp & _ & _ & Hn).
    vm_compute in Hp. injection Hp as <- <-.
    rewrite Hn, <- Eo. split; reflexivity.
  - vm_compute in E. discriminate.
Defined.


(** The same run: the bitrate attempt is made at the last frame rate and
    height tried, 8 fps and 480 lines, with ["200k"] for [-b:v], [-maxrate]
    and [-bufsize]. *)
Lemma bitrate_stage_parameters_witness :
  exists out w' tr pre c cmd n before after,
    Scripted.run Scripted.always_large
      (Scripted.probe (Py.lit 10) (Some 1080) (Some (Py.lit 30)))
      (Scripted.args (Some 1) None "libx264" (Py.lit 8) 480)
    = (Ok out, (w', tr))
    /\ tr = pre ++ [EvEncode c
                      (Params.mk (Some (Py.lit 8)) (Some 480) None
                         (Some "200k") "128k")
                      cmd 30 Completed;
                    EvGetsize "/tmp/td/attempt.mp4" (Ok n);
                    EvOutput "out.mp4" (Ok tt)]
    /\ cmd = before
             ++ ["-c:v"; c; "-b:v"; "200k"; "-maxrate"; "200k";
                 "-bufsize"; "200k"] ++ after.
Proof.
  destruct (Scripted.run Scripted.always_large
              (Scripted.probe (Py.lit 10) (Some 1080) (Some (Py.lit 30)))
              (Scripted.args (Some 1) None "libx264" (Py.lit 8) 480))
    as [[out|e] [w' tr]] eqn:E.
  - pose proof E as E'. vm_compute in E'. injection E' as Eo Ew Et.
    destruct (bitrate_stage_parameters _ _ _ _ _ _ _ _ _ _ _ _ _ _ _
                "in.mp4"
                (Scripted.probe (Py.lit 10) (Some 1080) (Some (Py.lit 30))) E)
      as (pre & c & cmd & n & v & before & after & Htr & Hv & Hcmd & _).
    + rewrite <- Et. vm_compute. auto.
    + rewrite <- Eo. reflexivity.
    + rewrite <- Eo in Hv. vm_compute in Hv. injection Hv as <-.
      exists out, w', tr, pre, c, cmd, n, before, after.
      split; [reflexivity|]. split; [|exact Hcmd].
      rewrite Htr. vm_compute. reflexivity.
  - vm_compute in E. discriminate.
Defined.

(** C8. The bitrate attempt is to use the last frame rate tried. With an
    input at 5 frames per second, below the floor of 8, the frame-rate stage
    runs with its only candidate, keep, and the resolution stage keeps the
    frame rate too; the bitrate attempt is nevertheless encoded at 8 frames
    per second, a frame rate that was never tried and lies above the
    input's: [last_fps] is [None] after keep as it is before the first
    attempt, and [min_fps] is taken without the comparison with the input
    that guards the ladder and the height. *)
Lemma C8_bitrate_attempt_above_input_rate :
  exists out w' pre c cmd n,
    fps_candidates
      (input_fps_of (Scripted.probe (Py.lit 10) (Some 1080) (Some (Py.lit 5))))
      (Py.lit 8) = [None]
    /\ Py.ltb (Py.lit 5) (Py.lit 8) = true
    /\ Scripted.run Scripted.always_large
         (Scripted.probe (Py.lit 10) (Some 1080) (Some (Py.lit 5)))
         (Scripted.args (Some 1) None "libx264" (Py.lit 8) 480)
       = (Ok out,
          (w', pre ++ [EvEncode c
                         (Params.mk (Some (Py.lit 8)) (Some 480) None
                            (Some "200k") "128k")
                         cmd 30 Completed;
                       EvGetsize "/tmp/td/attempt.mp4" (Ok n);
                       EvOutput "out.mp4" (Ok tt)]))
    /\ Scripted.has "fps=fps=8.000000,scale=-2:480" cmd = true
    /\ Outcome.strategy out = "fps+scale+bitrate"
    /\ map Attempt.fps (Outcome.attempts out)
       = [None; None; None; Some (Py.lit 8)].
Proof.
  eexists _, _, [_; _; _; _; _; _; _; _; _], _, _, _.
  split; [vm_compute; reflexivity|].
  split; [vm_compute; reflexivity|].
  split; [vm_compute; reflexivity|].
  repeat split.
Qed.

(** Both a byte budget and a mebibyte budget: the call is rejected before
    anything is run. *)
Lemma C9_invalid_arguments_rejected_first_witness :
  exists e,
    Scripted.run Scripted.always_large
      (Scripted.probe (Py.lit 10) (Some 1080) (Some (Py.lit 30)))
      (Scripted.args (Some 1) (Some (Py.lit 1)) "libx264" (Py.lit 8) 480)
    = (Raise e, (None, []))
    /\ In e configuration_errors.
Proof.
  apply (C9_invalid_arguments_rejected_first Scripted.World
           Scripted.verify_ffmpeg_tools Scripted.prepared_input
           (Scripted.probe_video
              (Scripted.probe (Py.lit 10) (Some 1080) (Some (Py.lit 30))))
           (Scripted.subprocess_run Scripted.always_large)
           Scripted.getsize Scripted.replace_output
           "ffmpeg" "/tmp/td/attempt.mp4" Scripted.is_s3_url).
  left. reflexivity.
Defined.

(** * More properties of the search *)

(** ** The calls of a run, one by one *)

Section Events.

Variable ffmpeg_path : string.
Variable temp_out : string.
Variable is_s3_url : string -> bool.
Variable a : Args.t.
Variable target_bytes : Z.
Variable preferred_codec : string.
Variable fallback_codec : option string.
Variable local_in : string.

Local Abbreviation cmd_for' := (cmd_for ffmpeg_path temp_out a local_in).
Local Abbreviation try_calls' := (try_calls ffmpeg_path temp_out a local_in).
Local Abbreviation attempt_calls' :=
  (attempt_calls ffmpeg_path temp_out a preferred_codec fallback_codec local_in).
Local Abbreviation loop_calls' :=
  (loop_calls ffmpeg_path temp_out is_s3_url a target_bytes preferred_codec
     fallback_codec local_in).
Local Abbreviation stage3_calls' :=
  (stage3_calls ffmpeg_path temp_out is_s3_url a target_bytes preferred_codec
     fallback_codec local_in).
Local Abbreviation search_calls' :=
  (search_calls ffmpeg_path temp_out is_s3_url a target_bytes preferred_codec
     fallback_codec local_in).
Local Abbreviation event' :=
  (fun output => search_event cmd_for' temp_out output (Args.timeout_s a)).
Local Abbreviation allowed' :=
  (fun c => c = preferred_codec \/ usable_fallback fallback_codec = Some c).

Lemma search_event_weaken (output : string) (codecs1 codecs2 : string -> Prop)
    (params params' : Params.t -> Prop) (ev : event) :
  (forall c, codecs1 c -> codecs2 c) ->
  (forall ps, params ps -> params' ps) ->
  event' output codecs1 params ev -> event' output codecs2 params' ev.
Proof.
  intros Hc Hp. destruct ev; simpl; auto.
  intros (H1 & H2 & H3 & H4). auto.
Qed.

Lemma try_calls_events (output c : string) (ps : Params.t) (evs : list event)
    (r : res Z) :
  try_calls' c ps evs r ->
  Forall (event' output (eq c) (eq ps)) evs.
Proof.
  intros H. destruct H; repeat constructor; simpl; auto.
Qed.

Lemma attempt_calls_events (output : string) (ps : Params.t)
    (evs : list event) (r : res (string * Z)) :
  attempt_calls' ps evs r ->
  Forall (event' output allowed' (eq ps)) evs.
Proof.
  intros H. destruct H as [evs n H|evs e H _|evs1 msg fb evs2 r H1 Hfb H2].
  - eapply Forall_impl; [|exact (try_calls_events output _ _ _ _ H)].
    intros ev. apply search_event_weaken; auto.
  - eapply Forall_impl; [|exact (try_calls_events output _ _ _ _ H)].
    intros ev. apply search_event_weaken; auto.
  - apply Forall_app. split.
    + eapply Forall_impl; [|exact (try_calls_events output _ _ _ _ H1)].
      intros ev. apply search_event_weaken; auto.
    + eapply Forall_impl; [|exact (try_calls_events output _ _ _ _ H2)].
      intros ev. apply search_event_weaken; auto.
      intros c <-. now right.
Qed.

Lemma loop_calls_events {X : Type} (mk : X -> Params.t) (strategy : string)
    (cands : list X) (attempts : list Attempt.t) (evs : list event)
    (r : res (Outcome.t + list Attempt.t)) :
  loop_calls' mk strategy cands attempts evs r ->
  Forall (event' (Args.output a) allowed'
            (fun ps => exists x, In x cands /\ ps = mk x)) evs.
Proof.
  induction 1 as [attempts|x rest attempts evs c n evs' r Ha Hn Hl IH
                 |x rest attempts evs c n Ha Hn
                 |x rest attempts evs c n e Ha Hn
                 |x rest attempts evs e Ha];
    try apply Forall_app; try split;
    try (eapply Forall_impl;
         [|exact (attempt_calls_events (Args.output a) _ _ _ Ha)];
         intros ev; apply search_event_weaken; auto;
         intros ps <-; exists x; simpl; auto).
  - constructor.
  - eapply Forall_impl; [|exact IH].
    intros ev. apply search_event_weaken; auto.
    intros ps (y & Hy & ->). exists y. simpl. auto.
  - repeat constructor.
  - repeat constructor.
Qed.

Lemma stage3_calls_events (p : ProbeResult.t) (attempts : list Attempt.t)
    (last_fps : option Py.float) (last_height : option Z) (evs : list event)
    (r : res Outcome.t) :
  stage3_calls' p attempts last_fps last_height evs r ->
  Forall (event' (Args.output a) allowed'
            (fun ps =>
               exists v,
                 stage3_v_bitrate a target_bytes p = Ok v
                 /\ ps = bitrate_params a (stage3_fps a last_fps)
                           (stage3_height a (input_h_of p) last_height) v))
    evs.
Proof.
  intros H.
  destruct H as [e Hv|v evs e Hv Ha|v evs c n e Hv Ha|v evs c n Hv Ha];
    try apply Forall_app; try split;
    try (eapply Forall_impl;
         [|exact (attempt_calls_events (Args.output a) _ _ _ Ha)];
         intros ev; apply search_event_weaken; auto;
         intros ps <-; now exists v);
    repeat constructor.
Qed.

(** The parameter sets of the three stages. *)
Lemma search_calls_events (p : ProbeResult.t) (evs : list event)
    (r : res Outcome.t) :
  search_calls' p evs r ->
  Forall (event' (Args.output a) allowed'
            (fun ps =>
               (exists f,
                  In f (fps_candidates (input_fps_of p) (Args.min_fps a))
                  /\ ps = stage1_params a f)
               \/ (exists h,
                     In h (tl (height_candidates (input_h_of p)
                                 (Args.min_height a)))
                     /\ ps = stage2_params a
                               (last (fps_candidates (input_fps_of p)
                                        (Args.min_fps a)) None) h)
               \/ (exists v,
                     stage3_v_bitrate a target_bytes p = Ok v
                     /\ ps = bitrate_params a
                               (stage3_fps a
                                  (last (fps_candidates (input_fps_of p)
                                           (Args.min_fps a)) None))
                               (last (tl (height_candidates (input_h_of p)
                                            (Args.min_height a))) None) v)))
    evs.
Proof.
  intros H.
  assert (S1 : forall evs1 r1,
             loop_calls' (stage1_params a) "fps"
               (fps_candidates (input_fps_of p) (Args.min_fps a)) [] evs1 r1 ->
             Forall (event' (Args.output a) allowed'
                       (fun ps =>
                          exists f,
                            In f (fps_candidates (input_fps_of p) (Args.min_fps a))
                            /\ ps = stage1_params a f)) evs1)
    by (intros evs1 r1 H1; exact (loop_calls_events _ _ _ _ _ _ H1)).
  assert (S2 : forall l att evs2 r2,
             loop_calls' (stage2_params a l) "fps+scale"
               (tl (height_candidates (input_h_of p) (Args.min_height a)))
               att evs2 r2 ->
             Forall (event' (Args.output a) allowed'
                       (fun ps =>
                          exists h,
                            In h (tl (height_candidates (input_h_of p)
                                        (Args.min_height a)))
                            /\ ps = stage2_params a l h)) evs2)
    by (intros l att evs2 r2 H2; exact (loop_calls_events _ _ _ _ _ _ H2)).
  destruct H as [evs out H1|evs e H1
                |evs1 attempts evs2 out last_fps H1 Hl H2
                |evs1 attempts evs2 e last_fps H1 Hl H2
                |evs1 attempts1 evs2 attempts2 evs3 r last_fps last_height
                   H1 Hl H2 Hh H3];
    repeat (apply Forall_app; split);
    try (eapply Forall_impl; [|exact (S1 _ _ H1)];
         intros ev; apply search_event_weaken; auto);
    try (subst last_fps; eapply Forall_impl; [|exact (S2 _ _ _ _ H2)];
         intros ev; apply search_event_weaken; auto).
  subst last_height.
  eapply Forall_impl; [|exact (stage3_calls_events _ _ _ _ _ _ H3)].
  intros ev. apply search_event_weaken; auto.
  intros ps (v & Hv & ->). right. right. exists v. split; [exact Hv|].
  rewrite (stage3_height_recorded a). now subst last_fps.
Qed.

End Events.

(** ** Validation and codec choice *)

Lemma validate_Ok (a : Args.t) (B : Z) :
  validate a = Ok B ->
  is_None (Args.target_bytes a) <> is_None (Args.target_mb a)
  /\ match Args.target_mb a with
     | Some target_mb =>
         Py.leb target_mb Py.zero = false
         /\ Py.int_of_float
              (Py.mul (Py.mul target_mb (Py.lit 1024)) (Py.lit 1024)) = Ok B
     | None => Args.target_bytes a = Some B
     end
  /\ 0 < B
  /\ Py.leb (Args.min_fps a) Py.zero = false
  /\ 0 < Args.min_height a
  /\ 0 < Args.timeout_s a.
Proof.
  unfold validate.
  destruct (Bool.eqb (is_None (Args.target_bytes a)) (is_None (Args.target_mb a)))
    eqn:Hb; [discriminate|].
  apply eqb_false_iff in Hb. intros H.
  apply bindR_Ok in H as (B' & HB & H).
  destruct (B' <=? 0) eqn:H0; [discriminate|].
  destruct (Py.leb (Args.min_fps a) Py.zero) eqn:Hf; [discriminate|].
  destruct (Args.min_height a <=? 0) eqn:Hh; [discriminate|].
  destruct (Args.timeout_s a <=? 0) eqn:Ht; [discriminate|].
  injection H as <-.
  apply Z.leb_gt in H0, Hh, Ht.
  repeat split; try assumption.
  destruct (Args.target_mb a) as [m|].
  - destruct (Py.leb m Py.zero); [discriminate|]. now split.
  - destruct (Args.target_bytes a) as [b|]; [|discriminate].
    now injection HB as ->.
Qed.


(** ** The command line *)


(** ** Runs, call by call *)

Section RunEvents.

Variable World : Type.
Variable verify_ffmpeg_tools : World -> res unit * World.
Variable prepared_input : string -> World -> res string * World.
Variable probe_video : string -> World -> res ProbeResult.t * World.
Variable subprocess_run : list string -> Z -> World -> proc * World.
Variable getsize : string -> World -> option Z * World.
Variable replace_output : string -> string -> World -> res unit * World.
Variable ffmpeg_path : string.
Variable temp_out : string.
Variable is_s3_url : string -> bool.

Local Abbreviation run' :=
  (run World verify_ffmpeg_tools prepared_input probe_video subprocess_run
     getsize replace_output ffmpeg_path temp_out is_s3_url).
Local Abbreviation run_calls' := (run_calls ffmpeg_path temp_out is_s3_url).



(** X2. A probe that reports no video stream, or a duration that is zero,
    negative or missing, ends the run there: the run raises the matching
    [ValueError], and the tool check, the input and the probe are all the
    calls it made. *)
Theorem unusable_probe_ends_run (a : Args.t) (w w' : World)
    (tr : list event) (r : res Outcome.t) (li : string) (p : ProbeResult.t) :
  run' a w = (r, (w', tr)) ->
  In (EvProbe li (Ok p)) tr ->
  ProbeResult.has_video p = false
  \/ Py.truthy (ProbeResult.duration_s p) = false
  \/ Py.leb (ProbeResult.duration_s p) Py.zero = true ->
  tr = [EvVerifyTools (Ok tt);
        EvPreparedInput (Args.input_path a) (Ok li);
        EvProbe li (Ok p)]
  /\ r = Raise (ValueError
                  (if ProbeResult.has_video p
                   then "Failed to determine input duration"
                   else "Input has no video stream")).
Proof.
  intros Hrun Hin Hbad.
  destruct (run_calls_run World verify_ffmpeg_tools prepared_input probe_video
              subprocess_run getsize replace_output ffmpeg_path temp_out
              is_s3_url a w) as (evs0 & r0 & w0 & Hrun0 & Hcalls).
  rewrite Hrun in Hrun0. injection Hrun0 as <- <- <-.
  destruct Hcalls as [e Hv|B e Hv|B e Hv Hp|B codecs e Hv Hp|B codecs li0 e Hv Hp
                     |B codecs li0 p0 Hv Hp Hnv|B codecs li0 p0 Hv Hp Hhv Hd
                     |B pref fb li0 p0 evs r Hv Hp Hhv Hd Hs];
    simpl in Hin.
  - destruct Hin.
  - destruct Hin as [Hin|[]]; discriminate.
  - destruct Hin as [Hin|[]]; discriminate.
  - destruct Hin as [Hin|[Hin|[]]]; discriminate.
  - destruct Hin as [Hin|[Hin|[Hin|[]]]]; discriminate.
  - destruct Hin as [Hin|[Hin|[Hin|[]]]]; try discriminate.
    injection Hin as <- <-. rewrite Hnv. now split.
  - destruct Hin as [Hin|[Hin|[Hin|[]]]]; try discriminate.
    injection Hin as <- <-. rewrite Hhv. now split.
  - exfalso.
    assert (Hp0 : p = p0).
    { destruct Hin as [Hin|[Hin|[Hin|Hin]]]; try discriminate.
      - now injection Hin.
      - pose proof (search_calls_events _ _ _ _ _ _ _ _ _ _ _ Hs) as Hev.
        rewrite Forall_forall in Hev. destruct (Hev _ Hin). }
    subst p0. apply orb_false_iff in Hd as [Hd1 Hd2].
    apply negb_false_iff in Hd1.
    destruct Hbad as [Hb|[Hb|Hb]]; congruence.
Qed.

End RunEvents.

(** ** Counting the calls *)

Section Counting.

Variable ffmpeg_path : string.
Variable temp_out : string.
Variable is_s3_url : string -> bool.
Variable a : Args.t.
Variable target_bytes : Z.
Variable preferred_codec : string.
Variable fallback_codec : option string.
Variable local_in : string.

Local Abbreviation try_calls' := (try_calls ffmpeg_path temp_out a local_in).
Local Abbreviation attempt_calls' :=
  (attempt_calls ffmpeg_path temp_out a preferred_codec fallback_codec local_in).
Local Abbreviation loop_calls' :=
  (loop_calls ffmpeg_path temp_out is_s3_url a target_bytes preferred_codec
     fallback_codec local_in).
Local Abbreviation stage3_calls' :=
  (stage3_calls ffmpeg_path temp_out is_s3_url a target_bytes preferred_codec
     fallback_codec local_in).
Local Abbreviation search_calls' :=
  (search_calls ffmpeg_path temp_out is_s3_url a target_bytes preferred_codec
     fallback_codec local_in).
Local Abbreviation encodes := (fun evs => List.length (filter is_encode evs)).
Local Abbreviation outputs := (fun evs => List.length (filter is_output evs)).
Local Abbreviation per_attempt :=
  (match usable_fallback fallback_codec with Some _ => 2%nat | None => 1%nat end).

Lemma no_output_not_written (l : list event) :
  filter is_output l = [] -> filter is_written l = [].
Proof.
  induction l as [|ev l IH]; [reflexivity|]. simpl.
  destruct ev as [| | | | |o [|]]; simpl; try discriminate; auto.
Qed.

Lemma try_calls_count (c : string) (ps : Params.t) (evs : list event)
    (r : res Z) :
  try_calls' c ps evs r ->
  (encodes evs <= 1)%nat /\ filter is_output evs = [].
Proof. intros H. destruct H; simpl; split; auto. Qed.

Lemma attempt_calls_count (ps : Params.t) (evs : list event)
    (r : res (string * Z)) :
  attempt_calls' ps evs r ->
  (encodes evs <= per_attempt)%nat /\ filter is_output evs = [].
Proof.
  intros H. destruct H as [evs n H|evs e H _|evs1 msg fb evs2 r H1 Hfb H2].
  - destruct (try_calls_count _ _ _ _ H) as [H1 H2]. split; [|exact H2].
    destruct (usable_fallback fallback_codec); lia.
  - destruct (try_calls_count _ _ _ _ H) as [H1 H2]. split; [|exact H2].
    destruct (usable_fallback fallback_codec); lia.
  - destruct (try_calls_count _ _ _ _ H1) as [A1 A2].
    destruct (try_calls_count _ _ _ _ H2) as [B1 B2].
    rewrite !filter_app, length_app, A2, B2, Hfb. split; [lia|reflexivity].
Qed.

Lemma loop_calls_count {X : Type} (mk : X -> Params.t) (strategy : string)
    (cands : list X) (attempts : list Attempt.t) (evs : list event)
    (r : res (Outcome.t + list Attempt.t)) :
  loop_calls' mk strategy cands attempts evs r ->
  (encodes evs <= per_attempt * List.length cands)%nat
  /\ (outputs evs <= 1)%nat
  /\ (forall attempts', r = Ok (inr attempts') -> filter is_output evs = [])
  /\ (forall e, r = Raise e -> filter is_written evs = []).
Proof.
  induction 1 as [attempts|x rest attempts evs c n evs' r Ha Hn Hl IH
                 |x rest attempts evs c n Ha Hn
                 |x rest attempts evs c n e Ha Hn
                 |x rest attempts evs e Ha];
    try (destruct (attempt_calls_count _ _ _ Ha) as [A1 A2]);
    rewrite ?filter_app, ?length_app, ?A2; simpl.
  - repeat split; auto; try lia; intros; reflexivity.
  - destruct IH as (I1 & I2 & I3 & I4).
    rewrite (no_output_not_written _ A2). simpl.
    split; [lia|]. split; [exact I2|]. split; [exact I3|exact I4].
  - repeat split; try lia; discriminate.
  - repeat split; try lia; try discriminate. intros _ _. now rewrite no_output_not_written.
  - repeat split; try lia; try discriminate; try (now rewrite A2).
    intros _ _. now apply no_output_not_written.
Qed.

Lemma stage3_calls_count (p : ProbeResult.t) (attempts : list Attempt.t)
    (last_fps : option Py.float) (last_height : option Z) (evs : list event)
    (r : res Outcome.t) :
  stage3_calls' p attempts last_fps last_height evs r ->
  (encodes evs <= per_attempt)%nat
  /\ (outputs evs <= 1)%nat
  /\ (forall e, r = Raise e -> filter is_written evs = []).
Proof.
  intros H.
  destruct H as [e Hv|v evs e Hv Ha|v evs c n e Hv Ha|v evs c n Hv Ha];
    try (destruct (attempt_calls_count _ _ _ Ha) as [A1 A2]);
    rewrite ?filter_app, ?length_app, ?A2; simpl.
  - repeat split; auto. destruct (usable_fallback fallback_codec); lia.
  - repeat split; try lia. intros _ _. now apply no_output_not_written.
  - repeat split; try lia. intros _ _. now rewrite no_output_not_written.
  - repeat split; try lia. discriminate.
Qed.

Lemma search_calls_count (p : ProbeResult.t) (evs : list event)
    (r : res Outcome.t) :
  search_calls' p evs r ->
  (encodes evs
   <= per_attempt
      * (List.length (fps_candidates (input_fps_of p) (Args.min_fps a))
         + List.length
             (tl (height_candidates (input_h_of p) (Args.min_height a)))
         + 1))%nat
  /\ (outputs evs <= 1)%nat
  /\ (forall e, r = Raise e -> filter is_written evs = []).
Proof.
  intros H.
  destruct H as [evs out H1|evs e H1
                |evs1 attempts evs2 out last_fps H1 Hl H2
                |evs1 attempts evs2 e last_fps H1 Hl H2
                |evs1 attempts1 evs2 attempts2 evs3 r last_fps last_height
                   H1 Hl H2 Hh H3];
    destruct (loop_calls_count _ _ _ _ _ _ H1) as (A1 & A2 & A3 & A4);
    try (destruct (loop_calls_count _ _ _ _ _ _ H2) as (B1 & B2 & B3 & B4));
    try (destruct (stage3_calls_count _ _ _ _ _ _ H3) as (C1 & C2 & C3));
    rewrite ?filter_app, ?length_app;
    try rewrite (A3 _ eq_refl); try rewrite (B3 _ eq_refl); simpl.
  - repeat split; try lia. discriminate.
  - repeat split; try lia. intros e0 _. exact (A4 _ eq_refl).
  - repeat split; try lia. discriminate.
  - repeat split; try lia. intros e0 _.
    rewrite (no_output_not_written _ (A3 _ eq_refl)). exact (B4 _ eq_refl).
  - repeat split; try lia. intros e0 He.
    rewrite (no_output_not_written _ (A3 _ eq_refl)), (no_output_not_written _ (B3 _ eq_refl)). exact (C3 _ He).
Qed.

End Counting.

(** ** The ladders: what they contain and in which order *)

Lemma first_occurrences_In {A : Type} (eqb : A -> A -> bool) (l : list A) :
  forall (seen : list A) (x : A),
    In x (first_occurrences eqb seen l) -> In x l.
Proof.
  induction l as [|y l IH]; intros seen x; simpl; [auto|].
  destruct (existsb (fun z => eqb z y) seen).
  - intros H. right. exact (IH _ _ H).
  - intros [->|H]; [now left|right; exact (IH _ _ H)].
Qed.

Lemma first_occurrences_fresh {A : Type} (eqb : A -> A -> bool) (l : list A) :
  forall (seen : list A) (x : A),
    In x (first_occurrences eqb seen l) ->
    existsb (fun z => eqb z x) seen = false.
Proof.
  induction l as [|y l IH]; intros seen x; simpl; [intros []|].
  destruct (existsb (fun z => eqb z y) seen) eqn:Hy.
  - apply IH.
  - intros [->|H]; [exact Hy|].
    apply IH in H. rewrite existsb_app in H.
    now apply orb_false_iff in H as [H _].
Qed.

Lemma first_occurrences_length {A : Type} (eqb : A -> A -> bool) (l : list A) :
  forall seen : list A,
    (List.length (first_occurrences eqb seen l) <= List.length l)%nat.
Proof.
  induction l as [|y l IH]; intros seen; simpl; [lia|].
  destruct (existsb (fun z => eqb z y) seen); simpl.
  - specialize (IH seen). lia.
  - specialize (IH (seen ++ [y])). lia.
Qed.

Lemma filter_length {A : Type} (f : A -> bool) (l : list A) :
  (List.length (filter f l) <= List.length l)%nat.
Proof.
  induction l as [|y l IH]; simpl; [lia|]. destruct (f y); simpl; lia.
Qed.

(** Strictly decreasing after the duplicates are dropped. *)
Lemma first_occurrences_decreasing (l : list Z) :
  forall seen : list Z,
    StronglySorted Z.ge l ->
    StronglySorted Z.gt (first_occurrences Z.eqb seen l).
Proof.
  induction l as [|y l IH]; intros seen Hs; simpl; [constructor|].
  apply StronglySorted_inv in Hs as [Hs Hy].
  destruct (existsb (fun z => z =? y) seen) eqn:Hseen; [now apply IH|].
  constructor; [now apply IH|].
  apply Forall_forall. intros x Hx.
  pose proof (first_occurrences_fresh _ _ _ _ Hx) as Hf.
  rewrite existsb_app in Hf. apply orb_false_iff in Hf as [_ Hf].
  simpl in Hf. rewrite orb_false_r in Hf. apply Z.eqb_neq in Hf.
  apply first_occurrences_In in Hx.
  rewrite Forall_forall in Hy. specialize (Hy _ Hx). lia.
Qed.

Lemma filter_sorted {A : Type} (R : A -> A -> Prop) (f : A -> bool)
    (l : list A) :
  StronglySorted R l -> StronglySorted R (filter f l).
Proof.
  induction 1 as [|x l Hs IH Hx]; simpl; [constructor|].
  destruct (f x); [|exact IH]. constructor; [exact IH|].
  apply Forall_forall. intros y Hy. apply filter_In in Hy as [Hy _].
  rewrite Forall_forall in Hx. exact (Hx _ Hy).
Qed.

Lemma sorted_snoc {A : Type} (R : A -> A -> Prop) (l : list A) (x : A) :
  StronglySorted R l -> Forall (fun y => R y x) l ->
  StronglySorted R (l ++ [x]).
Proof.
  induction 1 as [|y l Hs IH Hy]; intros Hx; simpl.
  - repeat constructor.
  - apply Forall_cons_iff in Hx as [Hyx Hx].
    constructor; [exact (IH Hx)|].
    apply Forall_app. split; [exact Hy|]. now constructor.
Qed.

Lemma last_decreasing (l : list Z) (x d : Z) :
  StronglySorted Z.gt l -> In x l -> Forall (fun y => x <= y) l ->
  last l d = x.
Proof.
  induction 1 as [|y l Hs IH Hy]; intros Hin Hmin; [destruct Hin|].
  apply Forall_cons_iff in Hmin as [Hxy Hmin].
  destruct l as [|z l].
  - destruct Hin as [->|[]]. reflexivity.
  - change (last (y :: z :: l) d) with (last (z :: l) d).
    apply IH; [|exact Hmin].
    destruct Hin as [->|Hin]; [|exact Hin].
    exfalso. apply Forall_cons_iff in Hy as [Hy _].
    apply Forall_cons_iff in Hmin as [Hz _]. lia.
Qed.

Lemma height_candidates_any (H Hmin : Z) :
  height_candidates H Hmin = spec_height_candidates (Some H) Hmin.
Proof.
  exact (height_candidates_spec
           (ProbeResult.mk Py.zero EmptyString 0 true true None None (Some H)
              None None) Hmin).
Qed.

(** X3. The resolution ladder never upscales and never goes below the
    floor: after keep, its heights are at least [min_height] and strictly
    below the input height, in strictly decreasing order, at most five of
    them, and the last one is [min_height] whenever the input is higher than
    that. *)
Theorem height_ladder_descends (H Hmin : Z) :
  exists hs,
    height_candidates H Hmin = None :: map Some hs
    /\ Forall (fun h => Hmin <= h < H) hs
    /\ StronglySorted Z.gt hs
    /\ (List.length hs <= 5)%nat
    /\ (H <> 0 -> Hmin < H -> last hs 0 = Hmin)
    /\ (H = 0 \/ H <= Hmin -> hs = []).
Proof.
  rewrite height_candidates_any. unfold spec_height_candidates.
  destruct (H =? 0) eqn:H0.
  { exists []. apply Z.eqb_eq in H0.
    repeat split; try constructor; simpl; try lia; auto. }
  apply Z.eqb_neq in H0.
  set (keep := fun h => (h <? H) && (Hmin <=? h)).
  set (l := filter keep [2160; 1440; 1080; 720; Hmin]).
  assert (Hkeep : Forall (fun h => Hmin <= h < H) l).
  { apply Forall_forall. intros h Hh. apply filter_In in Hh as [_ Hh].
    unfold keep in Hh. apply andb_true_iff in Hh as [H1 H2].
    apply Z.ltb_lt in H1. apply Z.leb_le in H2. lia. }
  assert (Hsorted : StronglySorted Z.ge l).
  { unfold l.
    change [2160; 1440; 1080; 720; Hmin] with ([2160; 1440; 1080; 720] ++ [Hmin]).
    rewrite filter_app. simpl (filter keep [Hmin]).
    assert (S4 : StronglySorted Z.ge (filter keep [2160; 1440; 1080; 720])).
    { apply filter_sorted. repeat constructor; lia. }
    destruct (keep Hmin); [|now rewrite app_nil_r].
    apply sorted_snoc; [exact S4|].
    apply Forall_forall. intros h Hh. apply filter_In in Hh as [_ Hh].
    unfold keep in Hh. apply andb_true_iff in Hh as [_ H2].
    apply Z.leb_le in H2. lia. }
  exists (first_occurrences Z.eqb [] l). split; [reflexivity|].
  assert (Hin : forall h, In h (first_occurrences Z.eqb [] l) -> Hmin <= h < H).
  { intros h Hh. apply first_occurrences_In in Hh.
    rewrite Forall_forall in Hkeep. exact (Hkeep _ Hh). }
  split; [apply Forall_forall; exact Hin|].
  split; [now apply first_occurrences_decreasing|].
  split.
  { etransitivity; [apply first_occurrences_length|].
    etransitivity; [apply filter_length|]. simpl. lia. }
  split.
  - intros _ Hlt. apply last_decreasing.
    + now apply first_occurrences_decreasing.
    + pose proof (C := height_candidates_any H Hmin).
      assert (Hpres : int_in Hmin (height_candidates H Hmin) = true).
      { unfold height_candidates.
        destruct (negb (H =? 0) && (Hmin <? H)
                  && negb (int_in Hmin
                             (fold_left
                                (fun acc h =>
                                   if negb (H =? 0) && (h <? H) && (Hmin <=? h)
                                      && negb (int_in h acc)
                                   then acc ++ [Some h] else acc)
                                [2160; 1440; 1080; 720; Hmin] [None]))) eqn:E.
        - unfold int_in. rewrite existsb_app. simpl.
          rewrite Z.eqb_refl. now rewrite orb_true_r.
        - apply andb_false_iff in E as [E|E].
          + apply andb_false_iff in E as [E|E].
            * apply negb_false_iff, Z.eqb_eq in E. contradiction.
            * apply Z.ltb_ge in E. lia.
          + now apply negb_false_iff in E. }
      rewrite C in Hpres. unfold spec_height_candidates in Hpres.
      apply Z.eqb_neq in H0. rewrite H0 in Hpres. fold keep in Hpres. fold l in Hpres.
      simpl in Hpres. unfold int_in in Hpres. 
      apply existsb_exists in Hpres as (c & Hc & Heq).
      apply in_map_iff in Hc as (h & <- & Hh).
      apply Z.eqb_eq in Heq. now subst h.
    + apply Forall_forall. intros h Hh. apply Hin in Hh. lia.
  - intros [->|Hle]; [contradiction|].
    destruct (first_occurrences Z.eqb [] l) as [|h t] eqn:E; [reflexivity|].
    specialize (Hin h (or_introl eq_refl)). lia.
Qed.

Lemma fps_candidates_length (F Fmin : Py.float) :
  (List.length (fps_candidates F Fmin) <= 5)%nat.
Proof.
  rewrite fps_candidates_spec. unfold spec_fps_candidates.
  cbn [List.length]. rewrite length_map.
  pose proof (first_occurrences_length Py.eqb
                (filter (fun f => Py.ltb f F)
                   [Py.lit 24; Py.lit 15; Py.lit 12; Fmin]) []) as H1.
  pose proof (filter_length (fun f => Py.ltb f F)
                [Py.lit 24; Py.lit 15; Py.lit 12; Fmin]) as H2.
  cbn [List.length] in H2. lia.
Qed.

Lemma height_candidates_tail_length (H Hmin : Z) :
  (List.length (tl (height_candidates H Hmin)) <= 5)%nat.
Proof.
  rewrite height_candidates_any. unfold spec_height_candidates.
  destruct (H =? 0); [simpl; lia|].
  cbn [tl]. rewrite length_map.
  pose proof (first_occurrences_length Z.eqb
                (filter (fun h => (h <? H) && (Hmin <=? h))
                   [2160; 1440; 1080; 720; Hmin]) []) as H1.
  pose proof (filter_length (fun h => (h <? H) && (Hmin <=? h))
                [2160; 1440; 1080; 720; Hmin]) as H2.
  cbn [List.length] in H2. lia.
Qed.


Section RunBounds.

Variable World : Type.
Variable verify_ffmpeg_tools : World -> res unit * World.
Variable prepared_input : string -> World -> res string * World.
Variable probe_video : string -> World -> res ProbeResult.t * World.
Variable subprocess_run : list string -> Z -> World -> proc * World.
Variable getsize : string -> World -> option Z * World.
Variable replace_output : string -> string -> World -> res unit * World.
Variable ffmpeg_path : string.
Variable temp_out : string.
Variable is_s3_url : string -> bool.

Local Abbreviation run' :=
  (run World verify_ffmpeg_tools prepared_input probe_video subprocess_run
     getsize replace_output ffmpeg_path temp_out is_s3_url).
Local Abbreviation run_calls' := (run_calls ffmpeg_path temp_out is_s3_url).

Lemma run_calls_of (a : Args.t) (w w' : World) (tr : list event)
    (r : res Outcome.t) :
  run' a w = (r, (w', tr)) -> run_calls' a tr r.
Proof.
  intros Hrun.
  destruct (run_calls_run World verify_ffmpeg_tools prepared_input probe_video
              subprocess_run getsize replace_output ffmpeg_path temp_out
              is_s3_url a w) as (evs0 & r0 & w0 & Hrun0 & Hcalls).
  rewrite Hrun in Hrun0. now injection Hrun0 as <- <- <-.
Qed.

(** X4. A run makes at most 22 ffmpeg calls - two per candidate of the two
    ladders and two for the bitrate attempt - and at most 11 when the codec
    is chosen explicitly; it tries to write the destination at most once. *)
Theorem calls_are_bounded (a : Args.t) (w w' : World) (tr : list event)
    (r : res Outcome.t) :
  run' a w = (r, (w', tr)) ->
  (List.length (filter is_encode tr) <= 22)%nat
  /\ (forall c, _pick_codec (Args.video_codec a) = Ok (c, None) ->
                (List.length (filter is_encode tr) <= 11)%nat)
  /\ (List.length (filter is_output tr) <= 1)%nat.
Proof.
  intros Hrun. apply run_calls_of in Hrun.
  destruct Hrun as [e Hv|B e Hv|B e Hv Hp|B codecs e Hv Hp|B codecs li e Hv Hp
                   |B codecs li p Hv Hp Hnv|B codecs li p Hv Hp Hhv Hd
                   |B pref fb li p evs r Hv Hp Hhv Hd Hs];
    simpl; try (repeat split; intros; lia).
  destruct (search_calls_count _ _ _ _ _ _ _ _ _ _ _ Hs) as (He & Ho & _).
  pose proof (fps_candidates_length (input_fps_of p) (Args.min_fps a)) as L1.
  pose proof (height_candidates_tail_length (input_h_of p) (Args.min_height a))
    as L2.
  revert He L1 L2.
  generalize (List.length (fps_candidates (input_fps_of p) (Args.min_fps a)))
    (List.length (tl (height_candidates (input_h_of p) (Args.min_height a)))).
  intros n1 n2 He L1 L2.
  split; [|split; [|exact Ho]].
  - destruct (usable_fallback fb); lia.
  - intros c Hc. rewrite Hc in Hp. injection Hp as <- <-. simpl in He. lia.
Qed.


End RunBounds.

(** ** The properties above, on scripted runs *)


Lemma unusable_probe_ends_run_witness :
  exists w' tr,
    Scripted.run Scripted.by_fps
      (ProbeResult.mk (Py.lit 10) "mp3" 128000 false true None None None None
         (Some "mp3"))
      (Scripted.args (Some 1000) None "auto" (Py.lit 8) 480)
    = (Raise (ValueError "Input has no video stream"), (w', tr))
    /\ List.length tr = 3%nat.
Proof.
  destruct (Scripted.run Scripted.by_fps
              (ProbeResult.mk (Py.lit 10) "mp3" 128000 false true None None
                 None None (Some "mp3"))
              (Scripted.args (Some 1000) None "auto" (Py.lit 8) 480))
    as [r [w' tr]] eqn:E.
  pose proof E as E'. vm_compute in E'. injection E' as Er Ew Et.
  destruct (unusable_probe_ends_run _ _ _ _ _ _ _ _ _ _ _ _ _ _ _
              "in.mp4"
              (ProbeResult.mk (Py.lit 10) "mp3" 128000 false true None None
                 None None (Some "mp3")) E)
    as [Htr Hr].
  - rewrite <- Et. vm_compute. auto.
  - left. reflexivity.
  - exists w', tr. rewrite Hr, Htr. split; reflexivity.
Defined.

Lemma calls_are_bounded_witness :
  exists r w' tr,
    Scripted.run Scripted.always_large
      (Scripted.probe (Py.lit 10) (Some 1080) (Some (Py.lit 30)))
      (Scripted.args (Some 1) None "libx264" (Py.lit 8) 480)
    = (r, (w', tr))
    /\ (List.length (filter is_encode tr) <= 11)%nat
    /\ (List.length (filter is_output tr) <= 1)%nat.
Proof.
  destruct (Scripted.run Scripted.always_large
              (Scripted.probe (Py.lit 10) (Some 1080) (Some (Py.lit 30)))
              (Scripted.args (Some 1) None "libx264" (Py.lit 8) 480))
    as [r [w' tr]] eqn:E.
  destruct (calls_are_bounded _ _ _ _ _ _ _ _ _ _ _ _ _ _ _ E)
    as (_ & H11 & H1).
  exists r, w', tr. split; [reflexivity|]. split; [|exact H1].
  apply (H11 "libx264"). reflexivity.
Defined.


(** ** What a returned outcome says *)

Lemma fps_candidates_below (F Fmin : Py.float) (f : Py.float) :
  In (Some f) (fps_candidates F Fmin) -> Py.ltb f F = true.
Proof.
  rewrite fps_candidates_spec. unfold spec_fps_candidates.
  intros [H|H]; [discriminate|].
  apply in_map_iff in H as (g & [= ->] & H).
  apply first_occurrences_In in H. now apply filter_In in H as [_ H].
Qed.

Lemma height_candidates_within (H Hmin : Z) (h : Z) :
  In (Some h) (tl (height_candidates H Hmin)) -> Hmin <= h < H.
Proof.
  rewrite height_candidates_any. unfold spec_height_candidates.
  destruct (H =? 0); [intros []|]. cbn [tl]. intros Hin.
  apply in_map_iff in Hin as (g & [= ->] & Hin).
  apply first_occurrences_In in Hin. apply filter_In in Hin as [_ Hin].
  apply andb_true_iff in Hin as [H1 H2].
  apply Z.ltb_lt in H1. apply Z.leb_le in H2. lia.
Qed.

Lemma last_In {A : Type} (l : list A) (d : A) :
  l <> [] -> In (last l d) l.
Proof.
  induction l as [|x l IH]; [congruence|]. intros _.
  destruct l as [|y l]; [now left|].
  right. apply IH. discriminate.
Qed.

Lemma last_fps_below (F Fmin : Py.float) (f : Py.float) :
  last (fps_candidates F Fmin) None = Some f -> Py.ltb f F = true.
Proof.
  intros H. apply (fps_candidates_below F Fmin).
  rewrite <- H. apply last_In.
  rewrite fps_candidates_spec. discriminate.
Qed.

Lemma last_height_within (H Hmin : Z) (h : Z) :
  last (tl (height_candidates H Hmin)) None = Some h -> Hmin <= h < H.
Proof.
  intros E. apply height_candidates_within.
  rewrite <- E. apply last_In. intros E'. rewrite E' in E. discriminate.
Qed.

Lemma Forall2_Forall_in {X Y : Type} (R : X -> Y -> Prop) (P : Y -> Prop)
    (l : list X) (l' : list Y) :
  (forall x y, In x l -> R x y -> P y) -> Forall2 R l l' -> Forall P l'.
Proof.
  intros HR H. induction H as [|x y l l' Hxy H IH]; constructor.
  - apply (HR x); [now left|exact Hxy].
  - apply IH. intros x' y' Hx'. apply HR. now right.
Qed.

Section Outcomes.

Variable World : Type.
Variable verify_ffmpeg_tools : World -> res unit * World.
Variable prepared_input : string -> World -> res string * World.
Variable probe_video : string -> World -> res ProbeResult.t * World.
Variable subprocess_run : list string -> Z -> World -> proc * World.
Variable getsize : string -> World -> option Z * World.
Variable replace_output : string -> string -> World -> res unit * World.
Variable ffmpeg_path : string.
Variable temp_out : string.
Variable is_s3_url : string -> bool.

Local Abbreviation run' :=
  (run World verify_ffmpeg_tools prepared_input probe_video subprocess_run
     getsize replace_output ffmpeg_path temp_out is_s3_url).

(** X6. The outcome a run returns is consistent: it repeats the input and
    the destination, reports the destination as a local path or as an S3 URL
    (never both), carries the validated positive budget; its log is not
    empty, every attempt but the last exceeded the budget, the reported size
    is the size of the last attempt, [success] says exactly whether that
    size is within the budget, and only the bitrate strategy can report a
    failure. *)
Theorem returned_outcome_is_consistent (a : Args.t) (w w' : World)
    (tr : list event) (out : Outcome.t) :
  run' a w = (Ok out, (w', tr)) ->
  exists earlier final,
    validate a = Ok (Outcome.target_bytes out)
    /\ 0 < Outcome.target_bytes out
    /\ Outcome.input_path out = Args.input_path a
    /\ Outcome.output out = Args.output a
    /\ Outcome.s3_url out
       = (if is_s3_url (Args.output a) then Some (Args.output a) else None)
    /\ Outcome.local_path out
       = (if is_s3_url (Args.output a) then None else Some (Args.output a))
    /\ Outcome.attempts out = earlier ++ [final]
    /\ Forall (fun att => Outcome.target_bytes out < Attempt.output_bytes att)
         earlier
    /\ Outcome.actual_bytes out = Attempt.output_bytes final
    /\ Outcome.success out
       = (Outcome.actual_bytes out <=? Outcome.target_bytes out)
    /\ (Outcome.strategy out = "fps" \/ Outcome.strategy out = "fps+scale"
        \/ Outcome.strategy out = "fps+scale+bitrate")
    /\ (Outcome.success out = false ->
        Outcome.strategy out = "fps+scale+bitrate").
Proof.
  intros Hrun.
  destruct (run_returned _ _ _ _ _ _ _ _ _ _ _ _ _ _ _ Hrun)
    as (B & pref & fb & li & p & evs & Hv & _ & _ & _ & Hret).
  destruct (validate_Ok _ _ Hv) as (_ & _ & HB & _).
  assert (Hover : forall l, Forall (over_budget B) l ->
                            Forall (fun att => B < Attempt.output_bytes att) l).
  { intros l. apply Forall_impl. intros att Ho. unfold over_budget in Ho.
    apply Z.leb_gt in Ho. exact Ho. }
  destruct Hret as [done x rest new att Hc Hps Hov Hp Hle
                   |attempts1 last_fps done h rest new att Hps1 Hov1 Hlf Hc
                      Hps Hov Hp Hle
                   |attempts1 last_fps attempts2 last_height v att Hps1 Hov1
                      Hlf Hps2 Hov2 Hlh Hv3 Hp];
    unfold outcome; cbn [Outcome.target_bytes Outcome.input_path Outcome.output
                         Outcome.s3_url Outcome.local_path Outcome.attempts
                         Outcome.actual_bytes Outcome.success Outcome.strategy].
  - exists new, att. rewrite Hle.
    repeat split; auto; try (now destruct (is_s3_url (Args.output a)));
      discriminate.
  - exists (attempts1 ++ new), att. rewrite Hle, app_assoc.
    repeat split; auto; try (now destruct (is_s3_url (Args.output a)));
      try discriminate.
    apply Forall_app. split; auto.
  - exists (attempts1 ++ attempts2), att. rewrite app_assoc.
    repeat split; auto; try (now destruct (is_s3_url (Args.output a))).
    apply Forall_app. split; auto.
Qed.

(** X7. No attempt of the log upscales, and no CRF attempt raises the
    frame rate: a logged height is at least [min_height] and strictly below
    the input height, a logged frame rate of a CRF attempt is strictly below
    the input frame rate; a height is only logged with the last frame rate of
    the frame-rate ladder. The bitrate attempt always sets a frame rate: one
    below the input's, or [min_fps]. *)
Theorem logged_parameters_shrink (a : Args.t) (w w' : World)
    (tr : list event) (out : Outcome.t) (li : string) (p : ProbeResult.t) :
  run' a w = (Ok out, (w', tr)) ->
  In (EvProbe li (Ok p)) tr ->
  Forall
    (fun att =>
       Attempt.audio_bitrate att = Args.audio_bitrate a
       /\ (forall h, Attempt.height att = Some h ->
             Args.min_height a <= h < input_h_of p
             /\ (Attempt.crf att <> None ->
                 Attempt.fps att
                 = last (fps_candidates (input_fps_of p) (Args.min_fps a))
                     None))
       /\ match Attempt.crf att with
          | Some _ =>
              forall f, Attempt.fps att = Some f ->
                        Py.ltb f (input_fps_of p) = true
          | None =>
              exists f, Attempt.fps att = Some f
                        /\ (Py.ltb f (input_fps_of p) = true
                            \/ f = Args.min_fps a)
          end)
    (Outcome.attempts out).
Proof.
  intros Hrun Hprobe.
  destruct (run_returned _ _ _ _ _ _ _ _ _ _ _ _ _ _ _ Hrun)
    as (B & pref & fb & li0 & p0 & evs & Hv & _ & Htr & Hlog & Hret).
  destruct (probe_of_run _ _ _ _ _ _ _ _ _ _ _ _ Htr Hlog Hprobe) as [-> ->].
  clear Hprobe.
  set (F := input_fps_of p0) in *. set (H := input_h_of p0) in *.
  assert (S1 : forall cands atts,
             (forall y, In y cands -> In y (fps_candidates F (Args.min_fps a))) ->
             Forall2 (fun y att' => params_of att' = stage1_params a y)
               cands atts ->
             Forall
               (fun att =>
                  Attempt.audio_bitrate att = Args.audio_bitrate a
                  /\ (forall h, Attempt.height att = Some h ->
                        Args.min_height a <= h < H
                        /\ (Attempt.crf att <> None ->
                            Attempt.fps att
                            = last (fps_candidates F (Args.min_fps a)) None))
                  /\ match Attempt.crf att with
                     | Some _ =>
                         forall f, Attempt.fps att = Some f ->
                                   Py.ltb f F = true
                     | None =>
                         exists f, Attempt.fps att = Some f
                                   /\ (Py.ltb f F = true
                                       \/ f = Args.min_fps a)
                     end) atts).
  { intros cands atts Hsub. apply Forall2_Forall_in.
    intros y att Hy Hps. destruct att as [af ah ac acrf avb aab an].
    unfold params_of, stage1_params, crf_params in Hps. simpl in Hps.
    injection Hps as -> -> -> -> ->. simpl.
    split; [reflexivity|]. split; [discriminate|].
    intros f ->. exact (fps_candidates_below _ _ _ (Hsub _ Hy)). }
  assert (S2 : forall cands atts,
             (forall y, In y cands ->
                        In y (tl (height_candidates H (Args.min_height a)))) ->
             Forall2
               (fun y att' =>
                  params_of att'
                  = stage2_params a
                      (last (fps_candidates F (Args.min_fps a)) None) y)
               cands atts ->
             Forall
               (fun att =>
                  Attempt.audio_bitrate att = Args.audio_bitrate a
                  /\ (forall h, Attempt.height att = Some h ->
                        Args.min_height a <= h < H
                        /\ (Attempt.crf att <> None ->
                            Attempt.fps att
                            = last (fps_candidates F (Args.min_fps a)) None))
                  /\ match Attempt.crf att with
                     | Some _ =>
                         forall f, Attempt.fps att = Some f ->
                                   Py.ltb f F = true
                     | None =>
                         exists f, Attempt.fps att = Some f
                                   /\ (Py.ltb f F = true
                                       \/ f = Args.min_fps a)
                     end) atts).
  { intros cands atts Hsub. apply Forall2_Forall_in.
    intros y att Hy Hps. destruct att as [af ah ac acrf avb aab an].
    unfold params_of, stage2_params, crf_params in Hps. simpl in Hps.
    injection Hps as -> -> -> -> ->. simpl.
    split; [reflexivity|]. split.
    - intros h ->. split; [|reflexivity].
      exact (height_candidates_within _ _ _ (Hsub _ Hy)).
    - intros f Hf. exact (last_fps_below _ _ _ Hf). }
  destruct Hret as [done x rest new att Hc Hps Hov Hp Hle
                   |attempts1 last_fps done h rest new att Hps1 Hov1 Hlf Hc
                      Hps Hov Hp Hle
                   |attempts1 last_fps attempts2 last_height v att Hps1 Hov1
                      Hlf Hps2 Hov2 Hlh Hv3 Hp];
    unfold outcome; cbn [Outcome.attempts].
  - fold F in Hc.
    assert (Hall : Forall2 (fun y att' => params_of att' = stage1_params a y)
                     (done ++ [x]) (new ++ [att]))
      by (apply Forall2_app; [exact Hps|repeat constructor; exact Hp]).
    apply (S1 (done ++ [x])); [|exact Hall].
    intros y Hy. rewrite Hc. apply in_app_iff in Hy as [Hy|[<-|[]]];
      apply in_app_iff; [now left|right; now left].
  - fold F in Hps1, Hlf. fold H in Hc. subst last_fps.
    apply Forall_app. split; [apply (S1 _ _ (fun y Hy => Hy) Hps1)|].
    assert (Hall : Forall2
                     (fun y att' =>
                        params_of att'
                        = stage2_params a
                            (last (fps_candidates F (Args.min_fps a)) None) y)
                     (done ++ [h]) (new ++ [att]))
      by (apply Forall2_app; [exact Hps|repeat constructor; exact Hp]).
    apply (S2 (done ++ [h])); [|exact Hall].
    intros y Hy. rewrite Hc. apply in_app_iff in Hy as [Hy|[<-|[]]];
      apply in_app_iff; [now left|right; now left].
  - fold F in Hps1, Hlf. fold H in Hps2, Hlh. subst last_fps.
    apply Forall_app. split; [apply (S1 _ _ (fun y Hy => Hy) Hps1)|].
    apply Forall_app. split; [apply (S2 _ _ (fun y Hy => Hy) Hps2)|].
    constructor; [|constructor].
    destruct att as [af ah ac acrf avb aab an].
    unfold params_of, bitrate_params in Hp. simpl in Hp.
    injection Hp as -> -> -> -> ->. simpl.
    split; [reflexivity|]. split.
    + intros h Hh. split; [|intros Hn; now contradiction Hn].
      subst last_height. exact (last_height_within _ _ _ Hh).
    + unfold stage3_fps.
      destruct (last (fps_candidates F (Args.min_fps a)) None) as [f|] eqn:El.
      * exists f. split; [reflexivity|]. left. exact (last_fps_below _ _ _ El).
      * exists (Args.min_fps a). split; [reflexivity|]. now right.
Qed.

End Outcomes.

Lemma returned_outcome_is_consistent_witness :
  exists out w' tr earlier final,
    Scripted.run Scripted.by_fps
      (Scripted.probe (Py.lit 10) (Some 1080) (Some (Py.lit 30)))
      (Scripted.args (Some 1000) None "auto" (Py.lit 8) 480)
    = (Ok out, (w', tr))
    /\ Outcome.attempts out = earlier ++ [final]
    /\ Forall (fun att => Outcome.target_bytes out < Attempt.output_bytes att)
         earlier
    /\ Outcome.actual_bytes out = Attempt.output_bytes final
    /\ Outcome.success out
       = (Outcome.actual_bytes out <=? Outcome.target_bytes out).
Proof.
  destruct (Scripted.run Scripted.by_fps
              (Scripted.probe (Py.lit 10) (Some 1080) (Some (Py.lit 30)))
              (Scripted.args (Some 1000) None "auto" (Py.lit 8) 480))
    as [[out|e] [w' tr]] eqn:E.
  - destruct (returned_outcome_is_consistent _ _ _ _ _ _ _ _ _ _ _ _ _ _ _ E)
      as (earlier & final & _ & _ & _ & _ & _ & _ & Ha & He & Hb & Hs & _).
    exists out, w', tr, earlier, final. repeat split; assumption.
  - vm_compute in E. discriminate.
Defined.

Lemma logged_parameters_shrink_witness :
  exists out w' tr,
    Scripted.run Scripted.always_large
      (Scripted.probe (Py.lit 10) (Some 1080) (Some (Py.lit 30)))
      (Scripted.args (Some 1) None "libx264" (Py.lit 8) 480)
    = (Ok out, (w', tr))
    /\ Forall
         (fun att =>
            forall h, Attempt.height att = Some h -> 480 <= h < 1080)
         (Outcome.attempts out).
Proof.
  destruct (Scripted.run Scripted.always_large
              (Scripted.probe (Py.lit 10) (Some 1080) (Some (Py.lit 30)))
              (Scripted.args (Some 1) None "libx264" (Py.lit 8) 480))
    as [[out|e] [w' tr]] eqn:E.
  - exists out, w', tr. split; [reflexivity|].
    pose proof E as E'. vm_compute in E'. injection E' as Eo Ew Et.
    assert (Hp : In (EvProbe "in.mp4"
                       (Ok (Scripted.probe (Py.lit 10) (Some 1080)
                              (Some (Py.lit 30))))) tr)
      by (rewrite <- Et; vm_compute; auto).
    pose proof (logged_parameters_shrink _ _ _ _ _ _ _ _ _ _ _ _ _ _ _ _ _
                  E Hp) as H.
    eapply Forall_impl; [|exact H].
    intros att (_ & Hh & _) h Hatt. exact (proj1 (Hh h Hatt)).
  - vm_compute in E. discriminate.
Defined.
